(* Construction-Pulse governance engine: a shallow embedding of the audit
   ledger (models/AuditLog.js, utils/governance.js), the lockout guard, the
   pending-action workflow and the bootstrap route (routes/governance.js),
   with the properties of its specification. *)

From Stdlib Require Import String Ascii List Bool ZArith Arith Lia Permutation.
From Stdlib Require DecimalString DecimalNat.
Import ListNotations.
Open Scope string_scope.
Set Warnings "-register-all,-abstract-large-number".

(** * Small string helpers *)

Fixpoint digits_of_nat (fuel n : nat) (acc : string) : string :=
  match fuel with
  | O => acc
  | S f =>
      let acc' := String (ascii_of_nat (48 + n mod 10)) acc in
      if Nat.ltb n 10 then acc' else digits_of_nat f (n / 10) acc'
  end.

(** [n.toString()] for a non-negative integer. *)
Definition string_of_nat (n : nat) : string := digits_of_nat (S n) n "".

Definition string_of_Z (z : Z) : string :=
  match z with
  | Zneg p => "-" ++ string_of_nat (Pos.to_nat p)
  | _ => string_of_nat (Z.to_nat z)
  end.

(** * JSON values

    The [Mixed] fields ([details], [actionPayload]) hold JSON-like data.
    Numbers are integers in this model. *)
Inductive jvalue : Type :=
| JUndefined
| JNull
| JBool (b : bool)
| JNum (z : Z)
| JStr (s : string)
| JArr (items : list jvalue)
| JObj (fields : list (string * jvalue)).

(** JavaScript truthiness, used by [x || default]. *)
Definition truthy (v : jvalue) : bool :=
  match v with
  | JUndefined | JNull => false
  | JBool b => b
  | JNum z => negb (Z.eqb z 0)
  | JStr s => negb (String.eqb s "")
  | JArr _ | JObj _ => true
  end.

Definition dq : string := String (ascii_of_nat 34) "".
Definition bs : string := String (ascii_of_nat 92) "".

Fixpoint escape_string (s : string) : string :=
  match s with
  | EmptyString => ""
  | String c r =>
      if Ascii.eqb c (ascii_of_nat 34) then bs ++ dq ++ escape_string r
      else if Ascii.eqb c (ascii_of_nat 92) then bs ++ bs ++ escape_string r
      else String c (escape_string r)
  end.

Definition quote (s : string) : string := dq ++ escape_string s ++ dq.

(** [JSON.stringify]: object members whose value is [undefined] are
    omitted, [undefined] array items print as [null]; a top-level
    [undefined] has no text ([None]). *)
Fixpoint stringify (v : jvalue) : option string :=
  match v with
  | JUndefined => None
  | JNull => Some "null"
  | JBool true => Some "true"
  | JBool false => Some "false"
  | JNum z => Some (string_of_Z z)
  | JStr s => Some (quote s)
  | JArr items =>
      let fix items_text (l : list jvalue) : list string :=
        match l with
        | [] => []
        | x :: r =>
            match stringify x with
            | Some t => t
            | None => "null"
            end :: items_text r
        end in
      Some ("[" ++ String.concat "," (items_text items) ++ "]")
  | JObj fields =>
      let fix fields_text (l : list (string * jvalue)) : list string :=
        match l with
        | [] => []
        | (k, x) :: r =>
            match stringify x with
            | Some t => (quote k ++ ":" ++ t) :: fields_text r
            | None => fields_text r
            end
        end in
      Some ("{" ++ String.concat "," (fields_text fields) ++ "}")
  end.

(** [JSON.stringify(v)] as it appears inside [Array.prototype.join]:
    an [undefined] result joins as the empty string. *)
Definition json_text (v : jvalue) : string :=
  match stringify v with Some t => t | None => "" end.

(** [v || {}] *)
Definition or_empty_object (v : jvalue) : jvalue :=
  if truthy v then v else JObj [].

(** [s || ''] for an optional string field. *)
Definition or_empty (o : option string) : string :=
  match o with Some s => s | None => "" end.

(** The value a [Mixed] path holds once [save()] has written it and it
    is read back. [save] serialises the document with Mongoose's default
    [minimize]: an object member whose value is [undefined], or an object
    that ends up with no members, is left out, and so is the path itself
    when its value is such an object; an object that is an array item is
    kept, even empty. An [undefined] array item is stored as [null]. *)
Fixpoint stored_value (in_array : bool) (v : jvalue) : jvalue :=
  match v with
  | JArr items =>
      let fix items_stored (l : list jvalue) : list jvalue :=
        match l with
        | [] => []
        | x :: r =>
            match stored_value true x with
            | JUndefined => JNull
            | y => y
            end :: items_stored r
        end in
      JArr (items_stored items)
  | JObj fields =>
      let fix fields_stored (l : list (string * jvalue)) : list (string * jvalue) :=
        match l with
        | [] => []
        | (k, x) :: r =>
            match stored_value false x with
            | JUndefined => fields_stored r
            | y => (k, y) :: fields_stored r
            end
        end in
      match fields_stored fields with
      | [] => if in_array then JObj [] else JUndefined
      | kept => JObj kept
      end
  | _ => v
  end.

(** A [Mixed] path of a saved document, as stored. *)
Definition stored (v : jvalue) : jvalue := stored_value false v.

(** Outcome of an [async] function: its resolved value or the message of
    the [Error] it throws. *)
Inductive result (E A : Type) : Type :=
| Ok (a : A)
| Err (e : E).
Arguments Ok {E A} a.
Arguments Err {E A} e.

(** Which database call of a store operation fails, if any: the read
    ([findOne]) or the write ([save]). *)
Inductive fault : Type := NoFault | ReadFault | WriteFault.

Inductive gov_error : Type :=
| PolicyNotFound          (* No governance policy found for action / for this action *)
| PermissionDenied        (* You do not have permission to request / approve this action *)
| LockoutViolation        (* Action / Approval blocked: would reduce active admins below minimum *)
| ActionNotFound          (* Pending action not found *)
| InvalidStatus (s : string) (* Cannot approve / veto / cancel action with status: s *)
| ActionExpired           (* This pending action has expired *)
| SelfApproval            (* You cannot approve your own request (separation of powers) *)
| DuplicateApproval       (* You have already approved this action *)
| DelayPassed             (* Cannot veto: execution delay has passed *)
| NotAdmin                (* Only administrators can veto actions *)
| NotRequestor            (* Only the original requestor can cancel this action *)
| CastError               (* Cast to ObjectId failed *)
| TypeError               (* Cannot read properties of null / undefined *)
| ValidationError.        (* a [required] schema field is missing *)

(** * Runtime primitives

    The library functions the code calls and that are not modelled bit by
    bit: [crypto.createHash('sha256').update(s).digest('hex')],
    [Date.prototype.toISOString] on a date given in epoch milliseconds, and
    the query operators of a filter [{ _id: { $op: x, ... } }]: Mongoose's
    cast of the operator values for an ObjectId path (which may throw) and
    the database's test of the cast condition against a document's [_id]. *)
Class Runtime := {
  sha256hex : string -> string;
  toISOString : Z -> string;
  idOperatorMatch : list (string * jvalue) -> result gov_error (string -> bool)
}.

(** * Audit ledger (models/AuditLog.js, utils/governance.js section 1) *)
Module AuditLog.

Record entry : Type := {
  user : option string;          (* ObjectId hex; [None] is a system event *)
  action : string;
  resource : string;
  resourceId : option string;
  details : jvalue;
  ip : option string;
  previousHash : string;
  entryHash : string;
  sequenceNumber : nat;
  createdAt : Z                  (* epoch milliseconds *)
}.

Section Ledger.
Context `{Runtime}.

(** The string [computeHash] digests, [payload] in the source. *)
Definition hash_payload (e : entry) : string :=
  String.concat "|" [
    (if String.eqb (previousHash e) "" then "GENESIS" else previousHash e);
    action e;
    resource e;
    or_empty (resourceId e);
    (match user e with Some u => u | None => "SYSTEM" end);
    json_text (or_empty_object (details e));
    or_empty (ip e);
    toISOString (createdAt e);
    string_of_nat (sequenceNumber e)
  ].

(** [auditLogSchema.methods.computeHash] *)
Definition computeHash (e : entry) : string := sha256hex (hash_payload e).

(** [auditLogSchema.methods.verifyIntegrity] *)
Definition verifyIntegrity (e : entry) : bool := String.eqb (entryHash e) (computeHash e).

(** [user ? user.toString() : 'SYSTEM'] *)
Definition user_or_system (u : option string) : string :=
  match u with Some x => x | None => "SYSTEM" end.

(** [AuditLog.findOne().sort({ sequenceNumber: -1 })]: an entry with the
    highest sequence number (the later one among equal numbers). *)
Fixpoint last_by_seq (l : list entry) : option entry :=
  match l with
  | [] => None
  | e :: r =>
      match last_by_seq r with
      | Some m => if Nat.ltb (sequenceNumber m) (sequenceNumber e) then Some e else Some m
      | None => Some e
      end
  end.

(** The highest stored sequence number (0 for an empty ledger). *)
Definition max_seq (l : list entry) : nat := list_max (map sequenceNumber l).

(** The entry [appendAuditLog] builds before [save], hash included. *)
Definition build_entry (lastEntry : option entry) (act res : string)
    (det : jvalue) (ip0 : option string) (userId resId : option string)
    (now : Z) : entry :=
  let prev := match lastEntry with Some l => entryHash l | None => "GENESIS" end in
  let seq := match lastEntry with Some l => S (sequenceNumber l) | None => 1 end in
  let e0 := {| user := userId; action := act; resource := res;
               resourceId := resId; details := det; ip := ip0;
               previousHash := prev; entryHash := ""; sequenceNumber := seq;
               createdAt := now |} in
  {| user := userId; action := act; resource := res;
     resourceId := resId; details := det; ip := ip0;
     previousHash := prev; entryHash := computeHash e0; sequenceNumber := seq;
     createdAt := now |}.

(** The body of the [try] block of [appendAuditLog]: the read of the last
    entry, the construction and the [save] (whose schema validation
    rejects an empty [action] or [resource], both [required]). *)
Definition append_body (f : fault) (act res : string) (det : jvalue)
    (ip0 : option string) (userId resId : option string) (now : Z)
    (ledger : list entry) : result string entry :=
  match f with
  | ReadFault => Err "read of the last audit entry failed"
  | _ =>
      let e := build_entry (last_by_seq ledger) act res det ip0 userId resId now in
      if String.eqb act "" || String.eqb res "" then Err "AuditLog validation failed"
      else match f with
           | WriteFault => Err "write of the audit entry failed"
           | _ => Ok e
           end
  end.

(** The document [entry.save()] writes: the entry with its [details] as
    stored. *)
Definition stored_entry (e : entry) : entry :=
  {| user := user e; action := action e; resource := resource e;
     resourceId := resourceId e; details := stored (details e); ip := ip e;
     previousHash := previousHash e; entryHash := entryHash e;
     sequenceNumber := sequenceNumber e; createdAt := createdAt e |}.

(** [appendAuditLog(action, resource, details, ip, userId, resourceId)]:
    every error of the body is caught and turned into [null]. It returns
    the in-memory document, whose [details] are the ones given; the ledger
    receives the saved document. *)
Definition appendAuditLog (f : fault) (act res : string) (det : jvalue)
    (ip0 : option string) (userId resId : option string) (now : Z)
    (ledger : list entry) : option entry * list entry :=
  match append_body f act res det ip0 userId resId now ledger with
  | Ok e => (Some e, (ledger ++ [stored_entry e])%list)
  | Err _ => (None, ledger)
  end.

(** [AuditLog.find().sort({ sequenceNumber: 1 })] *)
Fixpoint insert_by_seq (e : entry) (l : list entry) : list entry :=
  match l with
  | [] => [e]
  | x :: r =>
      if Nat.leb (sequenceNumber x) (sequenceNumber e) then x :: insert_by_seq e r
      else e :: l
  end.

Fixpoint sort_by_seq (l : list entry) : list entry :=
  match l with
  | [] => []
  | x :: r => insert_by_seq x (sort_by_seq r)
  end.

(** [.limit(limit)]: MongoDB reads a limit of 0 as no limit. *)
Definition take_limit (limit : nat) (l : list entry) : list entry :=
  match limit with O => l | _ => firstn limit l end.

Record verify_result : Type := {
  valid : bool;
  brokenAt : option nat;
  checked : nat
}.

(** The [for] loop of [verifyAuditChain]; [i] entries were examined. *)
Fixpoint verify_from (prev : string) (i : nat) (es : list entry) : verify_result :=
  match es with
  | [] => {| valid := true; brokenAt := None; checked := i |}
  | e :: r =>
      if negb (String.eqb (previousHash e) prev) then
        {| valid := false; brokenAt := Some (sequenceNumber e); checked := S i |}
      else if negb (String.eqb (entryHash e) (computeHash e)) then
        {| valid := false; brokenAt := Some (sequenceNumber e); checked := S i |}
      else verify_from (entryHash e) (S i) r
  end.

(** [verifyAuditChain(limit)] *)
Definition verifyAuditChain (limit : nat) (ledger : list entry) : verify_result :=
  match take_limit limit (sort_by_seq ledger) with
  | [] => {| valid := true; brokenAt := None; checked := 0 |}
  | entries => verify_from "GENESIS" 0 entries
  end.

End Ledger.
End AuditLog.

(** * ObjectId casting (Mongoose [findById] on an untyped payload value) *)

Definition in_range (lo hi n : nat) : bool := Nat.leb lo n && Nat.leb n hi.

Definition is_hex_char (c : ascii) : bool :=
  let n := nat_of_ascii c in
  in_range 48 57 n || in_range 97 102 n || in_range 65 70 n.

Fixpoint all_hex (s : string) : bool :=
  match s with
  | EmptyString => true
  | String c r => is_hex_char c && all_hex r
  end.

Fixpoint lower (s : string) : string :=
  match s with
  | EmptyString => EmptyString
  | String c r =>
      let n := nat_of_ascii c in
      String (if in_range 65 90 n then ascii_of_nat (n + 32) else c) (lower r)
  end.

(** [String(v)] for the values a payload field can hold. *)
Fixpoint js_toString (v : jvalue) : string :=
  match v with
  | JUndefined => "undefined"
  | JNull => "null"
  | JBool true => "true"
  | JBool false => "false"
  | JNum z => string_of_Z z
  | JStr s => s
  | JArr items =>
      String.concat ","
        (map (fun x => match x with
                       | JUndefined | JNull => ""
                       | _ => js_toString x
                       end) items)
  | JObj _ => "[object Object]"
  end.

(** [v.key] on a value that is not [null]/[undefined]. *)
Definition get_field (v : jvalue) (key : string) : jvalue :=
  match v with
  | JObj fields =>
      match find (fun kv => String.eqb (fst kv) key) fields with
      | Some (_, x) => x
      | None => JUndefined
      end
  | _ => JUndefined
  end.

(** [payload.targetUserId] *)
Definition read_field (v : jvalue) (key : string) : result gov_error jvalue :=
  match v with
  | JUndefined | JNull => Err TypeError
  | _ => Ok (get_field v key)
  end.

Definition cast_string (s : string) : result gov_error (option string) :=
  if Nat.eqb (String.length s) 24 && all_hex s then Ok (Some (lower s))
  else Err CastError.

(** Mongoose's ObjectId cast of one value: [null]/[undefined] stay as
    they are, an object with a truthy [_id] is cast through it, anything
    else through its string form, which must be 24 hex digits. *)
Definition castObjectId (v : jvalue) : result gov_error (option string) :=
  match v with
  | JUndefined | JNull => Ok None
  | JObj _ =>
      let i := get_field v "_id" in
      if truthy i then cast_string (js_toString i) else cast_string (js_toString v)
  | _ => cast_string (js_toString v)
  end.

(** * Accounts (the [User] model, governance-relevant fields) *)
Module User.
Record t : Type := {
  _id : string;
  firebaseUid : option string;
  email : option string;
  name : option string;
  role : string;
  status : string
}.
End User.

(** [User.countDocuments({ role: 'admin', status: 'active' })] *)
Definition is_active_admin (u : User.t) : bool :=
  String.eqb (User.role u) "admin" && String.eqb (User.status u) "active".

Definition countActiveAdmins (users : list User.t) : nat :=
  length (filter is_active_admin users).

(** [User.findById(id)] for an id that is already an ObjectId. *)
Definition findUser (users : list User.t) (id : string) : option User.t :=
  find (fun u => String.eqb (User._id u) id) users.

(** * Lockout guard (utils/governance.js section 3) *)

Definition MIN_ACTIVE_ADMINS : Z := 1.

Record safety : Type := {
  safe : bool;
  currentCount : nat;
  wouldRemove : nat;
  resultingCount : option Z
}.

(** [User.findById(v)] builds the filter [{ _id: v }], which Mongoose casts
    before the query runs: [null] and [undefined] match nothing; an object
    with a key that starts with [$] (other than [$ref], [$id] and [$db]) is
    a set of query operators; an array becomes [{ $in: [...] }], each item
    cast to an ObjectId (a [null] item matches nothing); any other value is
    cast to one ObjectId. *)
Inductive id_filter : Type :=
| IdNull
| IdEq (i : string)
| IdIn (ids : list (option string))
| IdOps (ops : list (string * jvalue)).

Definition is_operator (k : string) : bool :=
  match k with
  | String c _ =>
      Ascii.eqb c "$"%char
      && negb (String.eqb k "$ref" || String.eqb k "$id" || String.eqb k "$db")
  | EmptyString => false
  end.

Fixpoint cast_items (l : list jvalue) : result gov_error (list (option string)) :=
  match l with
  | [] => Ok []
  | x :: r =>
      match castObjectId x with
      | Err e => Err e
      | Ok o => match cast_items r with Ok os => Ok (o :: os) | Err e => Err e end
      end
  end.

Definition castIdFilter (v : jvalue) : result gov_error id_filter :=
  let one := match castObjectId v with
             | Ok (Some i) => Ok (IdEq i)
             | Ok None => Ok IdNull
             | Err e => Err e
             end in
  match v with
  | JUndefined | JNull => Ok IdNull
  | JObj fields => if existsb (fun kv => is_operator (fst kv)) fields then Ok (IdOps fields) else one
  | JArr items => match cast_items items with Ok os => Ok (IdIn os) | Err e => Err e end
  | _ => one
  end.

Section Guard.
Context `{Runtime}.

(** [User.findById(v)]: the first account, in store order, that the cast
    filter matches. *)
Definition findUserById (users : list User.t) (v : jvalue) : result gov_error (option User.t) :=
  match castIdFilter v with
  | Err e => Err e
  | Ok IdNull => Ok None
  | Ok (IdEq i) => Ok (findUser users i)
  | Ok (IdIn ids) =>
      Ok (find (fun u => existsb (fun o => match o with
                                           | Some i => String.eqb (User._id u) i
                                           | None => false
                                           end) ids) users)
  | Ok (IdOps ops) =>
      match idOperatorMatch ops with
      | Err e => Err e
      | Ok m => Ok (find (fun u => m (User._id u)) users)
      end
  end.

(** [checkAdminCountSafety(targetUserId, action)]: the target comes from
    the action payload. *)
Definition checkAdminCountSafety (users : list User.t) (targetUserId : jvalue)
    : result gov_error safety :=
  let activeAdminCount := countActiveAdmins users in
  match findUserById users targetUserId with
  | Err m => Err m
  | Ok None =>
      Ok {| safe := true; currentCount := activeAdminCount; wouldRemove := 0;
            resultingCount := None |}
  | Ok (Some targetUser) =>
      if negb (is_active_admin targetUser) then
        Ok {| safe := true; currentCount := activeAdminCount; wouldRemove := 0;
              resultingCount := None |}
      else
        let rc := (Z.of_nat activeAdminCount - 1)%Z in
        Ok {| safe := Z.leb MIN_ACTIVE_ADMINS rc; currentCount := activeAdminCount;
              wouldRemove := 1; resultingCount := Some rc |}
  end.

End Guard.

(** * Policies (models/GovernancePolicy.js) *)
Module GovernancePolicy.
Record t : Type := {
  actionType : string;
  description : string;
  requiredApprovals : nat;
  allowedRequestors : list string;
  allowedApprovers : list string;
  selfApprovalAllowed : bool;
  executionDelaySecs : nat;
  reversibilityWindowSecs : nat;
  isSystemDefault : bool;
  enabled : bool
}.
End GovernancePolicy.

(** * Pending actions (models/PendingAction.js) *)
Inductive action_status : Type :=
| Pending | Approved | Executed | Cancelled | Vetoed | Expired | Reversed.

Definition status_name (s : action_status) : string :=
  match s with
  | Pending => "pending" | Approved => "approved" | Executed => "executed"
  | Cancelled => "cancelled" | Vetoed => "vetoed" | Expired => "expired"
  | Reversed => "reversed"
  end.

Definition status_eqb (a b : action_status) : bool := String.eqb (status_name a) (status_name b).

Module Approval.
Record t : Type := {
  userId : string;
  approvedAt : Z;
  comment : string
}.
End Approval.

Module PendingAction.
Record t : Type := {
  _id : string;
  actionType : string;
  status : action_status;
  requestedBy : string;
  actionPayload : jvalue;
  reason : string;
  requiredApprovals : nat;
  approvals : list Approval.t;
  vetoedBy : option string;
  vetoReason : option string;
  vetoedAt : option Z;
  approvedAt : option Z;
  scheduledExecutionAt : option Z;
  expiresAt : Z;
  requestIp : option string
}.

(** The validators of the schema that [save()] runs: [actionType] and
    [reason] are [required] strings (the empty string fails), [actionPayload]
    is [required] ([null] and [undefined] fail) and [requiredApprovals] has
    [min: 1]. *)
Definition valid_doc (a : t) : bool :=
  negb (String.eqb (actionType a) "")
  && match actionPayload a with JUndefined | JNull => false | _ => true end
  && negb (String.eqb (reason a) "")
  && negb (Nat.eqb (requiredApprovals a) 0).

(** [hasQuorum()] *)
Definition hasQuorum (a : t) : bool := Nat.leb (requiredApprovals a) (length (approvals a)).

(** [isExpired()]: [new Date() > this.expiresAt] *)
Definition isExpired (now : Z) (a : t) : bool := Z.ltb (expiresAt a) now.

(** [hasUserApproved(userId)] *)
Definition hasUserApproved (a : t) (uid : string) : bool :=
  existsb (fun x => String.eqb (Approval.userId x) uid) (approvals a).

Definition set_status (s : action_status) (a : t) : t :=
  {| _id := _id a; actionType := actionType a; status := s;
     requestedBy := requestedBy a; actionPayload := actionPayload a;
     reason := reason a; requiredApprovals := requiredApprovals a;
     approvals := approvals a; vetoedBy := vetoedBy a; vetoReason := vetoReason a;
     vetoedAt := vetoedAt a; approvedAt := approvedAt a;
     scheduledExecutionAt := scheduledExecutionAt a; expiresAt := expiresAt a;
     requestIp := requestIp a |}.

Definition with_payload (p : jvalue) (a : t) : t :=
  {| _id := _id a; actionType := actionType a; status := status a;
     requestedBy := requestedBy a; actionPayload := p;
     reason := reason a; requiredApprovals := requiredApprovals a;
     approvals := approvals a; vetoedBy := vetoedBy a; vetoReason := vetoReason a;
     vetoedAt := vetoedAt a; approvedAt := approvedAt a;
     scheduledExecutionAt := scheduledExecutionAt a; expiresAt := expiresAt a;
     requestIp := requestIp a |}.

(** [approvals.push(x)] *)
Definition push_approval (x : Approval.t) (a : t) : t :=
  {| _id := _id a; actionType := actionType a; status := status a;
     requestedBy := requestedBy a; actionPayload := actionPayload a;
     reason := reason a; requiredApprovals := requiredApprovals a;
     approvals := approvals a ++ [x]; vetoedBy := vetoedBy a; vetoReason := vetoReason a;
     vetoedAt := vetoedAt a; approvedAt := approvedAt a;
     scheduledExecutionAt := scheduledExecutionAt a; expiresAt := expiresAt a;
     requestIp := requestIp a |}.

(** [status = 'approved'; approvedAt = now; scheduledExecutionAt = sched] *)
Definition mark_approved (now sched : Z) (a : t) : t :=
  {| _id := _id a; actionType := actionType a; status := Approved;
     requestedBy := requestedBy a; actionPayload := actionPayload a;
     reason := reason a; requiredApprovals := requiredApprovals a;
     approvals := approvals a; vetoedBy := vetoedBy a; vetoReason := vetoReason a;
     vetoedAt := vetoedAt a; approvedAt := Some now;
     scheduledExecutionAt := Some sched; expiresAt := expiresAt a;
     requestIp := requestIp a |}.

(** [status = 'vetoed'; vetoedBy; vetoReason; vetoedAt] *)
Definition mark_vetoed (who why : string) (now : Z) (a : t) : t :=
  {| _id := _id a; actionType := actionType a; status := Vetoed;
     requestedBy := requestedBy a; actionPayload := actionPayload a;
     reason := reason a; requiredApprovals := requiredApprovals a;
     approvals := approvals a; vetoedBy := Some who; vetoReason := Some why;
     vetoedAt := Some now; approvedAt := approvedAt a;
     scheduledExecutionAt := scheduledExecutionAt a; expiresAt := expiresAt a;
     requestIp := requestIp a |}.
End PendingAction.

(** * Identity provider and bootstrap lock *)
Module Firebase.
Record user : Type := {
  uid : string;
  email : string;
  password : string;
  displayName : string;
  claimsRole : option string
}.
End Firebase.

(** The [SystemSettings] document with [_id: 'bootstrap']. *)
Record lockdoc : Type := {
  bootstrapped : bool;
  superAdminUid : option string;
  bootstrappedAt : option Z
}.

(** * The whole persistent state *)
Record world : Type := {
  users : list User.t;
  policies : list GovernancePolicy.t;
  actions : list PendingAction.t;
  ledger : list AuditLog.entry;
  settings : option lockdoc;
  authUsers : list Firebase.user;
  nextId : nat                    (* source of fresh ObjectIds and uids *)
}.

Definition with_users (u : list User.t) (w : world) : world :=
  {| users := u; policies := policies w; actions := actions w; ledger := ledger w;
     settings := settings w; authUsers := authUsers w; nextId := nextId w |}.
Definition with_policies (p : list GovernancePolicy.t) (w : world) : world :=
  {| users := users w; policies := p; actions := actions w; ledger := ledger w;
     settings := settings w; authUsers := authUsers w; nextId := nextId w |}.
Definition with_actions (a : list PendingAction.t) (w : world) : world :=
  {| users := users w; policies := policies w; actions := a; ledger := ledger w;
     settings := settings w; authUsers := authUsers w; nextId := nextId w |}.
Definition with_ledger (l : list AuditLog.entry) (w : world) : world :=
  {| users := users w; policies := policies w; actions := actions w; ledger := l;
     settings := settings w; authUsers := authUsers w; nextId := nextId w |}.
Definition with_settings (s : option lockdoc) (w : world) : world :=
  {| users := users w; policies := policies w; actions := actions w; ledger := ledger w;
     settings := s; authUsers := authUsers w; nextId := nextId w |}.
Definition with_authUsers (f : list Firebase.user) (w : world) : world :=
  {| users := users w; policies := policies w; actions := actions w; ledger := ledger w;
     settings := settings w; authUsers := f; nextId := nextId w |}.
Definition bump_id (w : world) : world :=
  {| users := users w; policies := policies w; actions := actions w; ledger := ledger w;
     settings := settings w; authUsers := authUsers w; nextId := S (nextId w) |}.

Fixpoint hex_digits (fuel n : nat) (acc : string) : string :=
  match fuel with
  | O => acc
  | S f =>
      let d := n mod 16 in
      let acc' := String (ascii_of_nat (if Nat.ltb d 10 then 48 + d else 87 + d)) acc in
      if Nat.ltb n 16 then acc' else hex_digits f (n / 16) acc'
  end.

Fixpoint zeros (k : nat) : string :=
  match k with O => "" | S k' => String "0" (zeros k') end.

(** A fresh ObjectId, 24 lowercase hex digits. *)
Definition oid (n : nat) : string :=
  let h := hex_digits (S n) n "" in zeros (24 - String.length h) ++ h.

(** A fresh identity-provider uid. *)
Definition fresh_uid (n : nat) : string := "uid" ++ string_of_nat n.

(** * A state and error monad for the [async] workflow functions *)
Definition M (A : Type) : Type := world -> result gov_error A * world.

Definition ret {A} (a : A) : M A := fun w => (Ok a, w).
Definition bind {A B} (m : M A) (k : A -> M B) : M B :=
  fun w => match m w with
           | (Ok a, w') => k a w'
           | (Err e, w') => (Err e, w')
           end.
Definition throw {A} (e : gov_error) : M A := fun w => (Err e, w).
Definition gets {A} (f : world -> A) : M A := fun w => (Ok (f w), w).
Definition modify (f : world -> world) : M unit := fun w => (Ok tt, f w).
Definition lift {A} (r : result gov_error A) : M A := fun w => (r, w).

Notation "x <- m ;; k" := (bind m (fun x => k))
  (at level 61, m at next level, right associativity).
Notation "m ;; k" := (bind m (fun _ => k))
  (at level 61, right associativity).

(** * Pending-action workflow (utils/governance.js section 4) *)

Definition PENDING_ACTION_EXPIRY_MS : Z := 86400000.

Definition ADMIN_ACTION_TYPES : list string :=
  ["DELETE_ADMIN"; "DEMOTE_ADMIN"; "DEACTIVATE_ADMIN"].

Definition is_admin_action (t : string) : bool := existsb (String.eqb t) ADMIN_ACTION_TYPES.

Definition includes (l : list string) (x : string) : bool := existsb (String.eqb x) l.

(** [GovernancePolicy.findOne({ actionType, enabled: true })] *)
Definition getPolicy (w : world) (t : string) : option GovernancePolicy.t :=
  find (fun p => String.eqb (GovernancePolicy.actionType p) t && GovernancePolicy.enabled p)
       (policies w).

(** [PendingAction.findById(id)] *)
Definition findAction (w : world) (id : string) : option PendingAction.t :=
  find (fun a => String.eqb (PendingAction._id a) id) (actions w).

(** [pendingAction.save()] on a document read from the store. *)
Definition save_action (a : PendingAction.t) (w : world) : world :=
  with_actions (map (fun x => if String.eqb (PendingAction._id x) (PendingAction._id a)
                              then a else x) (actions w)) w.

(** [await pendingAction.save()]: validation first, then the write. *)
Definition save_doc (a : PendingAction.t) : M unit :=
  if PendingAction.valid_doc a then modify (save_action a) else throw ValidationError.

Section Workflow.
Context `{Runtime}.

(** [await appendAuditLog(action, 'GOVERNANCE', details, ip, userId)]; its
    result is not used by any caller. *)
Definition audit (f : fault) (act : string) (det : jvalue) (ip : option string)
    (userId : option string) (now : Z) (w : world) : world :=
  with_ledger (snd (AuditLog.appendAuditLog f act "GOVERNANCE" det ip userId None now
                      (ledger w))) w.

(** The lockout gate shared by create and approve. *)
Definition lockout_gate (actionType : string) (payload : jvalue) : M unit :=
  if is_admin_action actionType then
    tid <- lift (read_field payload "targetUserId") ;;
    s <- (fun w => (checkAdminCountSafety (users w) tid, w)) ;;
    if safe s then ret tt else throw LockoutViolation
  else ret tt.

(** [createPendingAction(actionType, requestorId, payload, reason, ip)] *)
Definition createPendingAction (f : fault) (actionType requestorId : string)
    (payload : jvalue) (reason : string) (ip : option string) (now : Z)
    : M PendingAction.t :=
  policy <- gets (fun w => getPolicy w actionType) ;;
  match policy with
  | None => throw PolicyNotFound
  | Some policy =>
      requestor <- gets (fun w => findUser (users w) requestorId) ;;
      match requestor with
      | Some r => if includes (GovernancePolicy.allowedRequestors policy) (User.role r)
                  then ret tt else throw PermissionDenied
      | None => throw PermissionDenied
      end ;;
      lockout_gate actionType payload ;;
      id <- gets (fun w => oid (nextId w)) ;;
      let pa := {| PendingAction._id := id;
                   PendingAction.actionType := actionType;
                   PendingAction.status := Pending;
                   PendingAction.requestedBy := requestorId;
                   PendingAction.actionPayload := payload;
                   PendingAction.reason := reason;
                   PendingAction.requiredApprovals := GovernancePolicy.requiredApprovals policy;
                   PendingAction.approvals := [];
                   PendingAction.vetoedBy := None;
                   PendingAction.vetoReason := None;
                   PendingAction.vetoedAt := None;
                   PendingAction.approvedAt := None;
                   PendingAction.scheduledExecutionAt := None;
                   PendingAction.expiresAt := (now + PENDING_ACTION_EXPIRY_MS)%Z;
                   PendingAction.requestIp := ip |} in
      (* [PendingAction.create]: the in-memory document is validated, then
         saved with its payload as stored. *)
      if negb (PendingAction.valid_doc pa) then throw ValidationError
      else
      modify (fun w => bump_id (with_actions
                                  (actions w ++ [PendingAction.with_payload (stored payload) pa])
                                  w)) ;;
      modify (audit f "PENDING_ACTION_CREATED"
                (JObj [("actionType", JStr actionType); ("actionId", JStr id);
                       ("reason", JStr reason); ("payload", payload)])
                ip (Some requestorId) now) ;;
      ret pa
  end.

(** [approvePendingAction(actionId, approverId, comment, ip)]; the route
    passes [comment || ''], a string. *)
Definition approvePendingAction (f : fault) (actionId approverId comment : string)
    (ip : option string) (now : Z) : M PendingAction.t :=
  found <- gets (fun w => findAction w actionId) ;;
  match found with
  | None => throw ActionNotFound
  | Some pa =>
      if negb (status_eqb (PendingAction.status pa) Pending) then
        throw (InvalidStatus (status_name (PendingAction.status pa)))
      else if PendingAction.isExpired now pa then
        save_doc (PendingAction.set_status Expired pa) ;;
        throw ActionExpired
      else
      policy <- gets (fun w => getPolicy w (PendingAction.actionType pa)) ;;
      match policy with
      | None => throw PolicyNotFound
      | Some policy =>
          approver <- gets (fun w => findUser (users w) approverId) ;;
          match approver with
          | Some u => if includes (GovernancePolicy.allowedApprovers policy) (User.role u)
                      then ret tt else throw PermissionDenied
          | None => throw PermissionDenied
          end ;;
          if negb (GovernancePolicy.selfApprovalAllowed policy)
             && String.eqb (PendingAction.requestedBy pa) approverId
          then throw SelfApproval
          else if PendingAction.hasUserApproved pa approverId then throw DuplicateApproval
          else
          lockout_gate (PendingAction.actionType pa) (PendingAction.actionPayload pa) ;;
          let pa1 := PendingAction.push_approval
                       {| Approval.userId := approverId; Approval.approvedAt := now;
                          Approval.comment := comment |} pa in
          let pa2 := if PendingAction.hasQuorum pa1
                     then PendingAction.mark_approved now
                            (now + Z.of_nat (GovernancePolicy.executionDelaySecs policy) * 1000)%Z
                            pa1
                     else pa1 in
          save_doc pa2 ;;
          modify (audit f "PENDING_ACTION_APPROVED"
                    (JObj [("actionId", JStr (PendingAction._id pa2));
                           ("actionType", JStr (PendingAction.actionType pa2));
                           ("approver", JStr approverId);
                           ("totalApprovals", JNum (Z.of_nat (length (PendingAction.approvals pa2))));
                           ("quorumReached", JBool (PendingAction.hasQuorum pa2));
                           ("comment", JStr comment)])
                    ip (Some approverId) now) ;;
          ret pa2
      end
  end.

(** [vetoPendingAction(actionId, vetoerId, reason, ip)] *)
Definition vetoPendingAction (f : fault) (actionId vetoerId reason : string)
    (ip : option string) (now : Z) : M PendingAction.t :=
  found <- gets (fun w => findAction w actionId) ;;
  match found with
  | None => throw ActionNotFound
  | Some pa =>
      let st := PendingAction.status pa in
      if negb (status_eqb st Pending || status_eqb st Approved) then
        throw (InvalidStatus (status_name st))
      else
      match st, PendingAction.scheduledExecutionAt pa with
      | Approved, Some t => if Z.leb t now then throw DelayPassed else ret tt
      | _, _ => ret tt
      end ;;
      vetoer <- gets (fun w => findUser (users w) vetoerId) ;;
      match vetoer with
      | Some u => if String.eqb (User.role u) "admin" then ret tt else throw NotAdmin
      | None => throw NotAdmin
      end ;;
      let pa' := PendingAction.mark_vetoed vetoerId reason now pa in
      save_doc pa' ;;
      modify (audit f "PENDING_ACTION_VETOED"
                (JObj [("actionId", JStr (PendingAction._id pa'));
                       ("actionType", JStr (PendingAction.actionType pa'));
                       ("vetoer", JStr vetoerId); ("reason", JStr reason)])
                ip (Some vetoerId) now) ;;
      ret pa'
  end.

(** [cancelPendingAction(actionId, userId, ip)] *)
Definition cancelPendingAction (f : fault) (actionId userId : string)
    (ip : option string) (now : Z) : M PendingAction.t :=
  found <- gets (fun w => findAction w actionId) ;;
  match found with
  | None => throw ActionNotFound
  | Some pa =>
      if negb (status_eqb (PendingAction.status pa) Pending) then
        throw (InvalidStatus (status_name (PendingAction.status pa)))
      else if negb (String.eqb (PendingAction.requestedBy pa) userId) then throw NotRequestor
      else
      let pa' := PendingAction.set_status Cancelled pa in
      save_doc pa' ;;
      modify (audit f "PENDING_ACTION_CANCELLED"
                (JObj [("actionId", JStr (PendingAction._id pa'));
                       ("actionType", JStr (PendingAction.actionType pa'))])
                ip (Some userId) now) ;;
      ret pa'
  end.

End Workflow.

(** * Default policies and their seeding (utils/governance.js section 2) *)

Definition default_policy (t d : string) (n : nat) (self : bool) (delay rev : nat)
    : GovernancePolicy.t :=
  {| GovernancePolicy.actionType := t; GovernancePolicy.description := d;
     GovernancePolicy.requiredApprovals := n;
     GovernancePolicy.allowedRequestors := ["admin"];
     GovernancePolicy.allowedApprovers := ["admin"];
     GovernancePolicy.selfApprovalAllowed := self;
     GovernancePolicy.executionDelaySecs := delay;
     GovernancePolicy.reversibilityWindowSecs := rev;
     GovernancePolicy.isSystemDefault := true;
     GovernancePolicy.enabled := true |}.

Definition DEFAULT_POLICIES : list GovernancePolicy.t := [
  default_policy "DELETE_ADMIN" "Delete an administrator account" 2 false 300 3600;
  default_policy "DEMOTE_ADMIN" "Demote an administrator to engineer" 2 false 300 3600;
  default_policy "DEACTIVATE_ADMIN" "Deactivate an administrator account" 2 false 300 3600;
  default_policy "MODIFY_POLICY" "Modify a governance policy (self-referential protection)"
    2 false 600 7200;
  default_policy "SYSTEM_RECOVERY"
    "Emergency system recovery — create new admin when all are disabled" 1 true 600 3600;
  default_policy "DISABLE_AUDIT" "Disable or modify audit logging configuration"
    2 false 900 0
].

(** [findOneAndUpdate({ actionType }, { $setOnInsert: policy }, { upsert: true })] *)
Definition upsert_policy (p : GovernancePolicy.t) (ps : list GovernancePolicy.t)
    : list GovernancePolicy.t :=
  if existsb (fun q => String.eqb (GovernancePolicy.actionType q)
                                  (GovernancePolicy.actionType p)) ps
  then ps else ps ++ [p].

(** [seedDefaultPolicies()] *)
Definition seedDefaultPolicies (w : world) : world :=
  with_policies (fold_left (fun ps p => upsert_policy p ps) DEFAULT_POLICIES (policies w)) w.

(** * Bootstrap and recovery routes (routes/governance.js) *)

(** [isSystemBootstrapped()] *)
Definition isSystemBootstrapped (w : world) : bool :=
  match settings w with Some d => bootstrapped d | None => false end.

Definition jopt (o : option string) : jvalue :=
  match o with Some s => JStr s | None => JUndefined end.

(** The identity provider's email check: some characters, one [@], some
    characters ([/^[^@]+@[^@]+$/]). *)
Definition is_email (e : string) : bool :=
  let fix at_count (s : string) : nat :=
    match s with
    | EmptyString => 0
    | String c r => (if Ascii.eqb c "@"%char then 1 else 0) + at_count r
    end in
  let fix before_at (s : string) : nat :=
    match s with
    | EmptyString => 0
    | String c r => if Ascii.eqb c "@"%char then 0 else S (before_at r)
    end in
  Nat.eqb (at_count e) 1
  && Nat.ltb 0 (before_at e)
  && Nat.ltb (S (before_at e)) (String.length e).

(** [resolveFirebaseUser(email, password, name)]: look the identity up by
    email and create it only when it is absent. The provider rejects a
    malformed email ([auth/invalid-email], an error other than
    [auth/user-not-found], so it is re-thrown), compares emails without
    regard to case and stores them in lower case; [createUser] rejects a
    password shorter than 6 characters. *)
Definition resolveFirebaseUser (email password name : option string) (w : world)
    : result string (Firebase.user * world) :=
  match email with
  | None => Err "auth/invalid-email"
  | Some e =>
      if negb (is_email e) then Err "auth/invalid-email" else
      match find (fun u => String.eqb (lower (Firebase.email u)) (lower e)) (authUsers w) with
      | Some u => Ok (u, w)
      | None =>
          let pw := or_empty password in
          if Nat.ltb (String.length pw) 6 then Err "auth/invalid-password"
          else
            let u := {| Firebase.uid := fresh_uid (nextId w); Firebase.email := lower e;
                        Firebase.password := pw; Firebase.displayName := or_empty name;
                        Firebase.claimsRole := None |} in
            Ok (u, bump_id (with_authUsers (authUsers w ++ [u]) w))
      end
  end.

(** [admin.auth().setCustomUserClaims(uid, { role: 'admin' })] *)
Definition setCustomUserClaims (uid : string) (w : world) : world :=
  with_authUsers
    (map (fun u => if String.eqb (Firebase.uid u) uid then
                     {| Firebase.uid := Firebase.uid u; Firebase.email := Firebase.email u;
                        Firebase.password := Firebase.password u;
                        Firebase.displayName := Firebase.displayName u;
                        Firebase.claimsRole := Some "admin" |}
                   else u) (authUsers w)) w.

(** The update of [findOneAndUpdate]: the first matching document. *)
Fixpoint replace_first {A} (p : A -> bool) (x : A) (l : list A) : list A :=
  match l with
  | [] => []
  | y :: r => if p y then x :: r else y :: replace_first p x r
  end.

(** [User.findOneAndUpdate({ firebaseUid }, { $set: { email, name, role:
    'admin', status: 'active' }, $setOnInsert: { firebaseUid } },
    { upsert: true, new: true })] *)
Definition upsert_admin (uid : string) (email name : option string) (w : world)
    : User.t * world :=
  let admin_of (id : string) :=
    {| User._id := id; User.firebaseUid := Some uid; User.email := email;
       User.name := name; User.role := "admin"; User.status := "active" |} in
  let matches u := match User.firebaseUid u with
                   | Some x => String.eqb x uid | None => false end in
  match find matches (users w) with
  | Some old =>
      let u := admin_of (User._id old) in
      (u, with_users (replace_first matches u (users w)) w)
  | None =>
      let u := admin_of (oid (nextId w)) in
      (u, bump_id (with_users (users w ++ [u]) w))
  end.

(** Points at which the process may die during a bootstrap request. *)
Inductive crash_point : Type :=
| NoCrash
| CrashAfterIdentity
| CrashAfterClaims
| CrashAfterLocalRecord
| CrashAfterLock.

Definition crash_eqb (a b : crash_point) : bool :=
  match a, b with
  | NoCrash, NoCrash | CrashAfterIdentity, CrashAfterIdentity
  | CrashAfterClaims, CrashAfterClaims | CrashAfterLocalRecord, CrashAfterLocalRecord
  | CrashAfterLock, CrashAfterLock => true
  | _, _ => false
  end.

Section Routes.
Context `{Runtime}.

(** [POST /bootstrap-admin]: the HTTP status sent, or [None] when the
    process died before answering. *)
Definition bootstrapAdmin (f : fault) (cp : crash_point) (email password name : option string)
    (ip : option string) (now : Z) (w : world) : option nat * world :=
  if isSystemBootstrapped w then
    (Some 409, audit f "BOOTSTRAP_BLOCKED"
                 (JObj [("reason", JStr "System already bootstrapped"); ("email", jopt email)])
                 ip None now w)
  else if String.eqb (or_empty email) "" || String.eqb (or_empty password) ""
          || String.eqb (or_empty name) "" then (Some 400, w)
  else
    match resolveFirebaseUser email password name w with
    | Err msg =>
        (Some 400, audit f "BOOTSTRAP_ERROR"
                     (JObj [("error", JStr msg); ("email", jopt email)]) ip None now w)
    | Ok (fu, w1) =>
        if crash_eqb cp CrashAfterIdentity then (None, w1) else
        let w2 := setCustomUserClaims (Firebase.uid fu) w1 in
        if crash_eqb cp CrashAfterClaims then (None, w2) else
        let (adminUser, w3) := upsert_admin (Firebase.uid fu) email name w2 in
        if crash_eqb cp CrashAfterLocalRecord then (None, w3) else
        let w4 := with_settings (Some {| bootstrapped := true;
                                          superAdminUid := Some (Firebase.uid fu);
                                          bootstrappedAt := Some now |}) w3 in
        if crash_eqb cp CrashAfterLock then (None, w4) else
        let w5 := seedDefaultPolicies w4 in
        (Some 201, audit f "BOOTSTRAP_SUCCESS"
                     (JObj [("adminId", JStr (User._id adminUser)); ("email", jopt email)])
                     ip (Some (User._id adminUser)) now w5)
    end.

(** [POST /admin-recovery]; [configured] is [ADMIN_RECOVERY_TOKEN]. *)
Definition adminRecovery (f : fault) (configured : option string)
    (recoveryToken email password name : option string) (ip : option string) (now : Z)
    (w : world) : option nat * world :=
  match configured with
  | None => (Some 503, w)
  | Some tok =>
      if negb (match recoveryToken with Some t => String.eqb t tok | None => false end) then
        (Some 401, audit f "RECOVERY_DENIED"
                     (JObj [("email", jopt email); ("reason", JStr "Invalid recovery token")])
                     ip None now w)
      else
        match resolveFirebaseUser email password name w with
        | Err msg =>
            (Some 400, audit f "RECOVERY_ERROR"
                         (JObj [("error", JStr msg); ("email", jopt email)]) ip None now w)
        | Ok (fu, w1) =>
            let w2 := setCustomUserClaims (Firebase.uid fu) w1 in
            let (adminUser, w3) := upsert_admin (Firebase.uid fu) email name w2 in
            (Some 201, audit f "RECOVERY_SUCCESS"
                         (JObj [("adminId", JStr (User._id adminUser)); ("email", jopt email)])
                         ip (Some (User._id adminUser)) now w3)
        end
  end.

(** The governance operations, as one request each. *)
Inductive op : Type :=
| OpCreate (actionType requestorId : string) (payload : jvalue) (reason : string)
           (ip : option string)
| OpApprove (actionId approverId comment : string) (ip : option string)
| OpVeto (actionId vetoerId reason : string) (ip : option string)
| OpCancel (actionId userId : string) (ip : option string)
| OpBootstrap (email password name : option string) (ip : option string)
| OpRecovery (configured recoveryToken email password name : option string)
             (ip : option string).

Inductive response : Type :=
| RAction (r : result gov_error PendingAction.t)
| RHttp (code : option nat).

(** One request at time [now]; [f] says whether its audit write fails.
    These are the requests of routes/governance.js; the user-management
    routes of routes/auth.js are not among them. *)
Definition run_op (f : fault) (now : Z) (o : op) (w : world) : response * world :=
  match o with
  | OpCreate t r p why ip =>
      let (x, w') := createPendingAction f t r p why ip now w in (RAction x, w')
  | OpApprove a u c ip =>
      let (x, w') := approvePendingAction f a u c ip now w in (RAction x, w')
  | OpVeto a u why ip =>
      let (x, w') := vetoPendingAction f a u why ip now w in (RAction x, w')
  | OpCancel a u ip =>
      let (x, w') := cancelPendingAction f a u ip now w in (RAction x, w')
  | OpBootstrap e p n ip =>
      let (x, w') := bootstrapAdmin f NoCrash e p n ip now w in (RHttp x, w')
  | OpRecovery c t e p n ip =>
      let (x, w') := adminRecovery f c t e p n ip now w in (RHttp x, w')
  end.

End Routes.

(** * The other handlers of routes/governance.js *)

(** [s.split(',')[0]] *)
Fixpoint first_segment (s : string) : string :=
  match s with
  | EmptyString => EmptyString
  | String c r => if Ascii.eqb c "," then EmptyString else String c (first_segment r)
  end.

(** [getClientIp(req)]: [req.headers['x-forwarded-for']?.split(',')[0] ||
    req.socket?.remoteAddress || 'unknown'], each input possibly absent. *)
Definition getClientIp (xff remoteAddress : option string) : string :=
  let a := match xff with Some h => first_segment h | None => "" end in
  if negb (String.eqb a "") then a
  else if negb (String.eqb (or_empty remoteAddress) "") then or_empty remoteAddress
  else "unknown".

(** [GET /status]: [{ bootstrapped, initialized }]. *)
Definition governanceStatus (w : world) : bool * bool :=
  let bootstrapped := isSystemBootstrapped w in (bootstrapped, bootstrapped).

(** The body of [GET /admin-safety]. *)
Record admin_safety_report : Type := {
  activeAdminCount : nat;
  minimumRequired : Z;
  safetyMargin : Z;
  isAtMinimum : bool
}.

Definition adminSafety (us : list User.t) : admin_safety_report :=
  let c := countActiveAdmins us in
  {| activeAdminCount := c; minimumRequired := MIN_ACTIVE_ADMINS;
     safetyMargin := (Z.of_nat c - MIN_ACTIVE_ADMINS)%Z;
     isAtMinimum := Z.leb (Z.of_nat c) MIN_ACTIVE_ADMINS |}.

(** [parseInt(s)] with no radix, on ASCII text: leading white space is
    skipped, one sign is read, a [0x]/[0X] prefix selects radix 16, and the
    longest run of digits of the radix is read; [None] is [NaN]. Values are
    exact integers ([-0] is [0]). *)
Definition is_js_space (c : ascii) : bool :=
  let n := nat_of_ascii c in in_range 9 13 n || Nat.eqb n 32.

Fixpoint trim_start (s : string) : string :=
  match s with
  | String c r => if is_js_space c then trim_start r else s
  | EmptyString => EmptyString
  end.

Definition digit_val (c : ascii) : nat :=
  let n := nat_of_ascii c in
  if in_range 48 57 n then n - 48
  else if in_range 97 122 n then n - 87
  else if in_range 65 90 n then n - 55
  else 99.

Fixpoint take_digits (radix : nat) (s : string) : list nat :=
  match s with
  | String c r => if Nat.ltb (digit_val c) radix then digit_val c :: take_digits radix r else []
  | EmptyString => []
  end.

Definition digits_value (radix : nat) (ds : list nat) : Z :=
  fold_left (fun acc d => acc * Z.of_nat radix + Z.of_nat d)%Z ds 0%Z.

Definition parseInt (s : string) : option Z :=
  let s1 := trim_start s in
  let '(sign, s2) :=
    match s1 with
    | String c r =>
        if Ascii.eqb c "-" then ((-1)%Z, r) else if Ascii.eqb c "+" then (1%Z, r) else (1%Z, s1)
    | EmptyString => (1%Z, s1)
    end in
  let '(radix, s3) :=
    match s2 with
    | String "0" (String c r) =>
        if Ascii.eqb c "x" || Ascii.eqb c "X" then (16, r) else (10, s2)
    | _ => (10, s2)
    end in
  match take_digits radix s3 with
  | [] => None
  | ds => Some (sign * digits_value radix ds)%Z
  end.

(** [Math.min(parseInt(req.query.limit) || 1000, 10000)] in
    [GET /audit/verify], for an absent or single-valued query parameter
    ([parseInt(undefined)] is [NaN]). *)
Definition auditVerifyLimit (q : option string) : Z :=
  let n := match q with Some s => parseInt s | None => None end in
  let n' := match n with
            | Some z => if Z.eqb z 0 then 1000%Z else z
            | None => 1000%Z
            end in
  Z.min n' 10000.

(** [PendingAction.updateMany({ status: 'pending', expiresAt: { $lt: now } }, ...)] *)
Definition stale (now : Z) (a : PendingAction.t) : bool :=
  status_eqb (PendingAction.status a) Pending && Z.ltb (PendingAction.expiresAt a) now.

(** [expireStaleActions()]: every stale action gets [status: 'expired']
    ([updatedAt] is not modelled); the result is [modifiedCount]. *)
Definition expireStaleActions (now : Z) (w : world) : nat * world :=
  (length (filter (stale now) (actions w)),
   with_actions (map (fun a => if stale now a then PendingAction.set_status Expired a else a)
                     (actions w)) w).

Section Listing.

(** [.sort({ createdAt: -1 })]: [createdAt] is not a modelled field, so the
    order is a parameter. *)
Variable sort_by_createdAt_desc : list PendingAction.t -> list PendingAction.t.

(** [GET /pending-actions]: expire stale actions, then list those with
    status [pending] or [approved]. *)
Definition listPendingActions (now : Z) (w : world) : list PendingAction.t * world :=
  let (_, w1) := expireStaleActions now w in
  (sort_by_createdAt_desc
     (filter (fun a => includes ["pending"; "approved"] (status_name (PendingAction.status a)))
             (actions w1)), w1).

End Listing.

(** The message of [POST /pending-actions/:id/approve]. *)
Inductive approve_message : Type :=
| QuorumReachedMessage   (* Action approved - quorum reached. Scheduled for execution. *)
| ApprovalRecordedMessage. (* Approval recorded. Waiting for more approvals. *)

Section MoreRoutes.
Context `{Runtime}.

(** [POST /pending-actions] past [verifyToken] and [isAdmin]: [me] is
    [req.user._id]; [actionType] and [reason] are string fields of the body
    (or absent). The HTTP status. *)
Definition createRoute (f : fault) (me : string) (actionType : option string)
    (payload : jvalue) (reason : option string) (ip : option string) (now : Z)
    (w : world) : nat * world :=
  if String.eqb (or_empty actionType) "" || negb (truthy payload)
     || String.eqb (or_empty reason) "" then (400, w)
  else
    match createPendingAction f (or_empty actionType) me payload (or_empty reason) ip now w with
    | (Ok _, w') => (201, w')
    | (Err _, w') => (400, w')
    end.

(** [POST /pending-actions/:id/approve] past [verifyToken] and [isAdmin];
    [comment] is a string field of the body (or absent). *)
Definition approveRoute (f : fault) (id me : string) (comment : option string)
    (ip : option string) (now : Z) (w : world)
    : nat * option (approve_message * PendingAction.t) * world :=
  match approvePendingAction f id me (or_empty comment) ip now w with
  | (Ok a, w') =>
      (200, Some (if PendingAction.hasQuorum a then QuorumReachedMessage
                  else ApprovalRecordedMessage, a), w')
  | (Err _, w') => (400, None, w')
  end.

End MoreRoutes.

(** * Vocabulary of the properties *)

Module Ledger.
Import AuditLog.

(** One [appendAuditLog] call: its arguments, the clock and the store fault. *)
Record append_call : Type := {
  c_fault : fault;
  c_action : string;
  c_resource : string;
  c_details : jvalue;
  c_ip : option string;
  c_user : option string;
  c_resourceId : option string;
  c_now : Z
}.

Section Vocab.
Context `{Runtime}.

(** The ledger left by a sequence of [appendAuditLog] calls. *)
Definition run_appends (cs : list append_call) (l : list entry) : list entry :=
  fold_left (fun l c => snd (appendAuditLog (c_fault c) (c_action c) (c_resource c)
                               (c_details c) (c_ip c) (c_user c) (c_resourceId c)
                               (c_now c) l)) cs l.


End Vocab.


(** Saving leaves the JSON text of [details || {}], the part of the entry
    that [computeHash] reads from [details], unchanged. *)
Definition details_stable (d : jvalue) : Prop :=
  json_text (or_empty_object (stored d)) = json_text (or_empty_object d).

(** A direct write to one field of a stored entry. *)
Inductive mutation : Type :=
| SetAction (a : string)
| SetDetails (d : jvalue).

Definition mutate (m : mutation) (e : entry) : entry :=
  match m with
  | SetAction a =>
      {| user := user e; action := a; resource := resource e; resourceId := resourceId e;
         details := details e; ip := ip e; previousHash := previousHash e;
         entryHash := entryHash e; sequenceNumber := sequenceNumber e;
         createdAt := createdAt e |}
  | SetDetails d =>
      {| user := user e; action := action e; resource := resource e;
         resourceId := resourceId e; details := d; ip := ip e;
         previousHash := previousHash e; entryHash := entryHash e;
         sequenceNumber := sequenceNumber e; createdAt := createdAt e |}
  end.

(** The mutation changes the text that [computeHash] digests for that field. *)
Definition changes_hash_input (m : mutation) (e : entry) : Prop :=
  match m with
  | SetAction a => a <> action e
  | SetDetails d => json_text (or_empty_object d) <> json_text (or_empty_object (details e))
  end.


Section Claimed.
Context `{Runtime}.

(** The hash input as the specification words it: JSON of [details]
    itself, with no default. *)
Definition claimed_hash_input (e : entry) : string :=
  String.concat "|" [
    previousHash e; action e; resource e; or_empty (resourceId e);
    user_or_system (user e); json_text (details e); or_empty (ip e);
    toISOString (createdAt e); string_of_nat (sequenceNumber e)
  ].
End Claimed.

End Ledger.

(** The state with the ledger blanked: what a governance operation decides
    besides its audit write. *)
Definition strip (w : world) : world := with_ledger [] w.

(** The approver check of [approvePendingAction]. *)
Definition approver_permitted (w : world) (p : GovernancePolicy.t) (u : string) : bool :=
  match findUser (users w) u with
  | Some usr => includes (GovernancePolicy.allowedApprovers p) (User.role usr)
  | None => false
  end.

(** The document [approvePendingAction] saves after the approval of [u]. *)
Definition approved_record (p : GovernancePolicy.t) (pa : PendingAction.t) (u c : string)
    (now : Z) : PendingAction.t :=
  let pa1 := PendingAction.push_approval
               {| Approval.userId := u; Approval.approvedAt := now; Approval.comment := c |} pa in
  if PendingAction.hasQuorum pa1
  then PendingAction.mark_approved now
         (now + Z.of_nat (GovernancePolicy.executionDelaySecs p) * 1000)%Z pa1
  else pa1.

(** The details of the [PENDING_ACTION_APPROVED] audit entry. *)
Definition approved_details (pa2 : PendingAction.t) (u c : string) : jvalue :=
  JObj [("actionId", JStr (PendingAction._id pa2));
        ("actionType", JStr (PendingAction.actionType pa2));
        ("approver", JStr u);
        ("totalApprovals", JNum (Z.of_nat (length (PendingAction.approvals pa2))));
        ("quorumReached", JBool (PendingAction.hasQuorum pa2));
        ("comment", JStr c)].

(** What [approvePendingAction] reads from a policy. *)
Definition approval_view (p : GovernancePolicy.t) : list string * bool * nat :=
  (GovernancePolicy.allowedApprovers p, GovernancePolicy.selfApprovalAllowed p,
   GovernancePolicy.executionDelaySecs p).

(** Local accounts with role [admin], whatever their status. *)
Definition count_admins (us : list User.t) : nat :=
  length (filter (fun u => String.eqb (User.role u) "admin") us).

(** An identity after [setCustomUserClaims(uid, { role: 'admin' })]. *)
Definition with_admin_claim (u : Firebase.user) : Firebase.user :=
  {| Firebase.uid := Firebase.uid u; Firebase.email := Firebase.email u;
     Firebase.password := Firebase.password u; Firebase.displayName := Firebase.displayName u;
     Firebase.claimsRole := Some "admin" |}.

(** Each entry links to the hash before it and passes [verifyIntegrity]. *)
Fixpoint links_from `{Runtime} (prev : string) (es : list AuditLog.entry) : Prop :=
  match es with
  | [] => True
  | e :: r =>
      AuditLog.previousHash e = prev /\ AuditLog.verifyIntegrity e = true
      /\ links_from (AuditLog.entryHash e) r
  end.

(** A sequence of requests, each with its audit fault and its clock. *)
Definition run_ops `{Runtime} (reqs : list (fault * Z * op)) (w : world) : world :=
  fold_left (fun w r => let '(f, now, o) := r in snd (run_op f now o w)) reqs w.

(** Requests of the approval workflow (create, approve, veto, cancel). *)
Definition is_workflow (o : op) : bool :=
  match o with
  | OpCreate _ _ _ _ _ | OpApprove _ _ _ _ | OpVeto _ _ _ _ | OpCancel _ _ _ => true
  | _ => false
  end.

(** The pending action a workflow request names ([None] for create). *)
Definition op_target (o : op) : option string :=
  match o with
  | OpApprove a _ _ _ | OpVeto a _ _ _ | OpCancel a _ _ => Some a
  | _ => None
  end.

(** The approver ids of an action. *)
Definition approval_ids (a : PendingAction.t) : list string :=
  map Approval.userId (PendingAction.approvals a).

(** What the workflow keeps true of each stored action. *)
Definition action_ok (a : PendingAction.t) : Prop :=
  NoDup (approval_ids a)
  /\ 1 <= PendingAction.requiredApprovals a
  /\ (PendingAction.status a = Pending ->
      length (PendingAction.approvals a) < PendingAction.requiredApprovals a)
  /\ (PendingAction.status a = Approved ->
      PendingAction.requiredApprovals a <= length (PendingAction.approvals a))
  /\ PendingAction.status a <> Executed /\ PendingAction.status a <> Reversed.

(** The identity-provider uids the local accounts are linked to. *)
Definition linked_uids (us : list User.t) : list string :=
  flat_map (fun u => match User.firebaseUid u with Some x => [x] | None => [] end) us.

(** Actions whose status is [expired]. *)
Definition is_expired_status (a : PendingAction.t) : bool :=
  status_eqb (PendingAction.status a) Expired.

(** * Concrete inputs for witnesses and counterexamples *)
Module Demo.

(** A collision-free stand-in digest, a decimal clock rendering, and a
    query engine that knows one operator object, [{ $ne: null }], which
    every document matches. *)
#[export] Instance runtime : Runtime := {|
  sha256hex := fun s => "#" ++ s;
  toISOString := string_of_Z;
  idOperatorMatch := fun ops =>
    match ops with
    | [(k, JNull)] => if String.eqb k "$ne" then Ok (fun _ => true) else Err CastError
    | _ => Err CastError
    end
|}.

Definition account (i : nat) (r st : string) : User.t :=
  {| User._id := oid i; User.firebaseUid := None; User.email := None;
     User.name := None; User.role := r; User.status := st |}.

Definition world_of (us : list User.t) (ps : list GovernancePolicy.t)
    (acts : list PendingAction.t) : world :=
  {| users := us; policies := ps; actions := acts; ledger := []; settings := None;
     authUsers := []; nextId := 100 |}.

(** A pending action on [oid 50], requested by [oid req]. *)
Definition pending (t : string) (req : nat) (payload : jvalue) (n : nat)
    (apps : list Approval.t) (exp : Z) : PendingAction.t :=
  {| PendingAction._id := oid 50; PendingAction.actionType := t;
     PendingAction.status := Pending; PendingAction.requestedBy := oid req;
     PendingAction.actionPayload := payload; PendingAction.reason := "r";
     PendingAction.requiredApprovals := n; PendingAction.approvals := apps;
     PendingAction.vetoedBy := None; PendingAction.vetoReason := None;
     PendingAction.vetoedAt := None; PendingAction.approvedAt := None;
     PendingAction.scheduledExecutionAt := None; PendingAction.expiresAt := exp;
     PendingAction.requestIp := None |}.

Definition target (i : nat) : jvalue := JObj [("targetUserId", JStr (oid i))].

Definition call (a : string) (d : jvalue) (t : Z) : Ledger.append_call :=
  {| Ledger.c_fault := NoFault; Ledger.c_action := a; Ledger.c_resource := "GOVERNANCE";
     Ledger.c_details := d; Ledger.c_ip := Some "10.0.0.1"; Ledger.c_user := None;
     Ledger.c_resourceId := None; Ledger.c_now := t |}.

Definition W1 : world :=
  world_of [account 1 "admin" "active"; account 2 "engineer" "active"]
    DEFAULT_POLICIES [pending "DELETE_ADMIN" 2 (target 1) 2 [] 1000].

Definition W2 : world :=
  world_of [account 1 "admin" "active"; account 2 "admin" "active";
                 account 3 "admin" "active"]
    DEFAULT_POLICIES [pending "DELETE_ADMIN" 1 (target 3) 2 [] 1000].


Definition W4 : world :=
  world_of [account 1 "admin" "active"; account 2 "admin" "active";
                 account 3 "admin" "active"]
    DEFAULT_POLICIES
    [pending "DELETE_ADMIN" 1 (target 9) 2
       [{| Approval.userId := oid 2; Approval.approvedAt := 5; Approval.comment := "" |}] 1000].

(** The [DELETE_ADMIN] policy with another quorum and execution delay. *)
Definition delete_admin_policy (n delay : nat) : list GovernancePolicy.t :=
  [default_policy "DELETE_ADMIN" "Delete an administrator account" n false delay 3600].

(** An action approved at time 5 by [oid 2], scheduled for execution at [sched]. *)
Definition approved_at (sched : Z) : PendingAction.t :=
  PendingAction.mark_approved 5 sched
    (pending "DELETE_ADMIN" 1 (target 9) 1
       [{| Approval.userId := oid 2; Approval.approvedAt := 5; Approval.comment := "" |}] 1000).

Definition W5 : world :=
  world_of [account 1 "admin" "active"; account 2 "admin" "active";
            account 3 "admin" "active"]
    DEFAULT_POLICIES [approved_at 20].

Definition W0 : world := world_of [account 7 "engineer" "active"] [] [].
End Demo.

(** * Properties *)

(** ** Strings *)

Lemma string_app_assoc (a b c : string) : (a ++ b) ++ c = a ++ (b ++ c).
Proof. induction a as [|ch a IH]; simpl; [reflexivity | now rewrite IH]. Qed.

Lemma string_length_app (a b : string) :
  String.length (a ++ b) = String.length a + String.length b.
Proof. induction a as [|ch a IH]; simpl; [reflexivity | now rewrite IH]. Qed.

Lemma string_app_inv_l (p x y : string) : p ++ x = p ++ y -> x = y.
Proof. induction p as [|ch p IH]; simpl; intros Heq; [exact Heq | injection Heq; auto]. Qed.

Lemma string_app_inv_r (x y s : string) : x ++ s = y ++ s -> x = y.
Proof.
  revert y; induction x as [|c x IH]; intros [|d y] Heq; simpl in *.
  - reflexivity.
  - apply (f_equal String.length) in Heq; simpl in Heq;
      rewrite string_length_app in Heq; lia.
  - apply (f_equal String.length) in Heq; simpl in Heq;
      rewrite string_length_app in Heq; lia.
  - injection Heq as Hc Hr; subst; f_equal; auto.
Qed.

Ltac peel H :=
  repeat first [ apply string_app_inv_l in H | injection H as H ].

Section LedgerProofs.
Context `{Runtime}.
Import AuditLog Ledger.

Lemma payload_changes (m : mutation) (e : entry) :
  changes_hash_input m e -> hash_payload (mutate m e) <> hash_payload e.
Proof.
  destruct m as [a|d]; simpl; intros Hne Heq; apply Hne; unfold hash_payload in Heq;
    cbn [String.concat mutate action details previousHash resource resourceId user ip
         createdAt sequenceNumber] in Heq.
  - peel Heq; eapply string_app_inv_r; exact Heq.
  - peel Heq; eapply string_app_inv_r; exact Heq.
Qed.

Local Open Scope list_scope.

Lemma computeHash_mutate_ne (Hinj : forall s t, sha256hex s = sha256hex t -> s = t)
    (m : mutation) (e : entry) :
  changes_hash_input m e -> computeHash (mutate m e) <> computeHash e.
Proof. intros Hc Heq; apply (payload_changes m e Hc), Hinj, Heq. Qed.




Lemma build_entry_hash (lastEntry : option entry) (act res : string) (det : jvalue)
    (ip0 userId resId : option string) (now : Z) :
  entryHash (build_entry lastEntry act res det ip0 userId resId now)
  = computeHash (build_entry lastEntry act res det ip0 userId resId now).
Proof. reflexivity. Qed.

Lemma stored_entry_hash (e : entry) :
  details_stable (details e) -> computeHash (stored_entry e) = computeHash e.
Proof. intros Hs; unfold computeHash, hash_payload; cbn; rewrite Hs; reflexivity. Qed.

Lemma append_cases (f : fault) (act res : string) (det : jvalue)
    (ip0 userId resId : option string) (now : Z) (l : list entry) :
  (exists e, append_body f act res det ip0 userId resId now l = Ok e
             /\ e = build_entry (last_by_seq l) act res det ip0 userId resId now
             /\ appendAuditLog f act res det ip0 userId resId now l
                = (Some e, l ++ [stored_entry e])%list)
  \/ (exists msg, append_body f act res det ip0 userId resId now l = Err msg
                  /\ appendAuditLog f act res det ip0 userId resId now l = (None, l)).
Proof.
  unfold appendAuditLog, append_body.
  destruct f; [destruct (String.eqb act "" || String.eqb res "") | |
                destruct (String.eqb act "" || String.eqb res "")];
    solve [ left; eexists; repeat split | right; eexists; split; reflexivity ].
Qed.













End LedgerProofs.

Section LedgerClaims.
Context `{Runtime}.
Import AuditLog Ledger.
Local Open Scope list_scope.

Lemma last_by_seq_none (l : list entry) : last_by_seq l = None -> l = [].
Proof.
  destruct l as [|x r]; simpl; [auto|].
  destruct (last_by_seq r); [destruct (Nat.ltb _ _)|]; discriminate.
Qed.

Lemma last_by_seq_some (l : list entry) (m : entry) :
  last_by_seq l = Some m -> In m l /\ sequenceNumber m = max_seq l.
Proof.
  unfold max_seq; revert m; induction l as [|x r IH]; intros m Hm; simpl in *; [discriminate|].
  destruct (last_by_seq r) as [y|] eqn:Hy.
  - destruct (IH y eq_refl) as [Hin Hs].
    destruct (Nat.ltb (sequenceNumber y) (sequenceNumber x)) eqn:Hlt;
      injection Hm as <-.
    + apply Nat.ltb_lt in Hlt; split; [left; reflexivity | lia].
    + apply Nat.ltb_ge in Hlt; split; [right; exact Hin | lia].
  - apply last_by_seq_none in Hy; subst r; injection Hm as <-; simpl; split; [auto | lia].
Qed.


(** C4 (amended). A successful [appendAuditLog] adds one entry whose
    sequence number is the highest stored one plus one (1 on an empty
    ledger), whose [previousHash] is the [entryHash] of a stored entry with
    the highest sequence number ([GENESIS] on an empty ledger), and whose
    [entryHash] is the digest of previousHash | action | resource |
    resourceId-or-empty | user-or-SYSTEM | JSON of (details, or [{}] when
    details is falsy) | ip-or-empty | ISO createdAt | sequenceNumber; the
    entry is stored with these fields, its details as saving stores them. *)
Theorem appendAuditLog_entry_fields (f : fault) (act res : string) (det : jvalue)
    (ip0 uid rid : option string) (now : Z) (l l' : list entry) (e : entry)
    (Hne : Forall (fun x => entryHash x <> "") l)
    (Happ : appendAuditLog f act res det ip0 uid rid now l = (Some e, l')) :
  l' = l ++ [stored_entry e]
  /\ sequenceNumber e = S (max_seq l)
  /\ (l = [] -> previousHash e = "GENESIS")
  /\ (l <> [] -> exists x, In x l /\ sequenceNumber x = max_seq l
                           /\ previousHash e = entryHash x)
  /\ entryHash e = sha256hex (String.concat "|" [
       previousHash e; act; res; or_empty rid; user_or_system uid;
       json_text (or_empty_object det); or_empty ip0; toISOString now;
       string_of_nat (sequenceNumber e)]).
Proof.
  destruct (append_cases f act res det ip0 uid rid now l)
    as [(e0 & _ & He0 & Hres) | (msg & _ & Hres)]; rewrite Happ in Hres; [|discriminate].
  injection Hres as Heq Hl'; subst e l'.
  split; [reflexivity|].
  destruct (last_by_seq l) as [x|] eqn:Hx.
  - destruct (last_by_seq_some l x Hx) as [Hin Hs].
    assert (Hxe : entryHash x <> "") by (rewrite Forall_forall in Hne; auto).
    subst e0; cbn.
    repeat split.
    + lia.
    + intros ->; contradiction.
    + intros _; exists x; auto.
    + unfold computeHash, hash_payload; cbn.
      destruct (String.eqb (entryHash x) "") eqn:E; [apply String.eqb_eq in E; contradiction|].
      reflexivity.
  - apply last_by_seq_none in Hx; subst l e0; cbn.
    repeat split; [intros H0; contradiction H0; reflexivity].
Qed.

End LedgerClaims.

(** ** Governance operations *)

(** Symbolic execution of one request: unfold the monad, keep the helpers
    folded, and split on every test the code makes before its audit write. *)
Ltac run_request :=
  unfold run_op, createPendingAction, approvePendingAction, vetoPendingAction,
    cancelPendingAction, bootstrapAdmin, adminRecovery, lockout_gate, save_doc,
    bind, ret, throw, gets, modify, lift;
  cbn -[audit seedDefaultPolicies upsert_admin resolveFirebaseUser setCustomUserClaims
        checkAdminCountSafety getPolicy findUser findAction save_action includes
        read_field isSystemBootstrapped is_admin_action PendingAction.push_approval
        PendingAction.mark_approved PendingAction.mark_vetoed PendingAction.set_status
        PendingAction.hasQuorum PendingAction.hasUserApproved PendingAction.isExpired
        status_eqb oid bump_id with_settings with_actions PendingAction.valid_doc];
  repeat (match goal with
          | |- context [match ?x with _ => _ end] =>
              lazymatch x with context [audit] => fail | _ => destruct x eqn:? end
          end;
          cbn -[audit seedDefaultPolicies upsert_admin resolveFirebaseUser setCustomUserClaims
                checkAdminCountSafety getPolicy findUser findAction save_action includes
                read_field isSystemBootstrapped is_admin_action PendingAction.push_approval
                PendingAction.mark_approved PendingAction.mark_vetoed PendingAction.set_status
                PendingAction.hasQuorum PendingAction.hasUserApproved PendingAction.isExpired
                status_eqb oid bump_id with_settings with_actions PendingAction.valid_doc]).

(** Reduction of a request that keeps the helpers folded. *)
Ltac red_req := cbn -[audit seedDefaultPolicies upsert_admin resolveFirebaseUser setCustomUserClaims
        checkAdminCountSafety getPolicy findUser findAction save_action includes
        read_field isSystemBootstrapped is_admin_action PendingAction.push_approval
        PendingAction.mark_approved PendingAction.mark_vetoed PendingAction.set_status
        PendingAction.hasQuorum PendingAction.hasUserApproved PendingAction.isExpired
        status_eqb oid bump_id with_settings with_actions lockout_gate approved_record
        save_doc PendingAction.valid_doc].


Ltac pick pa p Hs Hx Hp :=
  right; exists pa; split; [reflexivity|]; right; right;
  split; [exact Hs|]; split; [exact Hx|]; right; exists p; split; [exact Hp|].

Section WorkflowFacts.
Context `{Runtime}.
Local Open Scope list_scope.

Lemma lockout_gate_world (t : string) (p : jvalue) (w : world) :
  lockout_gate t p w = (fst (lockout_gate t p w), w).
Proof.
  unfold lockout_gate, bind, lift, ret, throw.
  destruct (is_admin_action t); [|reflexivity].
  destruct (read_field p "targetUserId"); [|reflexivity].
  destruct (checkAdminCountSafety (users w) a) as [s|]; [destruct (safe s)|]; reflexivity.
Qed.

Lemma status_eqb_pending (s : action_status) : status_eqb s Pending = true -> s = Pending.
Proof. destruct s; first [reflexivity | discriminate]. Qed.

Lemma lockout_gate_users (t : string) (p : jvalue) (w1 w2 : world) :
  users w1 = users w2 -> fst (lockout_gate t p w1) = fst (lockout_gate t p w2).
Proof.
  intros Hu; unfold lockout_gate, bind, lift, ret, throw.
  destruct (is_admin_action t); [|reflexivity].
  destruct (read_field p "targetUserId"); [|reflexivity].
  cbn; rewrite Hu.
  destruct (checkAdminCountSafety (users w2) a) as [s|]; [destruct (safe s)|]; reflexivity.
Qed.

Lemma valid_doc_set_status (s : action_status) (pa : PendingAction.t) :
  PendingAction.valid_doc (PendingAction.set_status s pa) = PendingAction.valid_doc pa.
Proof. reflexivity. Qed.

Lemma valid_doc_approved (p : GovernancePolicy.t) (pa : PendingAction.t) (u c : string) (now : Z) :
  PendingAction.valid_doc (approved_record p pa u c now) = PendingAction.valid_doc pa.
Proof. unfold approved_record; destruct (PendingAction.hasQuorum _); reflexivity. Qed.

Lemma valid_doc_mark_vetoed (u why : string) (now : Z) (pa : PendingAction.t) :
  PendingAction.valid_doc (PendingAction.mark_vetoed u why now pa) = PendingAction.valid_doc pa.
Proof. reflexivity. Qed.

Lemma approve_inv (f : fault) (id u c : string) (ip : option string) (now : Z) (w : world) :
  let (r, w') := approvePendingAction f id u c ip now w in
  (findAction w id = None /\ r = Err ActionNotFound /\ w' = w)
  \/ exists pa, findAction w id = Some pa /\
     ((PendingAction.status pa <> Pending
       /\ r = Err (InvalidStatus (status_name (PendingAction.status pa))) /\ w' = w)
      \/ (PendingAction.status pa = Pending /\ PendingAction.isExpired now pa = true
          /\ ((PendingAction.valid_doc pa = true /\ r = Err ActionExpired
               /\ w' = save_action (PendingAction.set_status Expired pa) w)
              \/ (PendingAction.valid_doc pa = false /\ r = Err ValidationError /\ w' = w)))
      \/ (PendingAction.status pa = Pending /\ PendingAction.isExpired now pa = false
          /\ ((getPolicy w (PendingAction.actionType pa) = None
               /\ r = Err PolicyNotFound /\ w' = w)
              \/ exists p, getPolicy w (PendingAction.actionType pa) = Some p /\
                 ((approver_permitted w p u = false /\ r = Err PermissionDenied /\ w' = w)
                  \/ (approver_permitted w p u = true
                      /\ GovernancePolicy.selfApprovalAllowed p = false
                      /\ PendingAction.requestedBy pa = u
                      /\ r = Err SelfApproval /\ w' = w)
                  \/ (approver_permitted w p u = true
                      /\ (GovernancePolicy.selfApprovalAllowed p = true
                          \/ PendingAction.requestedBy pa <> u)
                      /\ PendingAction.hasUserApproved pa u = true
                      /\ r = Err DuplicateApproval /\ w' = w)
                  \/ (approver_permitted w p u = true
                      /\ (GovernancePolicy.selfApprovalAllowed p = true
                          \/ PendingAction.requestedBy pa <> u)
                      /\ PendingAction.hasUserApproved pa u = false
                      /\ ((exists e, fst (lockout_gate (PendingAction.actionType pa)
                                            (PendingAction.actionPayload pa) w) = Err e
                                     /\ r = Err e /\ w' = w)
                          \/ (fst (lockout_gate (PendingAction.actionType pa)
                                     (PendingAction.actionPayload pa) w) = Ok tt
                              /\ PendingAction.valid_doc pa = false
                              /\ r = Err ValidationError /\ w' = w)
                          \/ (fst (lockout_gate (PendingAction.actionType pa)
                                     (PendingAction.actionPayload pa) w) = Ok tt
                              /\ PendingAction.valid_doc pa = true
                              /\ r = Ok (approved_record p pa u c now)
                              /\ w' = audit f "PENDING_ACTION_APPROVED"
                                        (approved_details (approved_record p pa u c now) u c)
                                        ip (Some u) now
                                        (save_action (approved_record p pa u c now) w)))))))).
Proof.
  unfold approvePendingAction, bind, gets, ret, throw, modify.
  destruct (findAction w id) as [pa|] eqn:Hf; red_req; [|left; auto].
  destruct (status_eqb (PendingAction.status pa) Pending) eqn:Hs; red_req.
  2:{ right; exists pa; split; [reflexivity|]; left.
      split; [intros Hp; rewrite Hp in Hs; discriminate | auto]. }
  apply status_eqb_pending in Hs.
  destruct (PendingAction.isExpired now pa) eqn:Hx; red_req.
  { unfold save_doc; rewrite valid_doc_set_status.
    destruct (PendingAction.valid_doc pa) eqn:Hv; red_req;
      right; exists pa; (split; [reflexivity|]); right; left;
      (split; [exact Hs|]); (split; [exact Hx|]); [left|right]; auto. }
  destruct (getPolicy w (PendingAction.actionType pa)) as [p|] eqn:Hp; red_req.
  2:{ right; exists pa; split; [reflexivity|]; right; right.
      split; [exact Hs|]; split; [exact Hx|]; left; auto. }
  unfold approver_permitted.
  destruct (findUser (users w) u) as [usr|] eqn:Hu; red_req.
  2:{ pick pa p Hs Hx Hp; left; auto. }
  destruct (includes (GovernancePolicy.allowedApprovers p) (User.role usr)) eqn:Hi; red_req.
  2:{ pick pa p Hs Hx Hp; left; auto. }
  assert (Hok : negb (GovernancePolicy.selfApprovalAllowed p)
                 && String.eqb (PendingAction.requestedBy pa) u = false ->
                 GovernancePolicy.selfApprovalAllowed p = true
                 \/ PendingAction.requestedBy pa <> u).
  { destruct (GovernancePolicy.selfApprovalAllowed p); [auto|]; cbn.
    intros Hr; right; apply String.eqb_neq; exact Hr. }
  destruct (negb (GovernancePolicy.selfApprovalAllowed p)
            && String.eqb (PendingAction.requestedBy pa) u) eqn:Hself; red_req.
  { pick pa p Hs Hx Hp; right; left.
    apply andb_true_iff in Hself; destruct Hself as [Hsa Hr].
    apply negb_true_iff in Hsa; apply String.eqb_eq in Hr; auto. }
  specialize (Hok eq_refl).
  destruct (PendingAction.hasUserApproved pa u) eqn:Hd; red_req.
  { pick pa p Hs Hx Hp; right; right; left; auto. }
  rewrite lockout_gate_world.
  destruct (fst (lockout_gate (PendingAction.actionType pa) (PendingAction.actionPayload pa) w))
    as [[]|e] eqn:Hg; red_req.
  - unfold save_doc.
    match goal with |- context [PendingAction.valid_doc ?x] =>
      replace (PendingAction.valid_doc x) with (PendingAction.valid_doc pa)
        by (destruct (PendingAction.hasQuorum _); reflexivity) end.
    destruct (PendingAction.valid_doc pa) eqn:Hv; red_req;
      (pick pa p Hs Hx Hp); right; right; right;
      (split; [auto|]); (split; [exact Hok|]); (split; [exact Hd|]);
      right; [right|left]; auto.
  - pick pa p Hs Hx Hp; right; right; right;
      (split; [auto|]); (split; [exact Hok|]); (split; [exact Hd|]).
    left; exists e; auto.
Qed.

Lemma lockout_gate_unsafe (t : string) (payload tid : jvalue) (target : User.t) (w : world)
    (Ht : is_admin_action t = true)
    (Hp : read_field payload "targetUserId" = Ok tid)
    (Hu : findUserById (users w) tid = Ok (Some target))
    (Ha : is_active_admin target = true)
    (Hn : (Z.of_nat (countActiveAdmins (users w)) - 1 < MIN_ACTIVE_ADMINS)%Z) :
  lockout_gate t payload w = (Err LockoutViolation, w).
Proof.
  unfold lockout_gate, bind, lift, ret, throw; rewrite Ht, Hp; cbn.
  unfold checkAdminCountSafety; rewrite Hu, Ha; cbn.
  replace (Z.leb MIN_ACTIVE_ADMINS (Z.of_nat (countActiveAdmins (users w)) - 1)) with false;
    [reflexivity | symmetry; apply Z.leb_gt; exact Hn].
Qed.

Lemma safety_verdict (us : list User.t) (tid : jvalue) (ov : option User.t) (s : safety)
    (Hu : findUserById us tid = Ok ov) (Hs : checkAdminCountSafety us tid = Ok s) :
  ((exists v, ov = Some v /\ is_active_admin v = true) ->
   resultingCount s = Some (Z.of_nat (countActiveAdmins us) - 1)%Z
   /\ safe s = Z.leb MIN_ACTIVE_ADMINS (Z.of_nat (countActiveAdmins us) - 1))
  /\ (~ (exists v, ov = Some v /\ is_active_admin v = true) ->
      safe s = true /\ wouldRemove s = 0 /\ resultingCount s = None).
Proof.
  unfold checkAdminCountSafety in Hs; rewrite Hu in Hs.
  destruct ov as [v|]; [destruct (is_active_admin v) eqn:Ha|];
    cbn in Hs; injection Hs as <-; cbn; split; intros Hx.
  - auto.
  - exfalso; apply Hx; eauto.
  - destruct Hx as (v' & E & Ha'); injection E as <-; congruence.
  - auto.
  - destruct Hx as (v' & E & _); discriminate.
  - auto.
Qed.

Lemma lower_idem (s : string) : lower (lower s) = lower s.
Proof.
  induction s as [|ch r IH]; cbn; [reflexivity|]; rewrite IH; f_equal.
  unfold in_range; destruct (Nat.leb 65 (nat_of_ascii ch) && Nat.leb (nat_of_ascii ch) 90) eqn:E.
  - apply andb_true_iff in E; destruct E as [E1 E2]; apply Nat.leb_le in E1, E2.
    rewrite nat_ascii_embedding by lia.
    replace (Nat.leb (nat_of_ascii ch + 32) 90) with false
      by (symmetry; apply Nat.leb_gt; lia).
    rewrite andb_false_r; reflexivity.
  - rewrite E; reflexivity.
Qed.

Lemma resolve_world (e p n : option string) (w w1 : world) (fu : Firebase.user) :
  resolveFirebaseUser e p n w = Ok (fu, w1) ->
  users w1 = users w /\ policies w1 = policies w /\ actions w1 = actions w
  /\ ledger w1 = ledger w /\ settings w1 = settings w.
Proof.
  unfold resolveFirebaseUser; destruct e as [em|]; [|discriminate].
  destruct (negb (is_email em)); [discriminate|].
  destruct (find _ (authUsers w)) as [u|].
  - intros E; injection E as <- <-; auto.
  - destruct (Nat.ltb _ 6); [discriminate|].
    intros E; injection E as <- <-; cbn; auto.
Qed.

Lemma upsert_admin_world (uid : string) (e n : option string) (w : world) :
  policies (snd (upsert_admin uid e n w)) = policies w
  /\ actions (snd (upsert_admin uid e n w)) = actions w
  /\ ledger (snd (upsert_admin uid e n w)) = ledger w
  /\ settings (snd (upsert_admin uid e n w)) = settings w
  /\ authUsers (snd (upsert_admin uid e n w)) = authUsers w.
Proof. unfold upsert_admin; destruct (find _ (users w)); cbn; auto. Qed.

Lemma replace_first_admins (p : User.t -> bool) (x u : User.t) (l : list User.t) :
  find p l = Some x -> count_admins l = 0 -> User.role u = "admin" ->
  count_admins (replace_first p u l) = 1.
Proof.
  unfold count_admins; intros Hf H0 Hr; induction l as [|y r IH]; cbn in *; [discriminate|].
  destruct (String.eqb (User.role y) "admin") eqn:Ey; [discriminate|].
  destruct (p y); cbn.
  - rewrite Hr; cbn; rewrite H0; reflexivity.
  - rewrite Ey; exact (IH Hf H0).
Qed.

Lemma upsert_admin_count (uid : string) (e n : option string) (w : world) :
  count_admins (users w) = 0 -> count_admins (users (snd (upsert_admin uid e n w))) = 1.
Proof.
  intros H0; unfold upsert_admin.
  destruct (find _ (users w)) as [old|] eqn:Hf; cbn.
  - eapply replace_first_admins; [exact Hf | exact H0 | reflexivity].
  - unfold count_admins in *; rewrite filter_app, length_app, H0; reflexivity.
Qed.

Lemma setCustomUserClaims_idem (uid : string) (w : world) :
  setCustomUserClaims uid (setCustomUserClaims uid w) = setCustomUserClaims uid w.
Proof.
  unfold setCustomUserClaims, with_authUsers; cbn; f_equal.
  rewrite map_map; apply map_ext; intros a.
  destruct (String.eqb (Firebase.uid a) uid) eqn:E; cbn; rewrite E; reflexivity.
Qed.

Lemma find_app_none {A} (p : A -> bool) (l : list A) (x : A) :
  find p l = None -> p x = true -> find p (l ++ [x]) = Some x.
Proof.
  intros Hn Hx; induction l as [|y r IH]; cbn in *; [rewrite Hx; reflexivity|].
  destruct (p y); [discriminate|]; auto.
Qed.

Lemma resolve_again (e p n : option string) (w w1 : world) (fu : Firebase.user) :
  resolveFirebaseUser e p n w = Ok (fu, w1) ->
  is_email (or_empty e) = true
  /\ find (fun u => String.eqb (lower (Firebase.email u)) (lower (or_empty e))) (authUsers w1)
     = Some fu
  /\ resolveFirebaseUser e p n w1 = Ok (fu, w1).
Proof.
  unfold resolveFirebaseUser; destruct e as [em|]; [|discriminate]; cbn [or_empty].
  destruct (is_email em) eqn:Hm; cbn [negb]; [|discriminate].
  destruct (find _ (authUsers w)) as [u|] eqn:Hf.
  - intros E; injection E as <- <-; rewrite Hf; auto.
  - destruct (Nat.ltb _ 6); [discriminate|].
    intros E; injection E as <- <-; cbn.
    rewrite find_app_none; [auto | exact Hf | cbn; rewrite lower_idem; apply String.eqb_refl].
Qed.

Lemma find_map_claims (q : Firebase.user -> bool) (uid : string) (l : list Firebase.user)
    (x : Firebase.user) :
  (forall u, q (with_admin_claim u) = q u) ->
  find q l = Some x ->
  find q (map (fun u => if String.eqb (Firebase.uid u) uid then with_admin_claim u else u) l)
  = Some (if String.eqb (Firebase.uid x) uid then with_admin_claim x else x).
Proof.
  intros Hq; induction l as [|y r IH]; cbn; [discriminate|].
  destruct (q y) eqn:Ey.
  - intros E; injection E as <-.
    destruct (String.eqb (Firebase.uid y) uid); [rewrite Hq|]; rewrite Ey; reflexivity.
  - intros Hf; destruct (String.eqb (Firebase.uid y) uid); [rewrite Hq|]; rewrite Ey; auto.
Qed.

Lemma resolve_again_claims (e p n : option string) (w w1 : world) (fu : Firebase.user) :
  resolveFirebaseUser e p n w = Ok (fu, w1) ->
  resolveFirebaseUser e p n (setCustomUserClaims (Firebase.uid fu) w1)
  = Ok (with_admin_claim fu, setCustomUserClaims (Firebase.uid fu) w1).
Proof.
  intros Hr; destruct (resolve_again e p n w w1 fu Hr) as (Hm & Hf & _).
  revert Hr Hf Hm; unfold resolveFirebaseUser; destruct e as [em|]; [|discriminate];
    cbn [or_empty]; intros _ Hf Hm; rewrite Hm; cbn [negb].
  unfold setCustomUserClaims; cbn [authUsers with_authUsers].
  change (fun u => if String.eqb (Firebase.uid u) (Firebase.uid fu) then
                     {| Firebase.uid := Firebase.uid u; Firebase.email := Firebase.email u;
                        Firebase.password := Firebase.password u;
                        Firebase.displayName := Firebase.displayName u;
                        Firebase.claimsRole := Some "admin" |} else u)
    with (fun u => if String.eqb (Firebase.uid u) (Firebase.uid fu) then with_admin_claim u else u).
  rewrite (find_map_claims (fun u => String.eqb (lower (Firebase.email u)) (lower em))
            (Firebase.uid fu) _ fu (fun u => eq_refl) Hf).
  rewrite String.eqb_refl; reflexivity.
Qed.

Lemma setCustomUserClaims_users (uid : string) (w : world) :
  users (setCustomUserClaims uid w) = users w /\ settings (setCustomUserClaims uid w) = settings w.
Proof. split; reflexivity. Qed.

End WorkflowFacts.

Section WorkflowClaims.
Context `{Runtime}.
Local Open Scope list_scope.

(** C9. [appendAuditLog] never throws: whatever the input and whatever
    fault the ledger store shows, it returns the entry it persisted (and the
    ledger grows by it, its details as saving stores them) or returns
    nothing (and the ledger is unchanged).
    And the outcome of audit writes never changes the outcome of a
    governance request (create, approve, veto, cancel, bootstrap,
    recovery): the response and every non-ledger part of the state after
    it are the same whether the audit writes succeed or fail. *)
Theorem audit_write_never_blocks :
  (forall (f : fault) (act res : string) (det : jvalue) (ip0 uid rid : option string)
          (now : Z) (l : list AuditLog.entry),
     AuditLog.appendAuditLog f act res det ip0 uid rid now l = (None, l)
     \/ exists e, AuditLog.appendAuditLog f act res det ip0 uid rid now l
                 = (Some e, l ++ [AuditLog.stored_entry e]))
  /\ (forall (f1 f2 : fault) (now : Z) (o : op) (w : world),
        fst (run_op f1 now o w) = fst (run_op f2 now o w)
        /\ strip (snd (run_op f1 now o w)) = strip (snd (run_op f2 now o w))).
Proof.
  split.
  - intros f act res det ip0 uid rid now l.
    destruct (append_cases f act res det ip0 uid rid now l)
      as [(e & _ & _ & He) | (msg & _ & He)]; [right; exists e | left]; exact He.
  - intros f1 f2 now o w; destruct o; run_request; split; reflexivity.
Qed.

(** C1 (amended). Let an admin action name, as its target, an active admin
    while at most one active admin exists. A create request for it fails
    and changes nothing, with the lockout error as soon as the policy
    exists and the requestor's role is allowed. An approval of a stored
    action of that kind never succeeds; it changes nothing but the expiry
    mark of an expired action, and fails with the lockout error as soon as
    the earlier checks (status, expiry, policy, approver role, self
    approval, duplicate) pass. The verdict of [checkAdminCountSafety] is
    [resultingCount >= MIN_ACTIVE_ADMINS] with [resultingCount] the active
    admin count minus one when the target is an active admin, and safe,
    removing nobody, otherwise. *)
Theorem lockout_guard_last_admin (f : fault) (w : world) (t : string)
    (payload tid : jvalue) (target : User.t)
    (Ht : is_admin_action t = true)
    (Hp : read_field payload "targetUserId" = Ok tid)
    (Hu : findUserById (users w) tid = Ok (Some target))
    (Ha : is_active_admin target = true)
    (Hn : (Z.of_nat (countActiveAdmins (users w)) - 1 < MIN_ACTIVE_ADMINS)%Z) :
  (forall (requestorId reason : string) (ip : option string) (now : Z),
     let (r, w') := createPendingAction f t requestorId payload reason ip now w in
     w' = w
     /\ exists e, r = Err e
        /\ (e = LockoutViolation \/ e = PolicyNotFound \/ e = PermissionDenied)
        /\ (forall p usr, getPolicy w t = Some p -> findUser (users w) requestorId = Some usr ->
            includes (GovernancePolicy.allowedRequestors p) (User.role usr) = true ->
            e = LockoutViolation))
  /\ (forall (id u c : string) (ip : option string) (now : Z) (pa : PendingAction.t),
        findAction w id = Some pa -> PendingAction.actionType pa = t ->
        PendingAction.actionPayload pa = payload ->
        let (r, w') := approvePendingAction f id u c ip now w in
        (exists e, r = Err e
                   /\ (w' = w \/ (e = ActionExpired
                                  /\ w' = save_action (PendingAction.set_status Expired pa) w)))
        /\ (PendingAction.status pa = Pending -> PendingAction.isExpired now pa = false ->
            forall p, getPolicy w t = Some p -> approver_permitted w p u = true ->
            (GovernancePolicy.selfApprovalAllowed p = true
             \/ PendingAction.requestedBy pa <> u) ->
            PendingAction.hasUserApproved pa u = false ->
            r = Err LockoutViolation /\ w' = w))
  /\ (forall (us : list User.t) (tid0 : jvalue) (ov : option User.t) (s : safety),
        findUserById us tid0 = Ok ov -> checkAdminCountSafety us tid0 = Ok s ->
        ((exists v, ov = Some v /\ is_active_admin v = true) ->
         resultingCount s = Some (Z.of_nat (countActiveAdmins us) - 1)%Z
         /\ safe s = Z.leb MIN_ACTIVE_ADMINS (Z.of_nat (countActiveAdmins us) - 1))
        /\ (~ (exists v, ov = Some v /\ is_active_admin v = true) ->
            safe s = true /\ wouldRemove s = 0 /\ resultingCount s = None)).
Proof.
  pose proof (lockout_gate_unsafe t payload tid target w Ht Hp Hu Ha Hn) as Hg.
  split; [|split; [|exact safety_verdict]].
  - intros requestorId reason ip now.
    unfold createPendingAction, bind, gets, ret, throw, modify.
    destruct (getPolicy w t) as [p|] eqn:Hpol; red_req.
    2:{ split; [reflexivity|]; exists PolicyNotFound; split; [reflexivity|]; split; [auto|].
        intros p0 usr E; discriminate E. }
    destruct (findUser (users w) requestorId) as [usr|] eqn:Hr; red_req.
    2:{ split; [reflexivity|]; exists PermissionDenied; split; [reflexivity|]; split; [auto|].
        intros p0 usr E1 E2; discriminate E2. }
    destruct (includes (GovernancePolicy.allowedRequestors p) (User.role usr)) eqn:Hin; red_req.
    2:{ split; [reflexivity|]; exists PermissionDenied; split; [reflexivity|]; split; [auto|].
        intros p0 usr0 E1 E2 E3; injection E1 as <-; injection E2 as <-; congruence. }
    rewrite Hg; red_req.
    split; [reflexivity|]; exists LockoutViolation; split; [reflexivity|]; split; auto.
  - intros id u c ip now pa Hf Htp Hpl.
    pose proof (approve_inv f id u c ip now w) as Hi.
    destruct (approvePendingAction f id u c ip now w) as [r w'].
    rewrite Hf in Hi.
    destruct Hi as [(Hn' & _) | (pa0 & Hpa & Hi)]; [discriminate|].
    injection Hpa as <-.
    rewrite Htp, Hpl, Hg in Hi; cbn in Hi.
    destruct Hi as [(Hs & -> & ->) | [(Hs & Hx & [(Hv & -> & ->) | (Hv & -> & ->)]) | (Hs & Hx & Hi)]].
    + split; [eauto|]. intros Hs'; contradiction.
    + split; [eauto|]. intros _ Hx'; rewrite Hx in Hx'; discriminate.
    + split; [eauto|]. intros _ Hx'; rewrite Hx in Hx'; discriminate.
    + destruct Hi as [(Hp0 & -> & ->) | (p & Hp0 & Hi)].
      { split; [eauto|]. intros _ _ p' E; rewrite Hp0 in E; discriminate. }
      destruct Hi as [(Hap & -> & ->) | [(Hap & Hsa & Hreq & -> & ->) | [(Hap & Hok & Hd & -> & ->) | Hi]]].
      * split; [eauto|]. intros _ _ p' E; rewrite Hp0 in E; injection E as <-; congruence.
      * split; [eauto|]. intros _ _ p' E; rewrite Hp0 in E; injection E as <-.
        intros _ [Hok | Hok]; congruence.
      * split; [eauto|]. intros _ _ p' _ _ _ Hd'; congruence.
      * destruct Hi as (_ & _ & _ & [(e & He & -> & ->) | [(He & _) | (He & _)]]);
          [| discriminate He | discriminate He].
        injection He as <-. split; eauto.
Qed.

(** C2 (amended). A successful approval of a pending action appends exactly
    one approval, by a user not yet in the list, permitted by the current
    policy's approver roles, and other than the requestor unless that
    policy allows self approval; it keeps the [requiredApprovals] copied
    at creation, and the action becomes approved exactly when the number
    of approvals reaches it; the approver ids stay pairwise distinct. An
    approval by a user already in the list fails and records nothing. *)
Theorem approve_quorum_rule (f : fault) (id u c : string) (ip : option string) (now : Z)
    (w : world) (pa : PendingAction.t) (Hf : findAction w id = Some pa) :
  (forall pa2 w', approvePendingAction f id u c ip now w = (Ok pa2, w') ->
     PendingAction.status pa = Pending
     /\ PendingAction.hasUserApproved pa u = false
     /\ PendingAction.approvals pa2
        = PendingAction.approvals pa
          ++ [{| Approval.userId := u; Approval.approvedAt := now; Approval.comment := c |}]
     /\ (exists p, getPolicy w (PendingAction.actionType pa) = Some p
                   /\ approver_permitted w p u = true
                   /\ (GovernancePolicy.selfApprovalAllowed p = true
                       \/ PendingAction.requestedBy pa <> u))
     /\ PendingAction.requiredApprovals pa2 = PendingAction.requiredApprovals pa
     /\ (PendingAction.status pa2 = Approved
         <-> PendingAction.requiredApprovals pa <= length (PendingAction.approvals pa2))
     /\ (NoDup (map Approval.userId (PendingAction.approvals pa)) ->
         NoDup (map Approval.userId (PendingAction.approvals pa2))))
  /\ (PendingAction.hasUserApproved pa u = true ->
      let (r, w') := approvePendingAction f id u c ip now w in
      (exists e, r = Err e)
      /\ (w' = w \/ w' = save_action (PendingAction.set_status Expired pa) w)).
Proof.
  pose proof (approve_inv f id u c ip now w) as Hi.
  destruct (approvePendingAction f id u c ip now w) as [r w'].
  rewrite Hf in Hi.
  destruct Hi as [(Hn & _) | (pa0 & Hpa & Hi)]; [discriminate|].
  injection Hpa as <-.
  destruct Hi as [(_ & -> & ->) | [(_ & _ & [(_ & -> & ->) | (_ & -> & ->)]) | (Hs & _ & Hi)]];
    [split; [intros ? ? E; discriminate E | split; eauto] .. |].
  destruct Hi as [(_ & -> & ->) | (p & Hp & Hi)];
    [split; [intros ? ? E; discriminate E | split; eauto] |].
  destruct Hi as [(_ & -> & ->) | [(_ & _ & _ & -> & ->) | [(_ & _ & _ & -> & ->) | Hi]]];
    [split; [intros ? ? E; discriminate E | split; eauto] .. |].
  destruct Hi as (Hperm & Hok & Hd & [(e & _ & -> & ->) | [(_ & _ & -> & ->) | (_ & _ & -> & ->)]]);
    [split; [intros ? ? E; discriminate E | split; eauto] .. |].
  split; [|intros Hd'; rewrite Hd in Hd'; discriminate].
  intros pa2 w2 E; injection E as <- _.
  assert (Happ : PendingAction.approvals (approved_record p pa u c now)
                 = PendingAction.approvals pa
                   ++ [{| Approval.userId := u; Approval.approvedAt := now;
                          Approval.comment := c |}]).
  { unfold approved_record; destruct (PendingAction.hasQuorum _); reflexivity. }
  split; [exact Hs|]; split; [exact Hd|]; split; [exact Happ|].
  split; [exists p; auto|].
  split; [unfold approved_record; destruct (PendingAction.hasQuorum _); reflexivity|].
  split.
  - rewrite Happ; unfold approved_record, PendingAction.hasQuorum.
    cbn [PendingAction.push_approval PendingAction.requiredApprovals PendingAction.approvals].
    destruct (Nat.leb (PendingAction.requiredApprovals pa) _) eqn:Hq; cbn.
    + apply Nat.leb_le in Hq; split; auto.
    + apply Nat.leb_gt in Hq; rewrite Hs; split; [discriminate | lia].
  - intros Hnd; rewrite Happ, map_app; cbn.
    apply (Permutation_NoDup (Permutation_cons_append _ _)).
    constructor; [|exact Hnd].
    unfold PendingAction.hasUserApproved in Hd.
    intros Hin; apply in_map_iff in Hin; destruct Hin as (x & Hx & Hin).
    assert (Hex : existsb (fun y => String.eqb (Approval.userId y) u)
                          (PendingAction.approvals pa) = true).
    { apply existsb_exists; exists x; split; [exact Hin | apply String.eqb_eq; exact Hx]. }
    rewrite Hd in Hex; discriminate.
Qed.

(** C5. When every enabled policy for the action's type forbids self
    approval, an approval by the action's requestor fails, whatever the
    requestor's role and however many approvals the action holds: no
    approval is recorded and the action is not approved (the only write is
    the expiry mark of an action found past its deadline). *)
Theorem approve_rejects_self_approval (f : fault) (id c : string) (ip : option string)
    (now : Z) (w : world) (pa : PendingAction.t)
    (Hf : findAction w id = Some pa)
    (Hpol : forall p, getPolicy w (PendingAction.actionType pa) = Some p ->
                      GovernancePolicy.selfApprovalAllowed p = false) :
  let (r, w') := approvePendingAction f id (PendingAction.requestedBy pa) c ip now w in
  (exists e, r = Err e)
  /\ (w' = w \/ w' = save_action (PendingAction.set_status Expired pa) w).
Proof.
  pose proof (approve_inv f id (PendingAction.requestedBy pa) c ip now w) as Hi.
  destruct (approvePendingAction f id (PendingAction.requestedBy pa) c ip now w) as [r w'].
  rewrite Hf in Hi.
  destruct Hi as [(Hn & _) | (pa0 & Hpa & Hi)]; [discriminate|].
  injection Hpa as <-.
  destruct Hi as [(_ & -> & ->) | [(_ & _ & [(_ & -> & ->) | (_ & -> & ->)]) | (_ & _ & Hi)]];
    [split; eauto .. |].
  destruct Hi as [(_ & -> & ->) | (p & Hp & Hi)]; [split; eauto|].
  destruct Hi as [(_ & -> & ->) | [(_ & _ & _ & -> & ->) | [(_ & _ & _ & -> & ->) | Hi]]];
    [split; eauto .. |].
  destruct Hi as (_ & Hok & _ & _).
  rewrite (Hpol p Hp) in Hok; destruct Hok as [Hok | Hok]; [discriminate | contradiction].
Qed.


(** C7 (amended). Approval reads the policy current at approval time, but
    only its enabled flag, approver roles, self-approval flag and execution
    delay: replacing the policies by ones that agree on those fields for the
    action's type (its [requiredApprovals] may differ) leaves the result of
    approve, and every part of the state but the policies, unchanged. *)
Theorem approve_reads_current_policy (f : fault) (id u c : string) (ip : option string)
    (now : Z) (w : world) (ps : list GovernancePolicy.t)
    (Hview : forall pa, findAction w id = Some pa ->
       option_map approval_view (getPolicy w (PendingAction.actionType pa))
       = option_map approval_view
           (getPolicy (with_policies ps w) (PendingAction.actionType pa))) :
  approvePendingAction f id u c ip now (with_policies ps w)
  = let (r, w') := approvePendingAction f id u c ip now w in (r, with_policies ps w').
Proof.
  unfold approvePendingAction, bind, gets, ret, throw, modify.
  change (findAction (with_policies ps w) id) with (findAction w id).
  destruct (findAction w id) as [pa|] eqn:Hf; red_req; [|reflexivity].
  specialize (Hview pa eq_refl).
  destruct (status_eqb (PendingAction.status pa) Pending); red_req; [|reflexivity].
  destruct (PendingAction.isExpired now pa); red_req.
  { unfold save_doc; destruct (PendingAction.valid_doc _); reflexivity. }
  destruct (getPolicy w (PendingAction.actionType pa)) as [p1|];
    destruct (getPolicy (with_policies ps w) (PendingAction.actionType pa)) as [p2|];
    try discriminate Hview; red_req; [|reflexivity].
  injection Hview as Ha Hsa Hd.
  rewrite Ha, Hsa, Hd.
  destruct (findUser (users w) u) as [usr|]; red_req; [|reflexivity].
  destruct (includes (GovernancePolicy.allowedApprovers p2) (User.role usr)); red_req;
    [|reflexivity].
  destruct (negb (GovernancePolicy.selfApprovalAllowed p2)
            && String.eqb (PendingAction.requestedBy pa) u); red_req; [reflexivity|].
  destruct (PendingAction.hasUserApproved pa u); red_req; [reflexivity|].
  rewrite (lockout_gate_world _ _ (with_policies ps w)), (lockout_gate_world _ _ w).
  rewrite (lockout_gate_users _ _ (with_policies ps w) w eq_refl).
  destruct (fst (lockout_gate (PendingAction.actionType pa) (PendingAction.actionPayload pa) w))
    as [[]|e]; red_req; [|reflexivity].
  unfold save_doc; destruct (PendingAction.valid_doc _); reflexivity.
Qed.

(** C10 (amended). A target id for which [User.findById] finds no account
    (absent or null, an ObjectId nobody has, an array, cast to an [$in]
    query, of such ids, an operator query matching nobody) gives the
    verdict safe, removing nobody, and the lockout gate passes without
    touching the state, whatever the number of active admins. A target id
    that the ObjectId cast or the operator query rejects makes
    [checkAdminCountSafety] fail with that error, and so the lockout gate of
    an admin action, without touching the state. *)
Theorem missing_target_passes_gate (users0 : list User.t) (tid : jvalue)
    (Hmiss : findUserById users0 tid = Ok None) :
  checkAdminCountSafety users0 tid
  = Ok {| safe := true; currentCount := countActiveAdmins users0; wouldRemove := 0;
          resultingCount := None |}
  /\ (forall (t : string) (payload : jvalue) (w : world),
        users w = users0 -> read_field payload "targetUserId" = Ok tid ->
        lockout_gate t payload w = (Ok tt, w))
  /\ (forall (us : list User.t) (tid0 : jvalue) (e : gov_error),
        findUserById us tid0 = Err e ->
        (castIdFilter tid0 = Err e
         \/ exists ops, castIdFilter tid0 = Ok (IdOps ops) /\ idOperatorMatch ops = Err e)
        /\ checkAdminCountSafety us tid0 = Err e
        /\ (forall (t : string) (payload : jvalue) (w : world),
              users w = us -> is_admin_action t = true ->
              read_field payload "targetUserId" = Ok tid0 ->
              lockout_gate t payload w = (Err e, w))).
Proof.
  assert (Hs : checkAdminCountSafety users0 tid
               = Ok {| safe := true; currentCount := countActiveAdmins users0; wouldRemove := 0;
                       resultingCount := None |}).
  { unfold checkAdminCountSafety; rewrite Hmiss; reflexivity. }
  split; [exact Hs|]; split.
  - intros t payload w Hu Hp.
    unfold lockout_gate, bind, lift, ret, throw.
    destruct (is_admin_action t); [|reflexivity].
    rewrite Hp; cbn; rewrite Hu, Hs; reflexivity.
  - intros us tid0 e He.
    assert (Hc : checkAdminCountSafety us tid0 = Err e)
      by (unfold checkAdminCountSafety; rewrite He; reflexivity).
    split; [|split; [exact Hc|]].
    + revert He; unfold findUserById.
      destruct (castIdFilter tid0) as [[| i | ids | ops] | e'];
        try (intros E; discriminate E).
      * right; exists ops; split; [reflexivity|].
        destruct (idOperatorMatch ops); [discriminate | injection He as ->; reflexivity].
      * intros E; injection E as ->; left; reflexivity.
    + intros t payload w Hu Ht Hp.
      unfold lockout_gate, bind, lift, ret, throw; rewrite Ht, Hp; cbn; rewrite Hu, Hc.
      reflexivity.
Qed.

(** C8. Once the bootstrap lock says bootstrapped, no request changes it;
    a bootstrap request then answers 409 and changes nothing but the audit
    ledger. After a successful bootstrap from a state with no admin account,
    a second bootstrap (any inputs, any crash point) answers 409 and leaves
    exactly one admin account and the lock set. A bootstrap that died after
    creating the identity, or after setting its claims, followed by a retry
    ends in the same state, with the same answer, as a single clean run. *)
Theorem bootstrap_lock_idempotent :
  (forall (f : fault) (now : Z) (o : op) (w : world),
     isSystemBootstrapped w = true -> settings (snd (run_op f now o w)) = settings w)
  /\ (forall (f : fault) (cp : crash_point) (e p n ip : option string) (now : Z) (w : world),
        isSystemBootstrapped w = true ->
        fst (bootstrapAdmin f cp e p n ip now w) = Some 409
        /\ strip (snd (bootstrapAdmin f cp e p n ip now w)) = strip w)
  /\ (forall (f1 f2 : fault) (cp2 : crash_point) (e1 p1 n1 ip1 e2 p2 n2 ip2 : option string)
             (t1 t2 : Z) (w0 w1 : world),
        isSystemBootstrapped w0 = false -> count_admins (users w0) = 0 ->
        bootstrapAdmin f1 NoCrash e1 p1 n1 ip1 t1 w0 = (Some 201, w1) ->
        let (r2, w2) := bootstrapAdmin f2 cp2 e2 p2 n2 ip2 t2 w1 in
        r2 = Some 409 /\ isSystemBootstrapped w2 = true /\ count_admins (users w2) = 1)
  /\ (forall (f : fault) (cp : crash_point) (e p n ip : option string) (t1 t2 : Z)
             (w w1 : world),
        (cp = CrashAfterIdentity \/ cp = CrashAfterClaims) ->
        bootstrapAdmin f cp e p n ip t1 w = (None, w1) ->
        bootstrapAdmin f NoCrash e p n ip t2 w1 = bootstrapAdmin f NoCrash e p n ip t2 w).
Proof.
  split; [|split; [|split]].
  - intros f now o w Hb; destruct o; run_request;
    repeat match goal with
           | H : (_, _) = (_, _) |- _ => injection H as; subst
           | H : (match ?x with _ => _ end) _ = (_, _) |- _ => destruct x eqn:?; cbn in H
           | H : (if ?x then _ else _) _ = (_, _) |- _ => destruct x eqn:?; cbn in H
           | H : (match ?x with _ => _ end) = (_, _) |- _ => destruct x eqn:?; cbn in H
           end;
    try rewrite lockout_gate_world in *;
    repeat match goal with
           | H : (_, _) = (_, _) |- _ => injection H as; subst
           end;
    try reflexivity; try congruence.
    all: match goal with
         | Hr : resolveFirebaseUser _ _ _ _ = Ok (_, _),
           Hu : upsert_admin ?uid ?e ?n ?w2 = (_, _) |- _ =>
             destruct (resolve_world _ _ _ _ _ _ Hr) as (_ & _ & _ & _ & Hs);
             pose proof (upsert_admin_world uid e n w2) as (_ & _ & _ & Hs' & _);
             rewrite Hu in Hs'; cbn in Hs'; cbn; rewrite Hs'; exact Hs
         end.
  - intros f cp e p n ip now w Hb; unfold bootstrapAdmin; rewrite Hb; split; reflexivity.
  - intros f1 f2 cp2 e1 p1 n1 ip1 e2 p2 n2 ip2 t1 t2 w0 w1 Hb H0 Hfirst.
    unfold bootstrapAdmin in Hfirst; rewrite Hb in Hfirst.
    destruct (String.eqb (or_empty e1) "" || String.eqb (or_empty p1) ""
              || String.eqb (or_empty n1) ""); [discriminate|].
    destruct (resolveFirebaseUser e1 p1 n1 w0) as [[fu w1']|msg] eqn:Hr; [|discriminate].
    cbn [crash_eqb] in Hfirst.
    destruct (upsert_admin (Firebase.uid fu) e1 n1 (setCustomUserClaims (Firebase.uid fu) w1'))
      as [au w3] eqn:Hu.
    injection Hfirst as <-.
    unfold bootstrapAdmin at 1; cbn [isSystemBootstrapped audit seedDefaultPolicies with_ledger
                                     with_policies with_settings settings bootstrapped].
    split; [reflexivity|]; split; [reflexivity|].
    cbn [users audit with_ledger seedDefaultPolicies with_policies with_settings].
    pose proof (upsert_admin_count (Firebase.uid fu) e1 n1
                  (setCustomUserClaims (Firebase.uid fu) w1')) as Hc.
    rewrite Hu in Hc; apply Hc.
    destruct (resolve_world _ _ _ _ _ _ Hr) as (Hus & _).
    cbn; rewrite Hus; exact H0.
  - intros f cp e p n ip t1 t2 w w1 Hcp Hcrash.
    unfold bootstrapAdmin in Hcrash |- *.
    destruct (isSystemBootstrapped w) eqn:Hb; [discriminate|].
    destruct (String.eqb (or_empty e) "" || String.eqb (or_empty p) ""
              || String.eqb (or_empty n) "") eqn:Hfields; [discriminate|].
    destruct (resolveFirebaseUser e p n w) as [[fu w1']|msg] eqn:Hr; [|discriminate].
    destruct (resolve_world _ _ _ _ _ _ Hr) as (_ & _ & _ & _ & Hs).
    assert (Hb' : isSystemBootstrapped w1' = false) by (unfold isSystemBootstrapped in *; rewrite Hs; exact Hb).
    destruct Hcp as [-> | ->]; cbn [crash_eqb] in Hcrash; injection Hcrash as <-.
    + rewrite Hb', (proj2 (proj2 (resolve_again e p n w w1' fu Hr))); reflexivity.
    + change (isSystemBootstrapped (setCustomUserClaims (Firebase.uid fu) w1'))
        with (isSystemBootstrapped w1').
      rewrite Hb', (resolve_again_claims e p n w w1' fu Hr).
      cbn [crash_eqb with_admin_claim Firebase.uid].
      rewrite setCustomUserClaims_idem; reflexivity.
Qed.

End WorkflowClaims.

(** * Further properties of the code *)

Section ExtraLedger.
Context `{Runtime}.
Import AuditLog Ledger.
Local Open Scope list_scope.

Lemma verify_from_links (p : string) (i : nat) (es : list entry) :
  valid (verify_from p i es) = true <-> links_from p es.
Proof.
  revert p i; induction es as [|e r IH]; intros p i; cbn; [tauto|].
  unfold verifyIntegrity.
  destruct (String.eqb (previousHash e) p) eqn:Ep; cbn.
  - apply String.eqb_eq in Ep.
    destruct (String.eqb (entryHash e) (computeHash e)) eqn:Eh; cbn.
    + rewrite IH; tauto.
    + split; [discriminate | intros (_ & Hf & _); discriminate].
  - split; [discriminate | intros (Hp & _); apply String.eqb_neq in Ep; contradiction].
Qed.

Lemma verify_from_valid_checked (p : string) (i : nat) (es : list entry) :
  valid (verify_from p i es) = true ->
  checked (verify_from p i es) = i + length es /\ brokenAt (verify_from p i es) = None.
Proof.
  revert p i; induction es as [|e r IH]; intros p i; cbn; [rewrite Nat.add_0_r; auto|].
  destruct (negb (String.eqb (previousHash e) p)); cbn; [discriminate|].
  destruct (negb (String.eqb (entryHash e) (computeHash e))); cbn; [discriminate|].
  intros Hv; destruct (IH _ (S i) Hv) as [-> ->]; split; [lia | reflexivity].
Qed.

(** X1. The entry [appendAuditLog] returns passes [verifyIntegrity]. The
    ledger receives that entry with its details as saving stores them; the
    stored entry passes [verifyIntegrity] when saving leaves the JSON text
    of [details || {}] unchanged and, for a collision-free digest, only
    then. *)
Theorem appendAuditLog_passes_verifyIntegrity (f : fault) (act res : string) (det : jvalue)
    (ip0 uid rid : option string) (now : Z) (l l' : list entry) (e : entry)
    (Happ : appendAuditLog f act res det ip0 uid rid now l = (Some e, l')) :
  l' = l ++ [stored_entry e]
  /\ verifyIntegrity e = true
  /\ (details_stable det -> verifyIntegrity (stored_entry e) = true)
  /\ ((forall s t, sha256hex s = sha256hex t -> s = t) ->
      verifyIntegrity (stored_entry e) = true -> details_stable det).
Proof.
  destruct (append_cases f act res det ip0 uid rid now l)
    as [(e0 & _ & He0 & Hres) | (msg & _ & Hres)]; rewrite Happ in Hres; [|discriminate].
  injection Hres as -> ->.
  assert (Hh : entryHash e0 = computeHash e0) by (rewrite He0; apply build_entry_hash).
  assert (Hd : details e0 = det) by (rewrite He0; reflexivity).
  split; [reflexivity|]; split; [unfold verifyIntegrity; rewrite Hh; apply String.eqb_refl|].
  split.
  - intros Hs; unfold verifyIntegrity.
    rewrite stored_entry_hash by (rewrite Hd; exact Hs).
    cbn [entryHash stored_entry]; rewrite Hh; apply String.eqb_refl.
  - intros Hinj Hv; unfold verifyIntegrity in Hv; apply String.eqb_eq in Hv.
    cbn [entryHash stored_entry] in Hv; rewrite Hh in Hv.
    destruct (string_dec (json_text (or_empty_object (stored det)))
                         (json_text (or_empty_object det))) as [Eq|Ne]; [exact Eq|].
    exfalso; apply (computeHash_mutate_ne Hinj (SetDetails (stored det)) e0).
    + cbn; rewrite Hd; exact Ne.
    + rewrite <- Hd; symmetry; exact Hv.
Qed.

(** X2. [verifyAuditChain] reports a valid chain exactly when every examined
    entry (the first [limit] in sequence order) passes [verifyIntegrity] and
    links to the hash of the entry before it, [GENESIS] for the first; it
    then reports no break and counts every examined entry. *)
Theorem verifyAuditChain_valid_iff (limit : nat) (l : list entry) :
  let es := take_limit limit (sort_by_seq l) in
  (valid (verifyAuditChain limit l) = true <-> links_from "GENESIS" es)
  /\ (valid (verifyAuditChain limit l) = true ->
      brokenAt (verifyAuditChain limit l) = None
      /\ checked (verifyAuditChain limit l) = length es).
Proof.
  intros es; unfold verifyAuditChain; fold es.
  destruct es as [|x r] eqn:Hes; [cbn; tauto|].
  rewrite <- Hes; split; [apply verify_from_links|].
  intros Hv; destruct (verify_from_valid_checked _ 0 _ Hv); auto.
Qed.

End ExtraLedger.

Section ExtraGuard.
Context `{Runtime}.

Lemma find_some_pred {A} (p : A -> bool) (l : list A) (x : A) :
  find p l = Some x -> In x l /\ p x = true.
Proof.
  induction l as [|y r IH]; cbn; [discriminate|].
  destruct (p y) eqn:Ey; [intros E; injection E as <-; auto|].
  intros Hf; destruct (IH Hf); auto.
Qed.

Lemma count_pos (us : list User.t) (u : User.t) :
  In u us -> is_active_admin u = true -> 1 <= countActiveAdmins us.
Proof.
  unfold countActiveAdmins; intros Hin Ha.
  destruct (filter is_active_admin us) eqn:E; cbn; [|lia].
  assert (Hx : In u (filter is_active_admin us)) by (apply filter_In; auto).
  rewrite E in Hx; destruct Hx.
Qed.

(** X3. [checkAdminCountSafety] reports the active admin count and removes at
    most one admin; its verdict is unsafe exactly when [User.findById]
    finds the target, an active admin, and that admin is the only active
    one. *)
Theorem checkAdminCountSafety_unsafe_iff (us : list User.t) (tid : jvalue) (s : safety)
    (Hs : checkAdminCountSafety us tid = Ok s) :
  currentCount s = countActiveAdmins us
  /\ wouldRemove s <= 1
  /\ (safe s = false <->
      exists u, findUserById us tid = Ok (Some u)
                /\ is_active_admin u = true /\ countActiveAdmins us = 1).
Proof.
  unfold checkAdminCountSafety in Hs.
  destruct (findUserById us tid) as [o|m] eqn:Hf; [|discriminate].
  destruct o as [v|]; [destruct (is_active_admin v) eqn:Ha|];
    cbn in Hs; injection Hs as <-; cbn.
  - assert (Hin : In v us).
    { revert Hf; unfold findUserById.
      destruct (castIdFilter tid) as [[| i | ids | ops] | e]; try discriminate.
      - intros E; injection E as E; exact (proj1 (find_some_pred _ _ _ E)).
      - intros E; injection E as E; exact (proj1 (find_some_pred _ _ _ E)).
      - destruct (idOperatorMatch ops); [|discriminate].
        intros E; injection E as E; exact (proj1 (find_some_pred _ _ _ E)). }
    pose proof (count_pos us v Hin Ha).
    split; [reflexivity|]; split; [lia|].
    unfold MIN_ACTIVE_ADMINS; split.
    + intros Hl; apply Z.leb_gt in Hl.
      exists v; repeat split; auto.
      lia.
    + intros (v' & E & Ha' & H1); apply Z.leb_gt; lia.
  - repeat split; auto; [discriminate|].
    intros (v' & E & Ha' & _); injection E as <-; congruence.
  - repeat split; auto; [discriminate|].
    intros (v' & E & _); discriminate.
Qed.

End ExtraGuard.

Section ExtraRoutes.
Context `{Runtime}.

(** X4. For an active admin found by its own id, the lockout check refuses
    to remove it exactly when [GET /admin-safety] reports [isAtMinimum];
    the reported margin is then 0. *)
Theorem adminSafety_agrees_with_lockout (us : list User.t) (u : User.t)
    (Hc : castObjectId (JStr (User._id u)) = Ok (Some (User._id u)))
    (Hf : findUser us (User._id u) = Some u)
    (Ha : is_active_admin u = true) :
  (exists s, checkAdminCountSafety us (JStr (User._id u)) = Ok s
             /\ safe s = negb (isAtMinimum (adminSafety us)))
  /\ (isAtMinimum (adminSafety us) = true -> safetyMargin (adminSafety us) = 0%Z).
Proof.
  assert (Hin := proj1 (find_some_pred _ _ _ Hf)).
  pose proof (count_pos us u Hin Ha) as Hpos.
  unfold checkAdminCountSafety, findUserById, castIdFilter, adminSafety, MIN_ACTIVE_ADMINS.
  rewrite Hc, Hf, Ha; cbn.
  split.
  - eexists; split; [reflexivity|]; cbn.
    destruct (Z.leb (Z.of_nat (countActiveAdmins us)) 1) eqn:E1; cbn.
    + apply Z.leb_le in E1; apply Z.leb_gt; lia.
    + apply Z.leb_gt in E1; apply Z.leb_le; lia.
  - intros E1; apply Z.leb_le in E1; lia.
Qed.

Lemma first_segment_prefix (h : string) :
  exists rest, h = first_segment h ++ rest
               /\ (rest = "" \/ exists r, rest = String "," r).
Proof.
  induction h as [|c r IH]; cbn; [exists ""; auto|].
  destruct (Ascii.eqb c ",") eqn:E.
  - apply Ascii.eqb_eq in E; subst c; exists (String "," r); cbn; eauto.
  - destruct IH as (rest & Hr & Hrest); exists rest; cbn; rewrite <- Hr; auto.
Qed.

Lemma first_segment_no_comma (h p s : string) : first_segment h <> p ++ String "," s.
Proof.
  revert p; induction h as [|c r IH]; intros p; cbn; [destruct p; discriminate|].
  destruct (Ascii.eqb c ",") eqn:E; [destruct p; discriminate|].
  destruct p as [|d p]; cbn.
  - intros Heq; injection Heq as -> _; rewrite Ascii.eqb_refl in E; discriminate.
  - intros Heq; injection Heq as _ Heq; exact (IH p Heq).
Qed.

(** X5. [getClientIp] never yields the empty string. When the first
    comma-separated part of [X-Forwarded-For] is non-empty, it yields that
    part whatever the socket address: a prefix of the header, free of commas,
    ending where the header ends or at its first comma. *)
Theorem getClientIp_header_first (xff remoteAddress : option string) :
  getClientIp xff remoteAddress <> ""
  /\ (forall h, xff = Some h -> first_segment h <> "" ->
      getClientIp xff remoteAddress = first_segment h
      /\ (forall p s, getClientIp xff remoteAddress <> p ++ String "," s)
      /\ exists rest, h = getClientIp xff remoteAddress ++ rest
                      /\ (rest = "" \/ exists r, rest = String "," r)).
Proof.
  split.
  - unfold getClientIp.
    destruct (String.eqb _ "") eqn:E1; cbn.
    2:{ intros Ha; rewrite Ha in E1; discriminate. }
    destruct (String.eqb (or_empty remoteAddress) "") eqn:E2; cbn; [discriminate|].
    intros Hb; rewrite Hb in E2; discriminate.
  - intros h -> Hne; unfold getClientIp.
    apply String.eqb_neq in Hne; rewrite Hne; cbn.
    split; [reflexivity|]; split; [intros p s; apply first_segment_no_comma|].
    apply first_segment_prefix.
Qed.

End ExtraRoutes.

Section ExtraPolicies.
Local Open Scope list_scope.

Lemma upsert_policy_cases (p : GovernancePolicy.t) (ps : list GovernancePolicy.t) :
  (existsb (fun q => String.eqb (GovernancePolicy.actionType q) (GovernancePolicy.actionType p)) ps = true /\ upsert_policy p ps = ps)
  \/ (existsb (fun q => String.eqb (GovernancePolicy.actionType q) (GovernancePolicy.actionType p)) ps = false
      /\ upsert_policy p ps = ps ++ [p]).
Proof.
  unfold upsert_policy, GovernancePolicy.actionType; destruct (existsb _ ps); auto.
Qed.

Lemma has_type (t : string) (ps : list GovernancePolicy.t) :
  existsb (fun q => String.eqb (GovernancePolicy.actionType q) t) ps = true <-> exists q, In q ps /\ GovernancePolicy.actionType q = t.
Proof.
  rewrite existsb_exists; split; intros (q & Hq & E); exists q; split; auto.
  - apply String.eqb_eq; exact E.
  - apply String.eqb_eq; exact E.
Qed.

Lemma seed_fold_spec (ds ps : list GovernancePolicy.t) :
  exists extra, fold_left (fun ps p => upsert_policy p ps) ds ps = ps ++ extra
  /\ (forall p, In p extra -> In p ds /\ ~ exists q, In q ps /\ GovernancePolicy.actionType q = GovernancePolicy.actionType p)
  /\ (forall d, In d ds -> exists q, In q (ps ++ extra) /\ GovernancePolicy.actionType q = GovernancePolicy.actionType d).
Proof.
  revert ps; induction ds as [|d ds IH]; intros ps; cbn.
  - exists []; rewrite app_nil_r; split; [reflexivity|]; split; [intros p []|intros d []].
  - destruct (upsert_policy_cases d ps) as [(Hx & ->) | (Hx & ->)].
    + destruct (IH ps) as (extra & He & Hin & Hall); exists extra.
      split; [exact He|]; split; [intros p Hp; destruct (Hin p Hp); auto|].
      intros d' [<-|Hd]; [|auto].
      apply has_type in Hx; destruct Hx as (q & Hq & Ht); exists q; split; auto.
      apply in_or_app; auto.
    + destruct (IH (ps ++ [d])) as (extra & He & Hin & Hall); exists (d :: extra).
      rewrite <- app_assoc in He; split; [exact He|]; split.
      * intros p [<-|Hp].
        -- split; [auto|]; intros Hq; apply has_type in Hq; congruence.
        -- destruct (Hin p Hp) as [Hp1 Hp2]; split; [auto|].
           intros (q & Hq & Ht); apply Hp2; exists q; split; [apply in_or_app; auto|auto].
      * intros d' [<-|Hd].
        -- exists d; split; [apply in_or_app; right; left; reflexivity|reflexivity].
        -- rewrite <- app_assoc in Hall; exact (Hall d' Hd).
Qed.

Lemma seed_fold_noop (ds ps : list GovernancePolicy.t) :
  (forall d, In d ds -> exists q, In q ps /\ GovernancePolicy.actionType q = GovernancePolicy.actionType d) ->
  fold_left (fun ps p => upsert_policy p ps) ds ps = ps.
Proof.
  induction ds as [|d ds IH]; cbn; [reflexivity|]; intros Hall.
  destruct (upsert_policy_cases d ps) as [(_ & ->) | (Hx & _)]; [auto|].
  exfalso; destruct (Hall d (or_introl eq_refl)) as (q & Hq & Ht).
  assert (Hy : existsb (fun q => String.eqb (GovernancePolicy.actionType q) (GovernancePolicy.actionType d)) ps = true)
    by (apply has_type; eauto).
  congruence.
Qed.

Lemma find_app_first {A} (p : A -> bool) (l1 l2 : list A) :
  (forall x, In x l1 -> p x = false) -> find p (l1 ++ l2) = find p l2.
Proof.
  induction l1 as [|y r IH]; cbn; [auto|]; intros Hn.
  rewrite (Hn y (or_introl eq_refl)); auto.
Qed.

(** X6. [seedDefaultPolicies] only adds: stored policies stay as they are
    (a disabled one stays disabled) and are followed by the defaults whose
    action type had no policy; afterwards every default action type has a
    policy, a type that had none is governed by its default, and seeding
    again changes nothing. *)
Theorem seedDefaultPolicies_inserts_missing (w : world) :
  (exists extra, policies (seedDefaultPolicies w) = policies w ++ extra
     /\ forall p, In p extra -> In p DEFAULT_POLICIES
                               /\ forall q, In q (policies w) ->
                                            GovernancePolicy.actionType q
                                            <> GovernancePolicy.actionType p)
  /\ (forall d, In d DEFAULT_POLICIES ->
      exists p, In p (policies (seedDefaultPolicies w))
                /\ GovernancePolicy.actionType p = GovernancePolicy.actionType d)
  /\ (forall d, In d DEFAULT_POLICIES ->
      (forall q, In q (policies w) ->
                 GovernancePolicy.actionType q <> GovernancePolicy.actionType d) ->
      getPolicy (seedDefaultPolicies w) (GovernancePolicy.actionType d) = Some d)
  /\ seedDefaultPolicies (seedDefaultPolicies w) = seedDefaultPolicies w
  /\ users (seedDefaultPolicies w) = users w /\ actions (seedDefaultPolicies w) = actions w
  /\ settings (seedDefaultPolicies w) = settings w.
Proof.
  destruct (seed_fold_spec DEFAULT_POLICIES (policies w)) as (extra & He & Hin & Hall).
  assert (Hp : policies (seedDefaultPolicies w) = policies w ++ extra) by exact He.
  split; [exists extra; split; [exact Hp|]|].
  { intros p Hx; destruct (Hin p Hx) as [H1 H2]; split; [exact H1|].
    intros q Hq Ht; apply H2; exists q; auto. }
  split; [rewrite Hp; exact Hall|].
  split.
  - intros d Hd Hnone; unfold getPolicy; rewrite Hp.
    rewrite find_app_first.
    2:{ intros x Hx; apply andb_false_iff; left; apply String.eqb_neq; apply Hnone; exact Hx. }
    (* [extra] is the sublist of the defaults whose type was missing, in order;
       the defaults have pairwise distinct types, so [d] is the first with its type *)
    clear Hp He.
    assert (Hd' : In d extra).
    { destruct (Hall d Hd) as (q & Hq & Ht); apply in_app_or in Hq; destruct Hq as [Hq|Hq].
      - exfalso; exact (Hnone q Hq Ht).
      - destruct (Hin q Hq) as [Hqd _].
        cbn in Hd, Hqd.
        repeat (destruct Hd as [<-|Hd]); try contradiction;
        repeat (destruct Hqd as [<-|Hqd]); try contradiction;
        first [exact Hq | discriminate Ht]. }
    assert (Hsub : forall x, In x extra -> In x DEFAULT_POLICIES) by (intros x Hx; apply Hin; exact Hx).
    clear Hall Hin Hnone.
    induction extra as [|y r IH]; [destruct Hd'|]; cbn.
    destruct (String.eqb (GovernancePolicy.actionType y) (GovernancePolicy.actionType d)
              && GovernancePolicy.enabled y) eqn:Ey.
    + apply andb_true_iff in Ey; destruct Ey as [Ey _]; apply String.eqb_eq in Ey.
      f_equal.
      assert (Hy : In y DEFAULT_POLICIES) by (apply Hsub; left; reflexivity).
      cbn in Hd, Hy.
      repeat (destruct Hd as [<-|Hd]); try contradiction;
      repeat (destruct Hy as [<-|Hy]); try contradiction;
      first [reflexivity | discriminate Ey].
    + destruct Hd' as [<-|Hd'].
      * rewrite String.eqb_refl in Ey; cbn in Ey.
        cbn in Hd; repeat (destruct Hd as [<-|Hd]); try contradiction; discriminate Ey.
      * apply IH; [exact Hd'|]; intros x Hx; apply Hsub; right; exact Hx.
  - split; [|repeat split; reflexivity].
    unfold seedDefaultPolicies at 1; rewrite Hp.
    rewrite seed_fold_noop; [|exact Hall].
    rewrite <- Hp; destruct w; reflexivity.
Qed.

End ExtraPolicies.

Section ExtraExpiry.
Local Open Scope list_scope.

Lemma expire_map_count (now : Z) (l : list PendingAction.t) :
  length (filter (stale now) l) + length (filter is_expired_status l)
  = length (filter is_expired_status
       (map (fun a => if stale now a then PendingAction.set_status Expired a else a) l)).
Proof.
  induction l as [|a r IH]; cbn; [reflexivity|].
  destruct (stale now a) eqn:Es; cbn.
  - unfold stale in Es; apply andb_true_iff in Es; destruct Es as [Ep _].
    assert (Hs : PendingAction.status a = Pending)
      by (destruct (PendingAction.status a); try reflexivity; discriminate Ep).
    unfold is_expired_status at 1 3; cbn; rewrite Hs; cbn.
    change (fun a => status_eqb (PendingAction.status a) Expired) with is_expired_status; lia.
  - destruct (is_expired_status a); cbn; lia.
Qed.

(** X7. [expireStaleActions] marks expired exactly the pending actions past
    their deadline and leaves every other action as it was, in place; the
    count it returns is the number of actions that became expired. No stale
    action is left, so a second call at the same time returns 0 and changes
    nothing; users, policies, settings, ledger and identities are untouched. *)
Theorem expireStaleActions_marks_stale (now : Z) (w : world) :
  let (n, w') := expireStaleActions now w in
  Forall2 (fun a a' => (stale now a = false /\ a' = a)
                       \/ (status_eqb (PendingAction.status a) Pending = true
                           /\ PendingAction.isExpired now a = true
                           /\ a' = PendingAction.set_status Expired a))
          (actions w) (actions w')
  /\ n + length (filter is_expired_status (actions w))
     = length (filter is_expired_status (actions w'))
  /\ Forall (fun a => stale now a = false) (actions w')
  /\ expireStaleActions now w' = (0, w')
  /\ users w' = users w /\ policies w' = policies w /\ settings w' = settings w
  /\ ledger w' = ledger w /\ authUsers w' = authUsers w.
Proof.
  unfold expireStaleActions.
  set (g := fun a => if stale now a then PendingAction.set_status Expired a else a).
  change (actions (with_actions (map g (actions w)) w)) with (map g (actions w)).
  assert (Hns : Forall (fun a => stale now a = false) (map g (actions w))).
  { apply Forall_forall; intros x Hx; apply in_map_iff in Hx; destruct Hx as (a & <- & _).
    unfold g; destruct (stale now a) eqn:E; [|exact E].
    unfold stale; cbn; reflexivity. }
  split; [|split; [apply expire_map_count|split; [exact Hns|]]].
  - generalize (actions w) as l; intros l; induction l as [|a r IH]; cbn; constructor; [|exact IH].
    unfold g; destruct (stale now a) eqn:E; [right|left; auto].
    unfold stale in E; apply andb_true_iff in E; destruct E as [E1 E2]; auto.
  - split; [|repeat split; reflexivity].
    unfold expireStaleActions.
    change (actions (with_actions (map g (actions w)) w)) with (map g (actions w)).
    fold g.
    assert (Hf : forall l, Forall (fun a => stale now a = false) l -> filter (stale now) l = []
                           /\ map g l = l).
    { intros l Hl; induction Hl as [|a r Ha _ [IH1 IH2]]; cbn; [auto|].
      rewrite Ha, IH1, IH2; unfold g at 1; rewrite Ha; auto. }
    destruct (Hf _ Hns) as [-> ->]; reflexivity.
Qed.

End ExtraExpiry.

Section ExtraListing.
Local Open Scope list_scope.

(** X8. [GET /pending-actions], sorted by any order, lists exactly the
    approved actions and the pending actions not past their deadline, as
    they were before the call; its store is the one [expireStaleActions]
    leaves. *)
Theorem listPendingActions_lists_live (sort : list PendingAction.t -> list PendingAction.t)
    (Hsort : forall l, Permutation (sort l) l) (now : Z) (w : world) :
  let (listed, w') := listPendingActions sort now w in
  Permutation listed
    (filter (fun a => status_eqb (PendingAction.status a) Approved
                      || status_eqb (PendingAction.status a) Pending
                         && negb (PendingAction.isExpired now a)) (actions w))
  /\ w' = snd (expireStaleActions now w).
Proof.
  unfold listPendingActions, expireStaleActions; cbn [actions with_actions].
  split; [|reflexivity].
  rewrite Hsort.
  generalize (actions w) as l; intros l; induction l as [|a r IH]; cbn; [constructor|].
  unfold stale, PendingAction.isExpired.
  destruct (PendingAction.status a) eqn:Es; cbn;
    destruct (Z.ltb (PendingAction.expiresAt a) now); cbn; rewrite ?Es; cbn;
    first [apply perm_skip; exact IH | exact IH].
Qed.

End ExtraListing.

Section ExtraLimit.

Lemma uint_digits_value (u : Decimal.uint) (acc : nat) :
  fold_left (fun acc d => acc * Z.of_nat 10 + Z.of_nat d)%Z
            (take_digits 10 (DecimalString.NilEmpty.string_of_uint u)) (Z.of_nat acc)
  = Z.of_nat (Nat.of_uint_acc u acc).
Proof.
  revert acc; induction u as [|u IH|u IH|u IH|u IH|u IH|u IH|u IH|u IH|u IH|u IH];
    intros acc; [reflexivity|..];
    cbn [DecimalString.NilEmpty.string_of_uint take_digits Nat.of_uint_acc fold_left];
    (match goal with |- context [digit_val ?c] =>
       let v := eval vm_compute in (digit_val c) in change (digit_val c) with v end);
    cbn [Nat.ltb Nat.leb fold_left]; rewrite <- IH; f_equal;
    rewrite Nat.tail_mul_spec; lia.
Qed.

Lemma parseInt_uint (u : Decimal.uint) :
  u <> Decimal.Nil ->
  parseInt (DecimalString.NilEmpty.string_of_uint u) = Some (Z.of_nat (Nat.of_uint u)).
Proof.
  intros Hu.
  assert (Hd : exists d ds, take_digits 10 (DecimalString.NilEmpty.string_of_uint u) = d :: ds).
  { destruct u; [congruence|..]; cbn; eexists _, _; reflexivity. }
  assert (Hv := uint_digits_value u 0).
  unfold Nat.of_uint; rewrite <- Hv; clear Hv.
  unfold parseInt, digits_value.
  destruct u as [|u|u|u|u|u|u|u|u|u|u]; [congruence|..];
    [destruct u as [|u|u|u|u|u|u|u|u|u|u]|..];
    destruct Hd as (d & ds & Hd);
    cbn [DecimalString.NilEmpty.string_of_uint trim_start] in *;
    (match goal with |- context [is_js_space ?c] =>
       let v := eval vm_compute in (is_js_space c) in change (is_js_space c) with v end);
    cbn iota beta;
    (match goal with |- context [Ascii.eqb ?c "-"%char] =>
       let v := eval vm_compute in (Ascii.eqb c "-") in change (Ascii.eqb c "-") with v end);
    (match goal with |- context [Ascii.eqb ?c "+"%char] =>
       let v := eval vm_compute in (Ascii.eqb c "+") in change (Ascii.eqb c "+") with v end);
    cbn iota beta;
    try (match goal with |- context [Ascii.eqb ?c "x"%char] =>
       let v := eval vm_compute in (Ascii.eqb c "x") in change (Ascii.eqb c "x") with v end);
    try (match goal with |- context [Ascii.eqb ?c "X"%char] =>
       let v := eval vm_compute in (Ascii.eqb c "X") in change (Ascii.eqb c "X") with v end);
    cbn [orb];
    rewrite Hd, Z.mul_1_l; reflexivity.
Qed.

(** X9. [GET /audit/verify] examines [min(n, 10000)] entries for
    [?limit=n] written in decimal with [n > 0], and 1000 when the parameter
    is absent, [0] or not a number; in every case the limit is at most
    10000 and never 0. *)
Theorem auditVerifyLimit_decimal (q : option string) (n : nat) :
  auditVerifyLimit (Some (DecimalString.NilEmpty.string_of_uint (Nat.to_uint n)))
  = (if Nat.eqb n 0 then 1000 else Z.min (Z.of_nat n) 10000)%Z
  /\ (match q with Some s => parseInt s | None => None end = None -> auditVerifyLimit q = 1000%Z)
  /\ (auditVerifyLimit q <= 10000)%Z /\ auditVerifyLimit q <> 0%Z.
Proof.
  split; [|split; [|split]].
  - unfold auditVerifyLimit; rewrite parseInt_uint.
    + rewrite DecimalNat.Unsigned.of_to.
      destruct n; cbn; [reflexivity|].
      destruct (Z.eqb (Z.pos (Pos.of_succ_nat n)) 0) eqn:E; [lia|reflexivity].
    + intros E; assert (Hn := DecimalNat.Unsigned.of_to n); rewrite E in Hn.
      cbn in Hn; subst n; cbn in E; discriminate E.
  - unfold auditVerifyLimit; intros ->; reflexivity.
  - unfold auditVerifyLimit; lia.
  - unfold auditVerifyLimit.
    destruct (match q with Some s => parseInt s | None => None end) as [z|];
      [destruct (Z.eqb_spec z 0)|]; lia.
Qed.

End ExtraLimit.

Section ExtraWorkflow.
Context `{Runtime}.
Local Open Scope list_scope.

Lemma audit_frame (f : fault) (act : string) (det : jvalue) (ip : option string)
    (uid : option string) (now : Z) (w : world) :
  let w' := audit f act det ip uid now w in
  users w' = users w /\ policies w' = policies w /\ actions w' = actions w
  /\ settings w' = settings w /\ authUsers w' = authUsers w /\ nextId w' = nextId w
  /\ exists extra, ledger w' = ledger w ++ extra /\ length extra <= 1.
Proof.
  cbn; repeat split.
  unfold audit; cbn [ledger with_ledger].
  destruct (append_cases f act "GOVERNANCE" det ip uid None now (ledger w))
    as [(e & _ & _ & ->) | (m & _ & ->)]; cbn.
  - exists [AuditLog.stored_entry e]; auto.
  - exists []; rewrite app_nil_r; auto.
Qed.

Lemma create_inv (f : fault) (t rq : string) (p : jvalue) (why : string) (ip : option string)
    (now : Z) (w : world) :
  let (r, w') := createPendingAction f t rq p why ip now w in
  (exists e, r = Err e /\ w' = w)
  \/ (exists pa, r = Ok pa
      /\ PendingAction._id pa = oid (nextId w) /\ PendingAction.status pa = Pending
      /\ PendingAction.requestedBy pa = rq /\ PendingAction.actionType pa = t
      /\ PendingAction.actionPayload pa = p /\ PendingAction.approvals pa = []
      /\ 1 <= PendingAction.requiredApprovals pa
      /\ PendingAction.scheduledExecutionAt pa = None
      /\ w' = audit f "PENDING_ACTION_CREATED"
                (JObj [("actionType", JStr t); ("actionId", JStr (PendingAction._id pa));
                       ("reason", JStr why); ("payload", p)])
                ip (Some rq) now
                (bump_id (with_actions
                            (actions w ++ [PendingAction.with_payload (stored p) pa]) w))).
Proof.
  unfold createPendingAction, bind, gets, ret, throw, modify.
  destruct (getPolicy w t) as [pol|]; red_req; [|left; eauto].
  destruct (findUser (users w) rq) as [usr|]; red_req; [|left; eauto].
  destruct (includes (GovernancePolicy.allowedRequestors pol) (User.role usr)); red_req;
    [|left; eauto].
  rewrite lockout_gate_world.
  destruct (fst (lockout_gate t p w)) as [[]|e]; red_req; [|left; eauto].
  match goal with |- context [PendingAction.valid_doc ?x] =>
    destruct (PendingAction.valid_doc x) eqn:Hv end; red_req; [|left; eauto].
  right; eexists; split; [reflexivity|]; cbn.
  unfold PendingAction.valid_doc in Hv; cbn in Hv.
  apply andb_true_iff in Hv; destruct Hv as [_ Hv]; apply negb_true_iff, Nat.eqb_neq in Hv.
  repeat split; lia.
Qed.

Lemma veto_inv (f : fault) (id u why : string) (ip : option string) (now : Z) (w : world) :
  let (r, w') := vetoPendingAction f id u why ip now w in
  (exists e, r = Err e /\ w' = w)
  \/ (exists pa, findAction w id = Some pa
      /\ (PendingAction.status pa = Pending
          \/ (PendingAction.status pa = Approved
              /\ forall t, PendingAction.scheduledExecutionAt pa = Some t -> (now < t)%Z))
      /\ r = Ok (PendingAction.mark_vetoed u why now pa)
      /\ w' = audit f "PENDING_ACTION_VETOED"
                (JObj [("actionId", JStr (PendingAction._id pa));
                       ("actionType", JStr (PendingAction.actionType pa));
                       ("vetoer", JStr u); ("reason", JStr why)])
                ip (Some u) now (save_action (PendingAction.mark_vetoed u why now pa) w)).
Proof.
  unfold vetoPendingAction, save_doc, bind, gets, ret, throw, modify.
  destruct (findAction w id) as [pa|] eqn:Hf; red_req; [|left; eauto].
  destruct (PendingAction.status pa) eqn:Hs;
    cbn -[audit save_action findUser PendingAction.mark_vetoed PendingAction.valid_doc];
    try (left; eexists; split; reflexivity);
    [| destruct (PendingAction.scheduledExecutionAt pa) as [t|] eqn:Hsch;
       [destruct (Z.leb t now) eqn:Hl|]];
    cbn -[audit save_action findUser PendingAction.mark_vetoed PendingAction.valid_doc];
    try (left; eexists; split; reflexivity);
    destruct (findUser (users w) u) as [usr|];
    cbn -[audit save_action PendingAction.mark_vetoed PendingAction.valid_doc];
    try (left; eexists; split; reflexivity);
    destruct (User.role usr =? "admin");
    cbn -[audit save_action PendingAction.mark_vetoed PendingAction.valid_doc];
    try (left; eexists; split; reflexivity);
    rewrite valid_doc_mark_vetoed; destruct (PendingAction.valid_doc pa);
    cbn -[audit save_action PendingAction.mark_vetoed PendingAction.valid_doc];
    try (left; eexists; split; reflexivity);
    right; exists pa; (split; [reflexivity|]); (split; [|split; reflexivity]); auto.
  - right; split; [exact Hs|]; intros t' E; rewrite Hsch in E; injection E as <-; apply Z.leb_gt; exact Hl.
  - right; split; [exact Hs|]; intros t' E; rewrite Hsch in E; discriminate.
Qed.

Lemma cancel_inv (f : fault) (id u : string) (ip : option string) (now : Z) (w : world) :
  let (r, w') := cancelPendingAction f id u ip now w in
  (exists e, r = Err e /\ w' = w)
  \/ (exists pa, findAction w id = Some pa /\ PendingAction.status pa = Pending
      /\ PendingAction.requestedBy pa = u
      /\ r = Ok (PendingAction.set_status Cancelled pa)
      /\ w' = audit f "PENDING_ACTION_CANCELLED"
                (JObj [("actionId", JStr (PendingAction._id pa));
                       ("actionType", JStr (PendingAction.actionType pa))])
                ip (Some u) now (save_action (PendingAction.set_status Cancelled pa) w)).
Proof.
  unfold cancelPendingAction, bind, gets, ret, throw, modify.
  destruct (findAction w id) as [pa|] eqn:Hf; red_req; [|left; eauto].
  destruct (status_eqb (PendingAction.status pa) Pending) eqn:Hs; red_req; [|left; eauto].
  destruct (String.eqb (PendingAction.requestedBy pa) u) eqn:Hr; red_req; [|left; eauto].
  unfold save_doc; rewrite valid_doc_set_status.
  destruct (PendingAction.valid_doc pa); red_req; [|left; eauto].
  right; exists pa; split; [reflexivity|].
  split; [apply status_eqb_pending; exact Hs|].
  split; [apply String.eqb_eq; exact Hr|]; split; reflexivity.
Qed.

Lemma approve_cases (f : fault) (id u c : string) (ip : option string) (now : Z) (w : world) :
  let (r, w') := approvePendingAction f id u c ip now w in
  (exists e, r = Err e /\ w' = w)
  \/ (exists pa, findAction w id = Some pa /\ PendingAction.status pa = Pending
      /\ PendingAction.isExpired now pa = true /\ r = Err ActionExpired
      /\ w' = save_action (PendingAction.set_status Expired pa) w)
  \/ (exists pa p, findAction w id = Some pa /\ PendingAction.status pa = Pending
      /\ PendingAction.isExpired now pa = false
      /\ getPolicy w (PendingAction.actionType pa) = Some p
      /\ PendingAction.hasUserApproved pa u = false
      /\ r = Ok (approved_record p pa u c now)
      /\ w' = audit f "PENDING_ACTION_APPROVED"
                (approved_details (approved_record p pa u c now) u c)
                ip (Some u) now (save_action (approved_record p pa u c now) w)).
Proof.
  pose proof (approve_inv f id u c ip now w) as Hi.
  destruct (approvePendingAction f id u c ip now w) as [r w'].
  destruct Hi as [(_ & -> & ->) | (pa & Hf & Hc)]; [left; eauto|].
  destruct Hc as [(_ & -> & ->) | [(Hs & Hx & [(_ & -> & ->) | (_ & -> & ->)]) | (Hs & Hx & Hc)]];
    [left; eauto | right; left; exists pa; auto | left; eauto |].
  destruct Hc as [(_ & -> & ->) | (p & Hp & Hc)]; [left; eauto|].
  destruct Hc as [(_ & -> & ->) | [(_ & _ & _ & -> & ->) | [(_ & _ & _ & -> & ->) | Hc]]];
    try (left; eauto; fail).
  destruct Hc as (_ & _ & Hd & [(e & _ & -> & ->) | [(_ & _ & -> & ->) | (_ & _ & -> & ->)]]);
    [left; eauto | left; eauto |].
  right; right; exists pa, p; repeat split; auto.
Qed.

Lemma findAction_id (w : world) (id : string) (pa : PendingAction.t) :
  findAction w id = Some pa -> PendingAction._id pa = id.
Proof.
  unfold findAction; intros Hf.
  induction (actions w) as [|x r IH]; cbn in Hf; [discriminate|].
  destruct (String.eqb (PendingAction._id x) id) eqn:E;
    [injection Hf as <-; apply String.eqb_eq; exact E | auto].
Qed.

Lemma findAction_in (w : world) (id : string) (pa : PendingAction.t) :
  findAction w id = Some pa -> In pa (actions w).
Proof.
  unfold findAction; intros Hf.
  induction (actions w) as [|x r IH]; cbn in Hf; [discriminate|].
  destruct (String.eqb (PendingAction._id x) id) eqn:E;
    [injection Hf as <-; left; reflexivity | right; auto].
Qed.

Lemma approved_record_id (p : GovernancePolicy.t) (pa : PendingAction.t) (u c : string) (now : Z) :
  PendingAction._id (approved_record p pa u c now) = PendingAction._id pa.
Proof. unfold approved_record; destruct (PendingAction.hasQuorum _); reflexivity. Qed.

(** X10. A request of the approval workflow (create, approve, veto, cancel)
    leaves users, policies, the bootstrap lock and identities alone, and
    appends at most one audit entry, none when it is rejected. It either
    leaves the pending actions as they were, appends one new pending action
    without approvals (create), or overwrites the stored actions carrying
    the id it names with one new document of that id. *)
Ltac split6 := refine (conj _ (conj _ (conj _ (conj _ (conj _ _))))).

Theorem workflow_request_frame (f : fault) (now : Z) (o : op) (w w' : world) (r : response)
    (Hw : is_workflow o = true) (Hr : run_op f now o w = (r, w')) :
  users w' = users w /\ policies w' = policies w /\ settings w' = settings w
  /\ authUsers w' = authUsers w
  /\ (exists extra, ledger w' = ledger w ++ extra /\ length extra <= 1
                    /\ (forall e, r = RAction (Err e) -> extra = []))
  /\ (actions w' = actions w
      \/ (exists pa, op_target o = None /\ actions w' = actions w ++ [pa]
                     /\ PendingAction.status pa = Pending /\ PendingAction.approvals pa = [])
      \/ (exists id a', op_target o = Some id /\ PendingAction._id a' = id
          /\ actions w' = map (fun x => if String.eqb (PendingAction._id x) id then a' else x)
                              (actions w))).
Proof.
  assert (Hsame : forall e, (r = RAction (Err e) /\ w' = w) ->
    users w' = users w /\ policies w' = policies w /\ settings w' = settings w
    /\ authUsers w' = authUsers w
    /\ (exists extra, ledger w' = ledger w ++ extra /\ length extra <= 1
                      /\ (forall e, r = RAction (Err e) -> extra = []))
    /\ actions w' = actions w).
  { intros e (_ & ->); repeat split; auto; exists []; rewrite app_nil_r; auto. }
  assert (Haud : forall act det ip uid w1 a,
    r = RAction (Ok a) -> w' = audit f act det ip uid now w1 ->
    users w' = users w1 /\ policies w' = policies w1 /\ settings w' = settings w1
    /\ authUsers w' = authUsers w1 /\ actions w' = actions w1
    /\ (exists extra, ledger w' = ledger w1 ++ extra /\ length extra <= 1
                      /\ (forall e, r = RAction (Err e) -> extra = []))).
  { intros act det ip uid w1 a -> ->.
    destruct (audit_frame f act det ip uid now w1) as (? & ? & ? & ? & ? & _ & extra & ? & ?).
    repeat split; auto; exists extra; repeat split; auto; discriminate. }
  destruct o as [t rq p why ip|id u c ip|id u why ip|id u ip| |]; cbn in Hw; try discriminate;
    unfold run_op in Hr.
  - pose proof (create_inv f t rq p why ip now w) as Hc.
    destruct (createPendingAction f t rq p why ip now w) as [x w1]; injection Hr as <- <-.
    destruct Hc as [(e & -> & ->) | (pa & -> & _ & Hs & _ & _ & _ & Ha & _ & _ & ->)].
    + destruct (Hsame e (conj eq_refl eq_refl)) as (? & ? & ? & ? & ? & Hact); split6; auto.
    + edestruct Haud as (? & ? & ? & ? & Hact & Hl); [reflexivity|reflexivity|].
      cbn in *; split6; auto; try exact Hl.
      right; left; exists (PendingAction.with_payload (stored p) pa); auto.
  - pose proof (approve_cases f id u c ip now w) as Hc.
    destruct (approvePendingAction f id u c ip now w) as [x w1]; injection Hr as <- <-.
    destruct Hc as [(e & -> & ->) | [(pa & Hf & _ & _ & -> & ->) | (pa & p & Hf & _ & _ & _ & _ & -> & ->)]].
    + destruct (Hsame e (conj eq_refl eq_refl)) as (? & ? & ? & ? & ? & Hact); split6; auto.
    + cbn; split6; auto.
      * exists []; rewrite app_nil_r; auto.
      * right; right; exists id, (PendingAction.set_status Expired pa); split; [reflexivity|].
        split; [apply (findAction_id _ _ _ Hf)|].
        unfold save_action; cbn; rewrite (findAction_id _ _ _ Hf); reflexivity.
    + edestruct Haud as (? & ? & ? & ? & Hact & Hl); [reflexivity|reflexivity|].
      cbn in *; split6; auto; try exact Hl.
      right; right; exists id, (approved_record p pa u c now); split; [reflexivity|].
      rewrite approved_record_id, (findAction_id _ _ _ Hf); split; [reflexivity|].
      reflexivity.
  - pose proof (veto_inv f id u why ip now w) as Hc.
    destruct (vetoPendingAction f id u why ip now w) as [x w1]; injection Hr as <- <-.
    destruct Hc as [(e & -> & ->) | (pa & Hf & _ & -> & ->)].
    + destruct (Hsame e (conj eq_refl eq_refl)) as (? & ? & ? & ? & ? & Hact); split6; auto.
    + edestruct Haud as (? & ? & ? & ? & Hact & Hl); [reflexivity|reflexivity|].
      cbn in *; split6; auto; try exact Hl.
      right; right; exists id, (PendingAction.mark_vetoed u why now pa); split; [reflexivity|].
      split; [apply (findAction_id _ _ _ Hf)|].
      rewrite (findAction_id _ _ _ Hf); reflexivity.
  - pose proof (cancel_inv f id u ip now w) as Hc.
    destruct (cancelPendingAction f id u ip now w) as [x w1]; injection Hr as <- <-.
    destruct Hc as [(e & -> & ->) | (pa & Hf & _ & _ & -> & ->)].
    + destruct (Hsame e (conj eq_refl eq_refl)) as (? & ? & ? & ? & ? & Hact); split6; auto.
    + edestruct Haud as (? & ? & ? & ? & Hact & Hl); [reflexivity|reflexivity|].
      cbn in *; split6; auto; try exact Hl.
      right; right; exists id, (PendingAction.set_status Cancelled pa); split; [reflexivity|].
      split; [apply (findAction_id _ _ _ Hf)|].
      rewrite (findAction_id _ _ _ Hf); reflexivity.
Qed.

End ExtraWorkflow.

Section ExtraWorkflow2.
Context `{Runtime}.
Local Open Scope list_scope.

Lemma workflow_keeps (f : fault) (now : Z) (o : op) (w : world) :
  is_workflow o = true ->
  users (snd (run_op f now o w)) = users w /\ authUsers (snd (run_op f now o w)) = authUsers w
  /\ settings (snd (run_op f now o w)) = settings w
  /\ policies (snd (run_op f now o w)) = policies w.
Proof.
  intros Hw.
  destruct o as [t rq p why ip|id u c ip|id u why ip|id u ip| |]; cbn in Hw; try discriminate;
    unfold run_op.
  - pose proof (create_inv f t rq p why ip now w) as Hc.
    destruct (createPendingAction f t rq p why ip now w) as [x w1]; cbn.
    destruct Hc as [(e & _ & ->) | (pa & _ & _ & _ & _ & _ & _ & _ & _ & _ & ->)]; [auto|].
    cbn; auto.
  - pose proof (approve_cases f id u c ip now w) as Hc.
    destruct (approvePendingAction f id u c ip now w) as [x w1]; cbn.
    destruct Hc as [(e & _ & ->) | [(pa & _ & _ & _ & _ & ->) | (pa & p & _ & _ & _ & _ & _ & _ & ->)]];
      [auto | cbn; auto|].
    cbn; auto.
  - pose proof (veto_inv f id u why ip now w) as Hc.
    destruct (vetoPendingAction f id u why ip now w) as [x w1]; cbn.
    destruct Hc as [(e & _ & ->) | (pa & _ & _ & _ & ->)]; [auto|].
    cbn; auto.
  - pose proof (cancel_inv f id u ip now w) as Hc.
    destruct (cancelPendingAction f id u ip now w) as [x w1]; cbn.
    destruct Hc as [(e & _ & ->) | (pa & _ & _ & _ & _ & ->)]; [auto|].
    cbn; auto.
Qed.

Lemma bootstrap_cases (f : fault) (e p n ip : option string) (now : Z) (w : world) :
  let (r, w') := bootstrapAdmin f NoCrash e p n ip now w in
  actions w' = actions w
  /\ ((r <> Some 201 /\ users w' = users w /\ authUsers w' = authUsers w)
      \/ (r = Some 201 /\ exists fu w1 au w3, resolveFirebaseUser e p n w = Ok (fu, w1)
          /\ upsert_admin (Firebase.uid fu) e n (setCustomUserClaims (Firebase.uid fu) w1)
             = (au, w3)
          /\ users w' = users w3 /\ authUsers w' = authUsers w3)).
Proof.
  unfold bootstrapAdmin.
  destruct (isSystemBootstrapped w); [cbn; split; [|left; split; [discriminate|auto]]; reflexivity|].
  destruct (String.eqb (or_empty e) "" || String.eqb (or_empty p) "" || String.eqb (or_empty n) "");
    [split; [|left; split; [discriminate|auto]]; reflexivity|].
  destruct (resolveFirebaseUser e p n w) as [[fu w1]|msg] eqn:Hr;
    [|cbn; split; [|left; split; [discriminate|auto]]; reflexivity].
  cbn [crash_eqb].
  destruct (upsert_admin (Firebase.uid fu) e n (setCustomUserClaims (Firebase.uid fu) w1))
    as [au w3] eqn:Hu.
  destruct (resolve_world _ _ _ _ _ _ Hr) as (_ & _ & Ha & _).
  pose proof (upsert_admin_world (Firebase.uid fu) e n (setCustomUserClaims (Firebase.uid fu) w1))
    as (_ & Ha3 & _); rewrite Hu in Ha3; cbn in Ha3.
  cbn; split; [rewrite Ha3; exact Ha|].
  right; split; [reflexivity|]; exists fu, w1, au, w3; auto.
Qed.

Lemma recovery_cases (f : fault) (c t e p n ip : option string) (now : Z) (w : world) :
  let (r, w') := adminRecovery f c t e p n ip now w in
  actions w' = actions w
  /\ ((r <> Some 201 /\ users w' = users w /\ authUsers w' = authUsers w)
      \/ (r = Some 201 /\ exists fu w1 au w3, resolveFirebaseUser e p n w = Ok (fu, w1)
          /\ upsert_admin (Firebase.uid fu) e n (setCustomUserClaims (Firebase.uid fu) w1)
             = (au, w3)
          /\ users w' = users w3 /\ authUsers w' = authUsers w3)).
Proof.
  unfold adminRecovery.
  destruct c as [tok|]; [|split; [|left; split; [discriminate|auto]]; reflexivity].
  destruct (negb _); [cbn; split; [|left; split; [discriminate|auto]]; reflexivity|].
  destruct (resolveFirebaseUser e p n w) as [[fu w1]|msg] eqn:Hr;
    [|cbn; split; [|left; split; [discriminate|auto]]; reflexivity].
  destruct (upsert_admin (Firebase.uid fu) e n (setCustomUserClaims (Firebase.uid fu) w1))
    as [au w3] eqn:Hu.
  destruct (resolve_world _ _ _ _ _ _ Hr) as (_ & _ & Ha & _).
  pose proof (upsert_admin_world (Firebase.uid fu) e n (setCustomUserClaims (Firebase.uid fu) w1))
    as (_ & Ha3 & _); rewrite Hu in Ha3; cbn in Ha3.
  cbn; split; [rewrite Ha3; exact Ha|].
  right; split; [reflexivity|]; exists fu, w1, au, w3; auto.
Qed.

Lemma save_forall (P : PendingAction.t -> Prop) (l : list PendingAction.t) (a : PendingAction.t)
    (id : string) :
  Forall P l -> P a -> Forall P (map (fun x => if String.eqb (PendingAction._id x) id then a else x) l).
Proof.
  intros Hl Ha; induction Hl as [|x r Hx _ IH]; cbn; constructor; auto.
  destruct (String.eqb (PendingAction._id x) id); auto.
Qed.

Lemma set_status_ok (s : action_status) (pa : PendingAction.t) :
  action_ok pa -> s <> Pending -> s <> Approved -> s <> Executed -> s <> Reversed ->
  action_ok (PendingAction.set_status s pa).
Proof.
  unfold action_ok; cbn; intros (Hn & Hr & _ & _ & _ & _) H1 H2 H3 H4.
  repeat split; auto; intros E; congruence.
Qed.

Lemma mark_vetoed_ok (u why : string) (now : Z) (pa : PendingAction.t) :
  action_ok pa -> action_ok (PendingAction.mark_vetoed u why now pa).
Proof.
  unfold action_ok; cbn; intros (Hn & Hr & _ & _ & _ & _).
  repeat split; auto; discriminate.
Qed.

Lemma approved_record_ok (p : GovernancePolicy.t) (pa : PendingAction.t) (u c : string) (now : Z) :
  action_ok pa -> PendingAction.status pa = Pending -> PendingAction.hasUserApproved pa u = false ->
  action_ok (approved_record p pa u c now).
Proof.
  intros (Hn & Hr & _ & _ & _ & _) Hs Hd.
  assert (Hids : NoDup (approval_ids pa ++ [u])).
  { apply Permutation_NoDup with (u :: approval_ids pa);
      [apply Permutation_cons_append|].
    constructor; [|exact Hn].
    unfold approval_ids, PendingAction.hasUserApproved in *; intros Hin.
    apply in_map_iff in Hin; destruct Hin as (x & Hx & Hin).
    assert (existsb (fun x => String.eqb (Approval.userId x) u) (PendingAction.approvals pa) = true)
      by (apply existsb_exists; exists x; split; [exact Hin|apply String.eqb_eq; exact Hx]).
    congruence. }
  unfold approved_record, PendingAction.hasQuorum.
  destruct (Nat.leb _ _) eqn:Hq; unfold action_ok, approval_ids in *; cbn in *;
    rewrite map_app; cbn.
  - apply Nat.leb_le in Hq; repeat split; auto; discriminate.
  - apply Nat.leb_gt in Hq; rewrite Hs; repeat split; auto; discriminate.
Qed.

Lemma find_action_ok (w : world) (id : string) (pa : PendingAction.t) :
  Forall action_ok (actions w) -> findAction w id = Some pa -> action_ok pa.
Proof.
  intros Hok Hf; rewrite Forall_forall in Hok; apply Hok; exact (findAction_in _ _ _ Hf).
Qed.

Lemma run_op_actions_ok (f : fault) (now : Z) (o : op) (w : world) :
  Forall action_ok (actions w) -> Forall action_ok (actions (snd (run_op f now o w))).
Proof.
  intros Hok.
  destruct o as [t rq p why ip|id u c ip|id u why ip|id u ip|e p n ip|c t e p n ip];
    unfold run_op.
  - pose proof (create_inv f t rq p why ip now w) as Hc.
    destruct (createPendingAction f t rq p why ip now w) as [x w1]; cbn.
    destruct Hc as [(e & _ & ->) | (pa & _ & _ & Hs & _ & _ & _ & Ha & Hr & _ & ->)]; [auto|].
    cbn; apply Forall_app; split; [exact Hok|]; constructor; [|constructor].
    change (action_ok pa); unfold action_ok, approval_ids; rewrite Hs, Ha; cbn.
    repeat split; try constructor; try lia; discriminate.
  - pose proof (approve_cases f id u c ip now w) as Hc.
    destruct (approvePendingAction f id u c ip now w) as [x w1]; cbn.
    destruct Hc as [(e & _ & ->) | [(pa & Hf & Hs & _ & _ & ->) | (pa & p & Hf & Hs & _ & _ & Hd & _ & ->)]];
      [auto| |]; cbn; apply save_forall; auto.
    + apply set_status_ok; [exact (find_action_ok _ _ _ Hok Hf)|discriminate..].
    + apply approved_record_ok; [exact (find_action_ok _ _ _ Hok Hf)|exact Hs|exact Hd].
  - pose proof (veto_inv f id u why ip now w) as Hc.
    destruct (vetoPendingAction f id u why ip now w) as [x w1]; cbn.
    destruct Hc as [(e & _ & ->) | (pa & Hf & _ & _ & ->)]; [auto|].
    cbn; apply save_forall; auto; apply mark_vetoed_ok; exact (find_action_ok _ _ _ Hok Hf).
  - pose proof (cancel_inv f id u ip now w) as Hc.
    destruct (cancelPendingAction f id u ip now w) as [x w1]; cbn.
    destruct Hc as [(e & _ & ->) | (pa & Hf & _ & _ & _ & ->)]; [auto|].
    cbn; apply save_forall; auto.
    apply set_status_ok; [exact (find_action_ok _ _ _ Hok Hf)|discriminate..].
  - pose proof (bootstrap_cases f e p n ip now w) as Hc.
    destruct (bootstrapAdmin f NoCrash e p n ip now w) as [x w1]; cbn.
    destruct Hc as [-> _]; exact Hok.
  - pose proof (recovery_cases f c t e p n ip now w) as Hc.
    destruct (adminRecovery f c t e p n ip now w) as [x w1]; cbn.
    destruct Hc as [-> _]; exact Hok.
Qed.

(** X11. Every stored pending action keeps distinct approvers, at least one
    required approval, fewer approvals than required while pending and
    enough once approved, and is never marked executed or reversed: any
    sequence of requests, and the expiry sweep, keep this for all actions. *)
Theorem actions_stay_well_formed (reqs : list (fault * Z * op)) (now : Z) (w : world)
    (Hok : Forall action_ok (actions w)) :
  Forall action_ok (actions (run_ops reqs w))
  /\ Forall action_ok (actions (snd (expireStaleActions now w))).
Proof.
  split.
  - unfold run_ops; revert w Hok; induction reqs as [|[[f t] o] r IH]; intros w Hok; cbn; [exact Hok|].
    apply IH, run_op_actions_ok, Hok.
  - cbn; rewrite Forall_forall in Hok |- *; intros x Hx.
    apply in_map_iff in Hx; destruct Hx as (a & <- & Ha).
    destruct (stale now a); [|auto].
    apply set_status_ok; [auto|discriminate..].
Qed.

Lemma find_map_other (id j : string) (a : PendingAction.t) (l : list PendingAction.t) :
  PendingAction._id a = j -> j <> id ->
  find (fun x => String.eqb (PendingAction._id x) id)
       (map (fun x => if String.eqb (PendingAction._id x) j then a else x) l)
  = find (fun x => String.eqb (PendingAction._id x) id) l.
Proof.
  intros Ha Hne; induction l as [|x r IH]; cbn; [reflexivity|].
  destruct (String.eqb (PendingAction._id x) j) eqn:Ej.
  - apply String.eqb_eq in Ej.
    replace (String.eqb (PendingAction._id a) id) with false
      by (symmetry; apply String.eqb_neq; congruence).
    replace (String.eqb (PendingAction._id x) id) with false
      by (symmetry; apply String.eqb_neq; congruence).
    exact IH.
  - destruct (String.eqb (PendingAction._id x) id); [reflexivity|exact IH].
Qed.

Lemma find_app_some {A} (p : A -> bool) (l l' : list A) (x : A) :
  find p l = Some x -> find p (l ++ l') = Some x.
Proof.
  induction l as [|y r IH]; cbn; [discriminate|].
  destruct (p y); auto.
Qed.

(** X12. Once an approved action's scheduled execution time has come, no
    request at that time or later changes it: approve and cancel refuse it
    (it is not pending), veto refuses it (the delay has passed), and every
    other request leaves it where [findById] finds it. *)
Theorem approved_past_delay_frozen (f : fault) (now : Z) (o : op) (w : world) (id : string)
    (pa : PendingAction.t) (t : Z)
    (Hf : findAction w id = Some pa) (Hs : PendingAction.status pa = Approved)
    (Ht : PendingAction.scheduledExecutionAt pa = Some t) (Hle : (t <= now)%Z) :
  findAction (snd (run_op f now o w)) id = Some pa.
Proof.
  assert (Hsame : forall w', actions w' = actions w -> findAction w' id = Some pa)
    by (intros w' E; unfold findAction; rewrite E; exact Hf).
  assert (Hother : forall j a, PendingAction._id a = j ->
            findAction (save_action a w) id = Some pa \/ j = id).
  { intros j a Ha; destruct (String.eqb_spec j id) as [->|Hne]; [right; reflexivity|left].
    unfold save_action, findAction; cbn.
    rewrite (find_map_other id (PendingAction._id a) a); [exact Hf|reflexivity|congruence]. }
  destruct o as [t0 rq p why ip|id' u c ip|id' u why ip|id' u ip|e p n ip|c t0 e p n ip];
    unfold run_op.
  - pose proof (create_inv f t0 rq p why ip now w) as Hc.
    destruct (createPendingAction f t0 rq p why ip now w) as [x w1]; cbn.
    destruct Hc as [(e & _ & ->) | (pb & _ & _ & _ & _ & _ & _ & _ & _ & _ & ->)]; [exact Hf|].
    unfold findAction in *; cbn; apply find_app_some; exact Hf.
  - pose proof (approve_cases f id' u c ip now w) as Hc.
    destruct (approvePendingAction f id' u c ip now w) as [x w1]; cbn.
    destruct Hc as [(e & _ & ->) | [(pb & Hf' & Hs' & _ & _ & ->) | (pb & p & Hf' & Hs' & _ & _ & _ & _ & ->)]];
      [exact Hf| |]; cbn.
    + destruct (Hother id' (PendingAction.set_status Expired pb) ltac:(exact (findAction_id _ _ _ Hf')) ) as [Hk | ->]; [exact Hk|].
      rewrite Hf in Hf'; injection Hf' as <-; congruence.
    + change (findAction (save_action (approved_record p pb u c now) w) id = Some pa).
      destruct (Hother id' (approved_record p pb u c now) ltac:(rewrite approved_record_id; exact (findAction_id _ _ _ Hf')) ) as [Hk | ->]; [exact Hk|].
      rewrite Hf in Hf'; injection Hf' as <-; congruence.
  - pose proof (veto_inv f id' u why ip now w) as Hc.
    destruct (vetoPendingAction f id' u why ip now w) as [x w1]; cbn.
    destruct Hc as [(e & _ & ->) | (pb & Hf' & Hst & _ & ->)]; [exact Hf|].
    change (findAction (save_action (PendingAction.mark_vetoed u why now pb) w) id = Some pa).
    destruct (Hother id' (PendingAction.mark_vetoed u why now pb) ltac:(exact (findAction_id _ _ _ Hf')) ) as [Hk | ->]; [exact Hk|].
    rewrite Hf in Hf'; injection Hf' as <-.
    destruct Hst as [Hp|(_ & Hlt)]; [congruence|].
    specialize (Hlt t Ht); lia.
  - pose proof (cancel_inv f id' u ip now w) as Hc.
    destruct (cancelPendingAction f id' u ip now w) as [x w1]; cbn.
    destruct Hc as [(e & _ & ->) | (pb & Hf' & Hs' & _ & _ & ->)]; [exact Hf|].
    change (findAction (save_action (PendingAction.set_status Cancelled pb) w) id = Some pa).
    destruct (Hother id' (PendingAction.set_status Cancelled pb) ltac:(exact (findAction_id _ _ _ Hf')) ) as [Hk | ->]; [exact Hk|].
    rewrite Hf in Hf'; injection Hf' as <-; congruence.
  - pose proof (bootstrap_cases f e p n ip now w) as Hc.
    destruct (bootstrapAdmin f NoCrash e p n ip now w) as [x w1]; cbn.
    apply Hsame, Hc.
  - pose proof (recovery_cases f c t0 e p n ip now w) as Hc.
    destruct (adminRecovery f c t0 e p n ip now w) as [x w1]; cbn.
    apply Hsame, Hc.
Qed.

Lemma replace_first_active (p : User.t -> bool) (x : User.t) (l : list User.t) :
  is_active_admin x = true ->
  countActiveAdmins l <= countActiveAdmins (replace_first p x l).
Proof.
  unfold countActiveAdmins; intros Hx; induction l as [|y r IH]; cbn; [lia|].
  destruct (p y); cbn; rewrite ?Hx; cbn.
  - destruct (is_active_admin y); cbn; lia.
  - destruct (is_active_admin y); cbn; lia.
Qed.

Lemma replace_first_in (p : User.t -> bool) (x old : User.t) (l : list User.t) :
  find p l = Some old -> In x (replace_first p x l).
Proof.
  induction l as [|y r IH]; cbn; [discriminate|].
  destruct (p y); [left; reflexivity|intros Hf; right; auto].
Qed.

Lemma replace_first_linked (p : User.t -> bool) (x old : User.t) (l : list User.t) (uid : string) :
  find p l = Some old -> (forall y, p y = true -> User.firebaseUid y = Some uid) ->
  User.firebaseUid x = Some uid -> linked_uids (replace_first p x l) = linked_uids l.
Proof.
  intros Hf Hp Hx; induction l as [|y r IH]; cbn in *; [discriminate|].
  destruct (p y) eqn:Ey; cbn.
  - rewrite Hx, (Hp y Ey); reflexivity.
  - f_equal; auto.
Qed.

Lemma upsert_admin_spec (uid : string) (e n : option string) (w : world) :
  let (au, w3) := upsert_admin uid e n w in
  In au (users w3) /\ User.firebaseUid au = Some uid /\ User.email au = e
  /\ is_active_admin au = true
  /\ countActiveAdmins (users w) <= countActiveAdmins (users w3)
  /\ (NoDup (linked_uids (users w)) -> NoDup (linked_uids (users w3))).
Proof.
  unfold upsert_admin.
  set (matches := fun u : User.t => match User.firebaseUid u with
                                    | Some x => String.eqb x uid | None => false end).
  destruct (find matches (users w)) as [old|] eqn:Hf; cbn.
  - split; [eapply replace_first_in; exact Hf|].
    split; [reflexivity|]; split; [reflexivity|]; split; [reflexivity|].
    split; [apply replace_first_active; reflexivity|].
    intros Hn; rewrite (replace_first_linked _ _ old _ uid); [exact Hn|exact Hf| |reflexivity].
    unfold matches; intros y Hy; destruct (User.firebaseUid y) as [x|]; [|discriminate].
    apply String.eqb_eq in Hy; subst x; reflexivity.
  - split; [apply in_or_app; right; left; reflexivity|].
    split; [reflexivity|]; split; [reflexivity|]; split; [reflexivity|].
    split; [unfold countActiveAdmins; rewrite filter_app, length_app; lia|].
    intros Hn; unfold linked_uids; rewrite flat_map_app; cbn.
    apply Permutation_NoDup with (uid :: linked_uids (users w));
      [apply Permutation_cons_append|].
    constructor; [|exact Hn].
    unfold linked_uids; intros Hin; apply in_flat_map in Hin; destruct Hin as (y & Hy & Hx).
    destruct (User.firebaseUid y) as [x|] eqn:Ey; [|destruct Hx].
    destruct Hx as [<-|[]].
    assert (Hm : matches y = true) by (unfold matches; rewrite Ey; apply String.eqb_refl).
    clear -Hf Hy Hm; induction (users w) as [|z r IH]; [destruct Hy|].
    cbn in Hf; destruct Hy as [->|Hy]; [rewrite Hm in Hf; discriminate|].
    destruct (matches z); [discriminate|auto].
Qed.

Lemma claims_emails (uid : string) (w : world) :
  map Firebase.email (authUsers (setCustomUserClaims uid w)) = map Firebase.email (authUsers w).
Proof.
  unfold setCustomUserClaims; cbn; rewrite map_map; apply map_ext; intros a.
  destruct (String.eqb (Firebase.uid a) uid); reflexivity.
Qed.

Lemma resolve_emails (e p n : option string) (w w1 : world) (fu : Firebase.user) :
  resolveFirebaseUser e p n w = Ok (fu, w1) ->
  NoDup (map Firebase.email (authUsers w)) -> NoDup (map Firebase.email (authUsers w1)).
Proof.
  unfold resolveFirebaseUser; destruct e as [em|]; [|discriminate].
  destruct (negb (is_email em)); [discriminate|].
  destruct (find (fun u => String.eqb (lower (Firebase.email u)) (lower em)) (authUsers w))
    as [u|] eqn:Hf.
  - intros E; injection E as <- <-; auto.
  - destruct (Nat.ltb _ 6); [discriminate|].
    intros E; injection E as <- <-; cbn; intros Hn.
    rewrite map_app; cbn.
    apply Permutation_NoDup with (lower em :: map Firebase.email (authUsers w));
      [apply Permutation_cons_append|].
    constructor; [|exact Hn].
    intros Hin; apply in_map_iff in Hin; destruct Hin as (y & Hy & Hin).
    clear -Hf Hy Hin; induction (authUsers w) as [|z r IH]; [destruct Hin|].
    cbn in Hf; destruct Hin as [->|Hin].
    + rewrite Hy, lower_idem, String.eqb_refl in Hf; discriminate.
    + destruct (String.eqb (lower (Firebase.email z)) (lower em)); [discriminate|auto].
Qed.

Lemma admin_request_step (f : fault) (now : Z) (o : op) (w : world) :
  countActiveAdmins (users w) <= countActiveAdmins (users (snd (run_op f now o w)))
  /\ (NoDup (map Firebase.email (authUsers w)) ->
      NoDup (map Firebase.email (authUsers (snd (run_op f now o w)))))
  /\ (NoDup (linked_uids (users w)) -> NoDup (linked_uids (users (snd (run_op f now o w))))).
Proof.
  destruct (is_workflow o) eqn:Hw.
  - destruct (workflow_keeps f now o w Hw) as (-> & -> & _); auto.
  - assert (Hgen : forall w' r, (actions w' = actions w
      /\ ((r <> Some 201 /\ users w' = users w /\ authUsers w' = authUsers w)
          \/ (r = Some 201 /\ exists e p n fu w1 au w3, resolveFirebaseUser e p n w = Ok (fu, w1)
              /\ upsert_admin (Firebase.uid fu) e n (setCustomUserClaims (Firebase.uid fu) w1)
                 = (au, w3)
              /\ users w' = users w3 /\ authUsers w' = authUsers w3))) ->
      countActiveAdmins (users w) <= countActiveAdmins (users w')
      /\ (NoDup (map Firebase.email (authUsers w)) -> NoDup (map Firebase.email (authUsers w')))
      /\ (NoDup (linked_uids (users w)) -> NoDup (linked_uids (users w')))).
    { intros w' r (_ & [(_ & -> & ->) | (_ & e & p & n & fu & w1 & au & w3 & Hr & Hu & -> & ->)]);
        [auto|].
      pose proof (upsert_admin_spec (Firebase.uid fu) e n (setCustomUserClaims (Firebase.uid fu) w1))
        as Hs; rewrite Hu in Hs; destruct Hs as (_ & _ & _ & _ & Hc & Hl).
      destruct (resolve_world _ _ _ _ _ _ Hr) as (Hus & _).
      pose proof (upsert_admin_world (Firebase.uid fu) e n (setCustomUserClaims (Firebase.uid fu) w1))
        as (_ & _ & _ & _ & Ha); rewrite Hu in Ha; cbn [snd] in Ha.
      cbn in Hc, Hl; rewrite Hus in Hc, Hl.
      split; [exact Hc|]; split; [|exact Hl].
      intros Hn; rewrite Ha, claims_emails; exact (resolve_emails _ _ _ _ _ _ Hr Hn). }
    destruct o as [| | | |e p n ip|c t e p n ip]; cbn in Hw; try discriminate; unfold run_op.
    + pose proof (bootstrap_cases f e p n ip now w) as Hc.
      destruct (bootstrapAdmin f NoCrash e p n ip now w) as [x w1]; cbn.
      apply (Hgen w1 x).
      destruct Hc as [Ha [Hn | (Hx & fu & w2 & au & w3 & Hr & Hu & Hus & Hau)]]; split; auto.
      right; split; [exact Hx|]; exists e, p, n, fu, w2, au, w3; auto.
    + pose proof (recovery_cases f c t e p n ip now w) as Hc.
      destruct (adminRecovery f c t e p n ip now w) as [x w1]; cbn.
      apply (Hgen w1 x).
      destruct Hc as [Ha [Hn | (Hx & fu & w2 & au & w3 & Hr & Hu & Hus & Hau)]]; split; auto.
      right; split; [exact Hx|]; exists e, p, n, fu, w2, au, w3; auto.
Qed.

(** X14. If identity emails are distinct and no two local accounts are
    linked to the same identity uid, every sequence of requests keeps both:
    an identity is created only for an email that has none, and an account
    is added only for a uid that no account is linked to. *)
Theorem identity_links_stay_unique (reqs : list (fault * Z * op)) (w : world)
    (He : NoDup (map Firebase.email (authUsers w)))
    (Hl : NoDup (linked_uids (users w))) :
  NoDup (map Firebase.email (authUsers (run_ops reqs w)))
  /\ NoDup (linked_uids (users (run_ops reqs w))).
Proof.
  unfold run_ops; revert w He Hl; induction reqs as [|[[f t] o] r IH]; intros w He Hl; cbn;
    [auto|].
  destruct (admin_request_step f t o w) as (_ & Ha & Hb).
  apply IH; auto.
Qed.

Lemma grant_admin (e p n : option string) (w w1 w3 : world) (fu : Firebase.user) (au : User.t)
    (Hr : resolveFirebaseUser e p n w = Ok (fu, w1))
    (Hu : upsert_admin (Firebase.uid fu) e n (setCustomUserClaims (Firebase.uid fu) w1) = (au, w3)) :
  exists em fu' u, e = Some em /\ lower (Firebase.email fu') = lower em
    /\ In fu' (authUsers w3) /\ Firebase.claimsRole fu' = Some "admin"
    /\ In u (users w3) /\ User.firebaseUid u = Some (Firebase.uid fu')
    /\ User.email u = e /\ is_active_admin u = true.
Proof.
  destruct (resolve_again e p n w w1 fu Hr) as (_ & Hf & _).
  destruct e as [em|]; [|revert Hr; unfold resolveFirebaseUser; discriminate].
  destruct (find_some _ _ Hf) as [Hin0 Hm]; apply String.eqb_eq in Hm; cbn in Hm.
  pose proof (upsert_admin_spec (Firebase.uid fu) (Some em) n (setCustomUserClaims (Firebase.uid fu) w1))
    as Hs; rewrite Hu in Hs; destruct Hs as (Hin & Huid & Hem & Hact & _).
  pose proof (upsert_admin_world (Firebase.uid fu) (Some em) n (setCustomUserClaims (Firebase.uid fu) w1))
    as (_ & _ & _ & _ & Ha); rewrite Hu in Ha; cbn [snd] in Ha.
  exists em, (with_admin_claim fu), au.
  split; [reflexivity|]; split; [exact Hm|].
  split.
  { rewrite Ha; unfold setCustomUserClaims; cbn [authUsers with_authUsers].
    apply in_map_iff; exists fu; rewrite String.eqb_refl; split; [reflexivity|].
    exact Hin0. }
  split; [reflexivity|]; split; [exact Hin|]; split; [exact Huid|]; auto.
Qed.

(** X15. A bootstrap or recovery request answering 201 leaves an identity
    whose email equals the requested email up to letter case and carries
    the admin claim, and an active admin account with the requested email
    linked to it. *)
Theorem admin_grant_on_201 (f : fault) (now : Z) (c t e p n ip : option string) (w w' : world)
    (H201 : run_op f now (OpBootstrap e p n ip) w = (RHttp (Some 201), w')
            \/ run_op f now (OpRecovery c t e p n ip) w = (RHttp (Some 201), w')) :
  exists em fu u, e = Some em /\ lower (Firebase.email fu) = lower em
    /\ In fu (authUsers w') /\ Firebase.claimsRole fu = Some "admin"
    /\ In u (users w') /\ User.firebaseUid u = Some (Firebase.uid fu)
    /\ User.email u = e /\ is_active_admin u = true.
Proof.
  destruct H201 as [Hb|Hb]; unfold run_op in Hb.
  - pose proof (bootstrap_cases f e p n ip now w) as Hc.
    destruct (bootstrapAdmin f NoCrash e p n ip now w) as [x w1]; injection Hb as -> <-.
    destruct Hc as [_ [(Hn & _) | (_ & fu & w2 & au & w3 & Hr & Hu & -> & ->)]];
      [congruence|].
    exact (grant_admin e p n w w2 w3 fu au Hr Hu).
  - pose proof (recovery_cases f c t e p n ip now w) as Hc.
    destruct (adminRecovery f c t e p n ip now w) as [x w1]; injection Hb as -> <-.
    destruct Hc as [_ [(Hn & _) | (_ & fu & w2 & au & w3 & Hr & Hu & -> & ->)]];
      [congruence|].
    exact (grant_admin e p n w w2 w3 fu au Hr Hu).
Qed.

Lemma find_save (w : world) (id : string) (pa a : PendingAction.t) :
  findAction w id = Some pa -> PendingAction._id a = id -> findAction (save_action a w) id = Some a.
Proof.
  unfold findAction, save_action; cbn; intros Hf Ha; rewrite Ha.
  induction (actions w) as [|x r IH]; cbn in *; [discriminate|].
  destruct (String.eqb (PendingAction._id x) id) eqn:Ex; cbn.
  - rewrite Ha, String.eqb_refl; reflexivity.
  - rewrite Ex; auto.
Qed.

(** X16. [POST /pending-actions] answers 201 or 400. On 201 exactly one
    action is added, at the end of the store: pending, without approvals,
    requested by the caller, with the given type, a fresh id, and the given
    payload as saving stores it. On 400 the store is exactly as before: no
    action and no audit entry. *)
Theorem createRoute_outcome (f : fault) (me : string) (actionType : option string)
    (payload : jvalue) (reason : option string) (ip : option string) (now : Z) (w : world) :
  let (code, w') := createRoute f me actionType payload reason ip now w in
  (code = 201 /\ exists pa t, actionType = Some t
     /\ actions w' = actions w ++ [pa]
     /\ PendingAction._id pa = oid (nextId w) /\ PendingAction.status pa = Pending
     /\ PendingAction.approvals pa = [] /\ PendingAction.requestedBy pa = me
     /\ PendingAction.actionType pa = t /\ PendingAction.actionPayload pa = stored payload
     /\ users w' = users w /\ policies w' = policies w)
  \/ (code = 400 /\ w' = w).
Proof.
  unfold createRoute.
  destruct (String.eqb (or_empty actionType) "" || negb (truthy payload)
            || String.eqb (or_empty reason) "") eqn:Hv; [right; auto|].
  pose proof (create_inv f (or_empty actionType) me payload (or_empty reason) ip now w) as Hc.
  destruct (createPendingAction f (or_empty actionType) me payload (or_empty reason) ip now w)
    as [x w1].
  destruct Hc as [(e & -> & ->) | (pa & -> & Hid & Hs & Hrq & Ht & Hp & Ha & _ & _ & ->)];
    [right; auto|].
  left; split; [reflexivity|].
  exists (PendingAction.with_payload (stored payload) pa), (or_empty actionType).
  split.
  { destruct actionType as [s|]; [reflexivity|].
    cbn in Hv; discriminate. }
  cbn; auto 10.
Qed.

(** X17. [POST /pending-actions/:id/approve] answers 200 or 400. On 200 the
    returned action is the one now stored under the id, its message says
    quorum reached exactly when it is approved and approval recorded
    exactly when it is still pending. On 400 accounts, policies, identities
    and the audit ledger are unchanged and no action is approved. *)
Theorem approveRoute_outcome (f : fault) (id me : string) (comment : option string)
    (ip : option string) (now : Z) (w : world) :
  let '(code, body, w') := approveRoute f id me comment ip now w in
  (code = 200 /\ exists m a, body = Some (m, a) /\ findAction w' id = Some a
     /\ (m = QuorumReachedMessage <-> PendingAction.status a = Approved)
     /\ (m = ApprovalRecordedMessage <-> PendingAction.status a = Pending))
  \/ (code = 400 /\ body = None /\ users w' = users w /\ policies w' = policies w
      /\ authUsers w' = authUsers w /\ ledger w' = ledger w
      /\ (w' = w \/ exists pa, findAction w id = Some pa /\ PendingAction.isExpired now pa = true
                               /\ w' = save_action (PendingAction.set_status Expired pa) w)).
Proof.
  unfold approveRoute.
  pose proof (approve_cases f id me (or_empty comment) ip now w) as Hc.
  destruct (approvePendingAction f id me (or_empty comment) ip now w) as [x w1].
  destruct Hc as [(e & -> & ->) | [(pa & Hf & _ & Hx & -> & ->) | (pa & p & Hf & Hs & _ & _ & _ & -> & ->)]].
  - right; repeat split; auto.
  - right; split; [reflexivity|]; split; [reflexivity|]; cbn; repeat split; auto.
    right; exists pa; auto.
  - left; split; [reflexivity|].
    set (a := approved_record p pa me (or_empty comment) now).
    exists (if PendingAction.hasQuorum a then QuorumReachedMessage else ApprovalRecordedMessage), a.
    split; [reflexivity|].
    split.
    { change (findAction (save_action a w) id = Some a).
      apply (find_save w id pa a Hf).
      unfold a; rewrite approved_record_id; exact (findAction_id _ _ _ Hf). }
    assert (Hq : PendingAction.hasQuorum a = true /\ PendingAction.status a = Approved
                 \/ PendingAction.hasQuorum a = false /\ PendingAction.status a = Pending).
    { unfold a, approved_record.
      destruct (PendingAction.hasQuorum (PendingAction.push_approval _ pa)) eqn:Hq; [left|right];
        split; auto. }
    destruct Hq as [(-> & ->) | (-> & ->)]; split; split; congruence.
Qed.

End ExtraWorkflow2.

(** * Witnesses and counterexamples on concrete inputs *)

Import Demo.




Lemma appendAuditLog_entry_fields_witness :
  let l := Ledger.run_appends [Demo.call "A" JNull 1] [] in
  exists e l',
    Forall (fun x => AuditLog.entryHash x <> "") l
    /\ AuditLog.appendAuditLog NoFault "B" "GOVERNANCE" (JObj []) None None None 5 l
       = (Some e, l')
    /\ AuditLog.sequenceNumber e = 2
    /\ AuditLog.entryHash e
       = sha256hex (String.concat "|" [
           AuditLog.previousHash e; "B"; "GOVERNANCE"; ""; "SYSTEM"; "{}"; "";
           toISOString 5; "2"]).
Proof.
  intros l.
  destruct (AuditLog.appendAuditLog NoFault "B" "GOVERNANCE" (JObj []) None None None 5 l)
    as [[e|] l'] eqn:Happ; [|vm_compute in Happ; discriminate].
  exists e, l'.
  assert (Hne : Forall (fun x => AuditLog.entryHash x <> "") l).
  { vm_compute; constructor; [intros E; discriminate E | constructor]. }
  destruct (appendAuditLog_entry_fields NoFault "B" "GOVERNANCE" (JObj []) None None None 5
              l l' e Hne Happ) as (_ & Hs & _ & _ & Hh).
  assert (Hs2 : AuditLog.sequenceNumber e = 2) by (rewrite Hs; vm_compute; reflexivity).
  split; [exact Hne|]; split; [reflexivity|]; split; [exact Hs2|].
  rewrite Hh, Hs2; reflexivity.
Defined.

Lemma appendAuditLog_entry_fields_counterexample :
  match AuditLog.appendAuditLog NoFault "A" "GOVERNANCE" JNull None None None 0 [] with
  | (Some e, _) => AuditLog.entryHash e <> sha256hex (Ledger.claimed_hash_input e)
  | (None, _) => False
  end.
Proof. vm_compute; discriminate. Qed.


Lemma lockout_guard_last_admin_witness :
  is_admin_action "DELETE_ADMIN" = true
  /\ read_field (Demo.target 1) "targetUserId" = Ok (JStr (oid 1))
  /\ findUserById (users W1) (JStr (oid 1)) = Ok (Some (Demo.account 1 "admin" "active"))
  /\ is_active_admin (Demo.account 1 "admin" "active") = true
  /\ (Z.of_nat (countActiveAdmins (users W1)) - 1 < MIN_ACTIVE_ADMINS)%Z
  /\ createPendingAction NoFault "DELETE_ADMIN" (oid 1) (Demo.target 1) "r" None 0%Z W1
     = (Err LockoutViolation, W1).
Proof.
  assert (Ht : is_admin_action "DELETE_ADMIN" = true) by reflexivity.
  assert (Hp : read_field (Demo.target 1) "targetUserId" = Ok (JStr (oid 1))) by reflexivity.
  assert (Hu : findUserById (users W1) (JStr (oid 1)) = Ok (Some (Demo.account 1 "admin" "active")))
    by (vm_compute; reflexivity).
  assert (Ha : is_active_admin (Demo.account 1 "admin" "active") = true) by reflexivity.
  assert (Hn : (Z.of_nat (countActiveAdmins (users W1)) - 1 < MIN_ACTIVE_ADMINS)%Z)
    by (vm_compute; reflexivity).
  destruct (lockout_guard_last_admin NoFault W1 "DELETE_ADMIN" (Demo.target 1) (JStr (oid 1))
              (Demo.account 1 "admin" "active") Ht Hp Hu Ha Hn) as [Hcreate _].
  specialize (Hcreate (oid 1) "r" None 0%Z); revert Hcreate.
  destruct (createPendingAction NoFault "DELETE_ADMIN" (oid 1) (Demo.target 1) "r" None 0%Z W1)
    as [r w'] eqn:E; intros Hcreate.
  destruct Hcreate as (-> & e & -> & _ & Hlock).
  do 5 (split; [assumption|]).
  rewrite (Hlock (default_policy "DELETE_ADMIN" "Delete an administrator account" 2 false 300 3600)
                 (Demo.account 1 "admin" "active")); [reflexivity | | |];
    vm_compute; reflexivity.
Defined.

(** The sole active admin is the target, and the action has expired. *)
Lemma lockout_guard_last_admin_counterexample :
  let w := Demo.world_of [Demo.account 1 "admin" "active"; Demo.account 2 "admin" "suspended"]
             DEFAULT_POLICIES [Demo.pending "DELETE_ADMIN" 2 (Demo.target 1) 2 [] 1000] in
  countActiveAdmins (users w) = 1
  /\ fst (approvePendingAction NoFault (oid 50) (oid 1) "ok" None 2000 w) = Err ActionExpired
  /\ map PendingAction.status (actions w) = [Pending]
  /\ map PendingAction.status (actions (snd (approvePendingAction NoFault (oid 50) (oid 1) "ok"
                                             None 2000 w))) = [Expired]
  /\ fst (createPendingAction NoFault "DELETE_ADMIN" (oid 1) (Demo.target 1) "r" None 0
            (with_policies [] w)) = Err PolicyNotFound.
Proof. vm_compute; repeat split. Qed.


Lemma approve_quorum_rule_witness :
  findAction W2 (oid 50) = Some (Demo.pending "DELETE_ADMIN" 1 (Demo.target 3) 2 [] 1000)
  /\ (exists pa2 w', approvePendingAction NoFault (oid 50) (oid 2) "ok" None 10 W2
                     = (Ok pa2, w')
                     /\ PendingAction.approvals pa2
                        = [{| Approval.userId := oid 2; Approval.approvedAt := 10;
                              Approval.comment := "ok" |}]
                     /\ PendingAction.status pa2 <> Approved
                     /\ NoDup (map Approval.userId (PendingAction.approvals pa2))).
Proof.
  assert (Hf : findAction W2 (oid 50)
               = Some (Demo.pending "DELETE_ADMIN" 1 (Demo.target 3) 2 [] 1000))
    by (vm_compute; reflexivity).
  split; [exact Hf|].
  destruct (approve_quorum_rule NoFault (oid 50) (oid 2) "ok" None 10 W2 _ Hf) as [Hok _].
  destruct (approvePendingAction NoFault (oid 50) (oid 2) "ok" None 10 W2) as [[pa2|e] w'] eqn:E;
    [|vm_compute in E; discriminate E].
  exists pa2, w'.
  destruct (Hok pa2 w' eq_refl) as (_ & _ & Happ & _ & _ & Hst & Hnd).
  split; [reflexivity|]; split; [exact Happ|]; split.
  - rewrite Hst, Happ; cbn; lia.
  - apply Hnd; cbn; constructor.
Defined.

(** [SYSTEM_RECOVERY] allows self approval and needs one approval: the
    requestor's own approval reaches the quorum. *)
Lemma approve_quorum_rule_counterexample :
  let w := Demo.world_of [Demo.account 1 "admin" "active"] DEFAULT_POLICIES
             [Demo.pending "SYSTEM_RECOVERY" 1 (JObj []) 1 [] 1000] in
  match fst (approvePendingAction NoFault (oid 50) (oid 1) "ok" None 10 w) with
  | Ok pa2 => PendingAction.status pa2 = Approved
              /\ map Approval.userId (PendingAction.approvals pa2) = [PendingAction.requestedBy pa2]
  | Err _ => False
  end.
Proof. vm_compute; split; reflexivity. Qed.

Lemma approve_rejects_self_approval_witness :
  findAction W2 (oid 50) = Some (Demo.pending "DELETE_ADMIN" 1 (Demo.target 3) 2 [] 1000)
  /\ (forall p, getPolicy W2 "DELETE_ADMIN" = Some p ->
                GovernancePolicy.selfApprovalAllowed p = false)
  /\ (exists e, fst (approvePendingAction NoFault (oid 50) (oid 1) "ok" None 10 W2) = Err e)
  /\ snd (approvePendingAction NoFault (oid 50) (oid 1) "ok" None 10 W2) = W2.
Proof.
  assert (Hf : findAction W2 (oid 50)
               = Some (Demo.pending "DELETE_ADMIN" 1 (Demo.target 3) 2 [] 1000))
    by (vm_compute; reflexivity).
  assert (Hp : forall p, getPolicy W2 "DELETE_ADMIN" = Some p ->
                         GovernancePolicy.selfApprovalAllowed p = false).
  { intros p E; vm_compute in E; injection E as <-; reflexivity. }
  pose proof (approve_rejects_self_approval NoFault (oid 50) "ok" None 10 W2 _ Hf Hp) as Hs.
  cbn [Demo.pending PendingAction.requestedBy] in Hs.
  destruct (approvePendingAction NoFault (oid 50) (oid 1) "ok" None 10 W2) as [r w'] eqn:E.
  destruct Hs as ((e & ->) & Hw).
  split; [exact Hf|]; split; [exact Hp|]; split; [exists e; reflexivity|].
  cbn; destruct Hw as [-> | ->]; [reflexivity|].
  vm_compute in E; discriminate E.
Defined.






Lemma approve_reads_current_policy_witness :
  (forall pa, findAction W4 (oid 50) = Some pa ->
     option_map approval_view (getPolicy W4 (PendingAction.actionType pa))
     = option_map approval_view
         (getPolicy (with_policies (delete_admin_policy 5 300) W4) (PendingAction.actionType pa)))
  /\ fst (approvePendingAction NoFault (oid 50) (oid 3) "ok" None 10
            (with_policies (delete_admin_policy 5 300) W4))
     = fst (approvePendingAction NoFault (oid 50) (oid 3) "ok" None 10 W4).
Proof.
  assert (Hv : forall pa, findAction W4 (oid 50) = Some pa ->
     option_map approval_view (getPolicy W4 (PendingAction.actionType pa))
     = option_map approval_view
         (getPolicy (with_policies (delete_admin_policy 5 300) W4) (PendingAction.actionType pa))).
  { intros pa E; vm_compute in E; injection E as <-; vm_compute; reflexivity. }
  split; [exact Hv|].
  rewrite (approve_reads_current_policy NoFault (oid 50) (oid 3) "ok" None 10 W4 _ Hv).
  destruct (approvePendingAction NoFault (oid 50) (oid 3) "ok" None 10 W4); reflexivity.
Defined.

(** After creation, a longer execution delay in the policy moves the
    scheduled execution of the approval that reaches the quorum, and a
    disabled policy makes the approval fail. *)
Lemma approve_reads_current_policy_counterexample :
  fst (approvePendingAction NoFault (oid 50) (oid 3) "ok" None 10
         (with_policies (delete_admin_policy 2 600) W4))
  <> fst (approvePendingAction NoFault (oid 50) (oid 3) "ok" None 10 W4)
  /\ fst (approvePendingAction NoFault (oid 50) (oid 3) "ok" None 10 (with_policies [] W4))
     = Err PolicyNotFound.
Proof. vm_compute; split; [discriminate | reflexivity]. Qed.

Lemma missing_target_passes_gate_witness :
  findUserById (users W4) (JArr []) = Ok None
  /\ lockout_gate "DELETE_ADMIN" (JObj [("targetUserId", JArr [])]) W4 = (Ok tt, W4).
Proof.
  assert (Hm : findUserById (users W4) (JArr []) = Ok None) by (vm_compute; reflexivity).
  split; [exact Hm|].
  apply (proj1 (proj2 (missing_target_passes_gate (users W4) (JArr []) Hm))); reflexivity.
Defined.

(** A target id that is not an ObjectId makes the cast, hence the request,
    fail although it names no account. *)
Lemma missing_target_passes_gate_counterexample :
  findUser (users W4) "nobody" = None
  /\ checkAdminCountSafety (users W4) (JStr "nobody") = Err CastError
  /\ fst (createPendingAction NoFault "DELETE_ADMIN" (oid 1)
            (JObj [("targetUserId", JStr "nobody")]) "r" None 0 W4) = Err CastError.
Proof. vm_compute; repeat split. Qed.


Lemma bootstrap_lock_idempotent_witness :
  isSystemBootstrapped W0 = false
  /\ count_admins (users W0) = 0
  /\ (exists w1, bootstrapAdmin NoFault NoCrash (Some "a@x.io") (Some "secret1") (Some "Ada")
                   None 1 W0 = (Some 201, w1)
                 /\ fst (bootstrapAdmin NoFault NoCrash (Some "b@x.io") (Some "secret2")
                           (Some "Bob") None 2 w1) = Some 409
                 /\ count_admins (users (snd (bootstrapAdmin NoFault NoCrash (Some "b@x.io")
                                                (Some "secret2") (Some "Bob") None 2 w1))) = 1)
  /\ bootstrapAdmin NoFault NoCrash (Some "a@x.io") (Some "secret1") (Some "Ada") None 3
       (snd (bootstrapAdmin NoFault CrashAfterClaims (Some "a@x.io") (Some "secret1")
               (Some "Ada") None 1 W0))
     = bootstrapAdmin NoFault NoCrash (Some "a@x.io") (Some "secret1") (Some "Ada") None 3 W0.
Proof.
  destruct bootstrap_lock_idempotent as (_ & _ & Htwo & Hretry).
  assert (Hb : isSystemBootstrapped W0 = false) by reflexivity.
  assert (H0 : count_admins (users W0) = 0) by (vm_compute; reflexivity).
  split; [exact Hb|]; split; [exact H0|]; split.
  - destruct (bootstrapAdmin NoFault NoCrash (Some "a@x.io") (Some "secret1") (Some "Ada")
                None 1 W0) as [r1 w1] eqn:E1.
    assert (Hr1 : r1 = Some 201) by (vm_compute in E1; injection E1 as <- _; reflexivity).
    subst r1; exists w1; split; [reflexivity|].
    pose proof (Htwo NoFault NoFault NoCrash (Some "a@x.io") (Some "secret1") (Some "Ada") None
                  (Some "b@x.io") (Some "secret2") (Some "Bob") None 1%Z 2%Z W0 w1 Hb H0 E1) as H2.
    destruct (bootstrapAdmin NoFault NoCrash (Some "b@x.io") (Some "secret2") (Some "Bob")
                None 2 w1) as [r2 w2].
    destruct H2 as (-> & _ & Hc); split; [reflexivity | exact Hc].
  - destruct (bootstrapAdmin NoFault CrashAfterClaims (Some "a@x.io") (Some "secret1")
                (Some "Ada") None 1 W0) as [r w1] eqn:E.
    assert (Hr : r = None) by (vm_compute in E; injection E as <- _; reflexivity).
    subst r.
    exact (Hretry NoFault CrashAfterClaims _ _ _ None 1%Z 3%Z W0 w1 (or_intror eq_refl) E).
Defined.

Lemma appendAuditLog_passes_verifyIntegrity_witness :
  let (o, l') := AuditLog.appendAuditLog NoFault "PENDING_ACTION_CREATED" "GOVERNANCE" (JObj [])
                   (Some "10.0.0.1") None None 1 [] in
  exists e, o = Some e /\ l' = [AuditLog.stored_entry e]
            /\ AuditLog.verifyIntegrity (AuditLog.stored_entry e) = true.
Proof.
  destruct (AuditLog.appendAuditLog NoFault "PENDING_ACTION_CREATED" "GOVERNANCE" (JObj [])
              (Some "10.0.0.1") None None 1 []) as [[e|] l'] eqn:E;
    [|vm_compute in E; discriminate].
  exists e; split; [reflexivity|].
  destruct (appendAuditLog_passes_verifyIntegrity _ _ _ _ _ _ _ _ _ _ _ E) as (Hl & _ & Hs & _).
  split; [exact Hl|]; apply Hs; vm_compute; reflexivity.
Defined.

Lemma checkAdminCountSafety_unsafe_iff_witness :
  exists s, checkAdminCountSafety (users W1) (JStr (oid 1)) = Ok s
  /\ currentCount s = countActiveAdmins (users W1) /\ wouldRemove s <= 1
  /\ (safe s = false <->
      exists u, findUserById (users W1) (JStr (oid 1)) = Ok (Some u)
                /\ is_active_admin u = true /\ countActiveAdmins (users W1) = 1).
Proof.
  destruct (checkAdminCountSafety (users W1) (JStr (oid 1))) as [s|m] eqn:E;
    [|vm_compute in E; discriminate].
  exists s; split; [reflexivity|].
  exact (checkAdminCountSafety_unsafe_iff _ _ _ E).
Defined.

Lemma adminSafety_agrees_with_lockout_witness :
  (exists s, checkAdminCountSafety (users W2) (JStr (oid 1)) = Ok s
             /\ safe s = negb (isAtMinimum (adminSafety (users W2))))
  /\ (isAtMinimum (adminSafety (users W2)) = true -> safetyMargin (adminSafety (users W2)) = 0%Z).
Proof.
  exact (adminSafety_agrees_with_lockout (users W2) (account 1 "admin" "active")
           ltac:(vm_compute; reflexivity) ltac:(vm_compute; reflexivity) eq_refl).
Defined.

Lemma listPendingActions_lists_live_witness :
  (forall l : list PendingAction.t, Permutation (rev l) l)
  /\ let (listed, w') := listPendingActions (@rev PendingAction.t) 2000 W4 in
     Permutation listed
       (filter (fun a => status_eqb (PendingAction.status a) Approved
                         || status_eqb (PendingAction.status a) Pending
                            && negb (PendingAction.isExpired 2000 a)) (actions W4))
     /\ w' = snd (expireStaleActions 2000 W4).
Proof.
  assert (Hs : forall l : list PendingAction.t, Permutation (rev l) l)
    by (intros l; apply Permutation_sym, Permutation_rev).
  split; [exact Hs|].
  exact (listPendingActions_lists_live (@rev PendingAction.t) Hs 2000 W4).
Defined.

Lemma workflow_request_frame_witness :
  exists r w', run_op NoFault 10 (OpCancel (oid 50) (oid 2) None) W1 = (r, w')
  /\ users w' = users W1 /\ policies w' = policies W1 /\ settings w' = settings W1
  /\ authUsers w' = authUsers W1
  /\ (exists extra, ledger w' = (ledger W1 ++ extra)%list /\ length extra <= 1
                    /\ (forall e, r = RAction (Err e) -> extra = []))
  /\ (actions w' = actions W1
      \/ (exists pa, op_target (OpCancel (oid 50) (oid 2) None) = None
                     /\ actions w' = (actions W1 ++ [pa])%list
                     /\ PendingAction.status pa = Pending /\ PendingAction.approvals pa = [])
      \/ (exists id a', op_target (OpCancel (oid 50) (oid 2) None) = Some id
          /\ PendingAction._id a' = id
          /\ actions w' = map (fun x => if String.eqb (PendingAction._id x) id then a' else x)
                              (actions W1))).
Proof.
  destruct (run_op NoFault 10 (OpCancel (oid 50) (oid 2) None) W1) as [r w'] eqn:E.
  exists r, w'; split; [reflexivity|].
  exact (workflow_request_frame NoFault 10 (OpCancel (oid 50) (oid 2) None) W1 w' r eq_refl E).
Defined.

Lemma actions_stay_well_formed_witness :
  Forall action_ok (actions W1)
  /\ Forall action_ok (actions (run_ops [(NoFault, 10%Z, OpApprove (oid 50) (oid 1) "ok" None)] W1))
  /\ Forall action_ok (actions (snd (expireStaleActions 2000 W1))).
Proof.
  assert (Hok : Forall action_ok (actions W1)).
  { repeat constructor; cbn; try lia; discriminate. }
  split; [exact Hok|].
  exact (actions_stay_well_formed _ 2000 W1 Hok).
Defined.

Lemma approved_past_delay_frozen_witness :
  findAction W5 (oid 50) = Some (approved_at 20)
  /\ PendingAction.status (approved_at 20) = Approved
  /\ PendingAction.scheduledExecutionAt (approved_at 20) = Some 20%Z
  /\ findAction (snd (run_op NoFault 30 (OpVeto (oid 50) (oid 1) "stop" None) W5)) (oid 50)
     = Some (approved_at 20).
Proof.
  assert (Hf : findAction W5 (oid 50) = Some (approved_at 20)) by (vm_compute; reflexivity).
  split; [exact Hf|]; split; [reflexivity|]; split; [reflexivity|].
  apply (approved_past_delay_frozen NoFault 30 _ W5 (oid 50) (approved_at 20) 20 Hf eq_refl eq_refl).
  lia.
Defined.

Lemma identity_links_stay_unique_witness :
  let reqs := [(NoFault, 1%Z, OpBootstrap (Some "a@x.io") (Some "secret1") (Some "Ada") None);
               (NoFault, 2%Z, OpRecovery (Some "tok") (Some "tok") (Some "a@x.io")
                                (Some "secret1") (Some "Ada") None)] in
  NoDup (map Firebase.email (authUsers W0)) /\ NoDup (linked_uids (users W0))
  /\ NoDup (map Firebase.email (authUsers (run_ops reqs W0)))
  /\ NoDup (linked_uids (users (run_ops reqs W0))).
Proof.
  intros reqs.
  assert (He : NoDup (map Firebase.email (authUsers W0))) by constructor.
  assert (Hl : NoDup (linked_uids (users W0))) by constructor.
  split; [exact He|]; split; [exact Hl|].
  exact (identity_links_stay_unique reqs W0 He Hl).
Defined.

Lemma admin_grant_on_201_witness :
  exists w', run_op NoFault 1 (OpBootstrap (Some "Ada@X.io") (Some "secret1") (Some "Ada") None) W0
             = (RHttp (Some 201), w')
  /\ exists em fu u, Some "Ada@X.io" = Some em /\ lower (Firebase.email fu) = lower em
     /\ In fu (authUsers w') /\ Firebase.claimsRole fu = Some "admin"
     /\ In u (users w') /\ User.firebaseUid u = Some (Firebase.uid fu)
     /\ User.email u = Some "Ada@X.io" /\ is_active_admin u = true.
Proof.
  destruct (run_op NoFault 1 (OpBootstrap (Some "Ada@X.io") (Some "secret1") (Some "Ada") None) W0)
    as [r w'] eqn:E.
  assert (Hr : r = RHttp (Some 201)) by (vm_compute in E; injection E as <- _; reflexivity).
  subst r; exists w'; split; [reflexivity|].
  exact (admin_grant_on_201 NoFault 1 None None _ _ _ None W0 w' (or_introl E)).
Defined.
